(** * EcoMarket traffic control and coordination: a shallow embedding

    This development embeds the control layer of the EcoMarket clients
    ([throttle.py], [coordinador_async.py], [smart_session.py]) and proves
    the properties its specification states about it.

    Conventions of the embedding:
    - Python [float] values are idealised as exact rationals ([Q]); [int]
      values are [Z].
    - [time.time()] is a read of a clock owned by the environment.  Every read
      may find the clock advanced by a lag chosen by the environment, and a
      suspension ([asyncio.sleep], a network exchange) advances it by its
      duration.
    - A coroutine is a state transformer that returns, raises, or hangs
      (waits forever, or exhausts the fuel given to an unbounded loop).
    - The remote exchange, the JSON body and schema validation are inputs
      chosen by the environment; the HTTP session and the URL builder are
      left out.
    - A Python [set] of tasks is a list, visited in the order the environment
      lists the tasks; tasks are named by their endpoint.
    - [asyncio.gather] runs its awaitables one after the other.  The limiter
      shared by concurrent coroutines is studied on its own as a transition
      system over all their interleavings. *)

From Stdlib Require Import ZArith QArith Qminmax Qround Lqa Lia.
From Stdlib Require Import List Bool String.
From Stdlib Require Import DecimalString.
Import ListNotations.

(** ** Python runtime *)

Module Py.

(** The exception classes the modelled modules raise or name in an
    [except] clause. *)
Inductive exn : Type :=
| EcoMarketError
| HTTPValidationError
| ServerError
| ProductoNoEncontrado
| NoAutorizado
| ServicioNoDisponible
| TimeoutError
| ConexionError
| ResponseValidationError
| SchemaValidationError      (* validadores.ValidationError *)
| TypeError                  (* raised by an [except] clause, see [dispatch] *)
| ClientConnectorError       (* aiohttp.ClientConnectorError *)
| AsyncioTimeoutError        (* asyncio.TimeoutError *)
| ContentTypeError           (* response.json() on a body that is not JSON *)
| ZeroDivisionError
| ValueError
| CancelledError.            (* asyncio.CancelledError, a BaseException *)

(** [isinstance(e, Exception)]: everything but [CancelledError]. *)
Definition is_Exception (e : exn) : bool :=
  match e with
  | CancelledError => false
  | _ => true
  end.

Definition Qltb (a b : Q) : bool := negb (Qle_bool b a).

(** [min(a, b)]: the first argument unless the second is smaller. *)
Definition min (a b : Q) : Q := if Qltb b a then b else a.

(** [int(x)] on a float: truncation toward zero. *)
Definition int (x : Q) : Z := Z.quot (Qnum x) (Zpos (Qden x)).

(** Round half to even, to the nearest integer. *)
Definition round_half_even (x : Q) : Z :=
  let f := Qfloor x in
  let r := x - inject_Z f in
  if Qltb r (1 # 2) then f
  else if Qltb (1 # 2) r then (f + 1)%Z
  else if Z.even f then f else (f + 1)%Z.

(** [round(x, 2)]. *)
Definition round2 (x : Q) : Q := inject_Z (round_half_even (x * 100)) / 100.

(** [str(n)] for a non-negative [int]. *)
Definition str_nat (n : nat) : string := NilZero.string_of_uint (Nat.to_uint n).

End Py.

(** ** The environment: clock and suspension *)

Module Runtime.

(** Ghost events, most recent first: the delays handed to [asyncio.sleep]
    and the values assigned to a bucket's [tokens] attribute. *)
Inductive event : Type :=
| EvSleep (delay : Q)
| EvTokens (value : Q).

Record World : Type := {
  now : Q;              (* the clock *)
  lag : nat -> Q;       (* how far the clock runs ahead at its n-th read *)
  tick : nat;           (* reads of the clock so far *)
  trace : list event
}.

(** [time.time()] *)
Definition time_time (w : World) : Q * World :=
  let t := now w + lag w (tick w) in
  (t, {| now := t; lag := lag w; tick := S (tick w); trace := trace w |}).

(** Time spent suspended: nothing for a non-positive delay. *)
Definition elapse (d : Q) (w : World) : World :=
  {| now := now w + (if Py.Qltb 0 d then d else 0);
     lag := lag w; tick := tick w; trace := trace w |}.

Definition log (e : event) (w : World) : World :=
  {| now := now w; lag := lag w; tick := tick w; trace := e :: trace w |}.

(** [await asyncio.sleep(d)] *)
Definition asyncio_sleep (d : Q) (w : World) : World :=
  elapse d (log (EvSleep d) w).

(** What a coroutine does: return, raise, or never come back. *)
Inductive result (A : Type) : Type :=
| Return (a : A)
| Raise (e : Py.exn)
| Hang.
Arguments Return {A} a.
Arguments Raise {A} e.
Arguments Hang {A}.

Definition M (S A : Type) : Type := S -> result A * S.

Definition ret {S A} (a : A) : M S A := fun s => (Return a, s).
Definition raise {S A} (e : Py.exn) : M S A := fun s => (Raise e, s).
Definition hang {S A} : M S A := fun s => (Hang, s).

Definition bind {S A B} (m : M S A) (k : A -> M S B) : M S B :=
  fun s =>
    match m s with
    | (Return a, s1) => k a s1
    | (Raise e, s1) => (Raise e, s1)
    | (Hang, s1) => (Hang, s1)
    end.

Definition get {S} : M S S := fun s => (Return s, s).
Definition modify {S} (f : S -> S) : M S unit := fun s => (Return tt, f s).

(** Run a computation on a component of the state. *)
Definition zoom {S T A} (proj : T -> S) (upd : S -> T -> T)
    (m : M (World * S) A) : M (World * T) A :=
  fun wt =>
    let '(r, (w1, s1)) := m (fst wt, proj (snd wt)) in
    (r, (w1, upd s1 (snd wt))).

(** [try: body except ...]: [handlers e] is the first clause matching
    [e], if any. *)
Definition try_except {S A} (body : M S A)
    (handlers : Py.exn -> option (M S A)) : M S A :=
  fun s =>
    match body s with
    | (Raise e, s1) =>
        match handlers e with
        | Some h => h s1
        | None => (Raise e, s1)
        end
    | other => other
    end.

(** The class an [except] clause names: an exception class, given by its
    [isinstance] test, or a class that does not derive from [BaseException].
    Python evaluates the clauses in order; when an exception reaches a clause
    of the second kind, the match itself raises [TypeError]. *)
Inductive except_class : Type :=
| ExceptionClass (isinstance : Py.exn -> bool)
| NotAnExceptionClass.

Fixpoint dispatch {S A} (clauses : list (except_class * M S A)) (e : Py.exn)
    : option (M S A) :=
  match clauses with
  | [] => None
  | (NotAnExceptionClass, _) :: _ => Some (raise Py.TypeError)
  | (ExceptionClass isinstance, body) :: rest =>
      if isinstance e then Some body else dispatch rest e
  end.

(** [async with cm: body].  [__aexit__] runs on both exits of the body and
    its truth value decides whether an exception is swallowed, in which case
    the statement completes without a value ([None]). *)
Definition async_with {S A} (aenter : M S unit)
    (aexit : option Py.exn -> M S bool) (body : M S A) : M S (option A) :=
  fun s =>
    match aenter s with
    | (Return _, s1) =>
        match body s1 with
        | (Return a, s2) =>
            match aexit None s2 with
            | (Return _, s3) => (Return (Some a), s3)
            | (Raise e, s3) => (Raise e, s3)
            | (Hang, s3) => (Hang, s3)
            end
        | (Raise e, s2) =>
            match aexit (Some e) s2 with
            | (Return true, s3) => (Return None, s3)
            | (Return false, s3) => (Raise e, s3)
            | (Raise e', s3) => (Raise e', s3)
            | (Hang, s3) => (Hang, s3)
            end
        | (Hang, s2) => (Hang, s2)
        end
    | (Raise e, s1) => (Raise e, s1)
    | (Hang, s1) => (Hang, s1)
    end.

End Runtime.

Import Runtime.

Declare Scope py_scope.
Notation "x <- c ;; k" := (bind c (fun x => k))
  (at level 61, c at next level, right associativity) : py_scope.
Notation "c ;;; k" := (bind c (fun _ => k))
  (at level 61, right associativity) : py_scope.
Open Scope py_scope.
Open Scope Q_scope.

(** ** throttle.py *)

Module TokenBucket.

Record t : Type := {
  max_tokens : Z;
  tokens_per_second : Q;
  tokens : Q;
  last_refill : Q
}.

Definition set_tokens (v : Q) (b : t) : t :=
  {| max_tokens := max_tokens b; tokens_per_second := tokens_per_second b;
     tokens := v; last_refill := last_refill b |}.

Definition set_last_refill (v : Q) (b : t) : t :=
  {| max_tokens := max_tokens b; tokens_per_second := tokens_per_second b;
     tokens := tokens b; last_refill := v |}.

(** The dataclass constructor followed by [__post_init__]. *)
Definition __post_init__ (max_tokens : Z) (tokens_per_second : Q)
    (w : World) : t * World :=
  let w1 := log (EvTokens (inject_Z max_tokens)) w in
  let '(t0, w2) := time_time w1 in
  ({| max_tokens := max_tokens; tokens_per_second := tokens_per_second;
      tokens := inject_Z max_tokens; last_refill := t0 |}, w2).

(** Lines 172-178: refill by the time elapsed since the last refill. *)
Definition refill (now : Q) (b : t) : t :=
  let elapsed := now - last_refill b in
  set_last_refill now
    (set_tokens
       (Py.min (inject_Z (max_tokens b))
               (tokens b + elapsed * tokens_per_second b)) b).

(** Line 182. *)
Definition consume (b : t) : t := set_tokens (tokens b - 1) b.

(** The body of [while True], [fuel] iterations at most. *)
Fixpoint acquire_loop (fuel : nat) (inicio_espera : Q)
    (s : World * t) : result Q * (World * t) :=
  match fuel with
  | O => (Hang, s)
  | S fuel' =>
      let '(now, w1) := time_time (fst s) in
      let b1 := refill now (snd s) in
      let w2 := log (EvTokens (tokens b1)) w1 in
      if Qle_bool 1 (tokens b1) then
        let b2 := consume b1 in
        let w3 := log (EvTokens (tokens b2)) w2 in
        let '(t1, w4) := time_time w3 in
        (Return (t1 - inicio_espera), (w4, b2))
      else
        let deficit := 1 - tokens b1 in
        if Qeq_bool (tokens_per_second b1) 0 then
          (Raise Py.ZeroDivisionError, (w2, b1))
        else
          let sleep_time := deficit / tokens_per_second b1 in
          acquire_loop fuel' inicio_espera (asyncio_sleep sleep_time w2, b1)
  end.

Definition acquire (fuel : nat) : M (World * t) Q :=
  fun s =>
    let '(inicio_espera, w1) := time_time (fst s) in
    acquire_loop fuel inicio_espera (w1, snd s).

End TokenBucket.

Module RateLimiter.

Record t : Type := {
  max_per_second : Q;
  bucket : TokenBucket.t;
  _total_wait_time : Q;
  _requests_made : Z
}.

Definition set_bucket (b : TokenBucket.t) (r : t) : t :=
  {| max_per_second := max_per_second r; bucket := b;
     _total_wait_time := _total_wait_time r;
     _requests_made := _requests_made r |}.

Definition __init__ (max_per_second : Q) (w : World) : t * World :=
  let '(b, w1) :=
    TokenBucket.__post_init__ (Py.int max_per_second) max_per_second w in
  ({| max_per_second := max_per_second; bucket := b;
      _total_wait_time := 0; _requests_made := 0 |}, w1).

(** [AcquireContext.__aenter__]; the value is [wait_time]. *)
Definition __aenter__ (fuel : nat) : M (World * t) Q :=
  wait_time <- zoom bucket set_bucket (TokenBucket.acquire fuel) ;;
  modify (fun s : World * t =>
    (fst s,
     {| max_per_second := max_per_second (snd s); bucket := bucket (snd s);
        _total_wait_time := _total_wait_time (snd s) + wait_time;
        _requests_made := _requests_made (snd s) + 1 |})) ;;;
  ret wait_time.

(** [AcquireContext.__aexit__] *)
Definition __aexit__ (exc : option Py.exn) : M (World * t) bool :=
  ret false.

Definition average_wait_time (r : t) : Q :=
  if Z.eqb (_requests_made r) 0 then 0
  else _total_wait_time r / inject_Z (_requests_made r).

End RateLimiter.

Module ConcurrencyLimiter.

Record t : Type := {
  max_concurrent : Z;
  semaphore : Z;        (* the value of the asyncio.Semaphore *)
  _in_flight : Z
}.

(** [asyncio.Semaphore(value)] refuses a negative value. *)
Definition __init__ (max_concurrent : Z) : result t :=
  if (max_concurrent <? 0)%Z then Raise Py.ValueError
  else Return {| max_concurrent := max_concurrent;
                 semaphore := max_concurrent; _in_flight := 0 |}.

(** [AcquireContext.__aenter__] once a permit is available: take it, then
    count the request. *)
Definition enter (l : t) : t :=
  {| max_concurrent := max_concurrent l;
     semaphore := (semaphore l - 1)%Z;
     _in_flight := (_in_flight l + 1)%Z |}.

(** [AcquireContext.__aenter__]: [None] while no permit is available. *)
Definition try_aenter (l : t) : option t :=
  if (0 <? semaphore l)%Z then Some (enter l) else None.

(** [AcquireContext.__aexit__]: the same on every exit of the body. *)
Definition aexit (exc : option Py.exn) (l : t) : t * bool :=
  ({| max_concurrent := max_concurrent l;
      semaphore := (semaphore l + 1)%Z;
      _in_flight := (_in_flight l - 1)%Z |}, false).

(** The two methods as run by one coroutine on its own.  With no permit
    left, [await self.limiter.semaphore.acquire()] suspends it: it goes on
    only when another coroutine releases a permit, which is what the
    transitions [step] below describe; left to itself it waits forever. *)
Definition __aenter__ {W} : M (W * t) unit :=
  fun s =>
    match try_aenter (snd s) with
    | Some l => (Return tt, (fst s, l))
    | None => (Hang, s)
    end.

Definition __aexit__ {W} (exc : option Py.exn) : M (W * t) bool :=
  fun s => let '(l, b) := aexit exc (snd s) in (Return b, (fst s, l)).

Definition in_flight (l : t) : Z := _in_flight l.

(** Coroutines sharing one limiter, each running
    [async with limiter.acquire(): body]. *)
Inductive phase : Type :=
| Waiting                          (* before or inside __aenter__ *)
| Inside                           (* running the body *)
| Left (exc : option Py.exn).      (* after __aexit__ *)

Definition system : Type := (t * list phase)%type.

Definition set_phase (i : nat) (p : phase) (ps : list phase) : list phase :=
  firstn i ps ++ p :: skipn (S i) ps.

Inductive step : system -> system -> Prop :=
| step_enter l l' ps i :
    nth_error ps i = Some Waiting ->
    try_aenter l = Some l' ->
    step (l, ps) (l', set_phase i Inside ps)
| step_exit l ps i exc :
    nth_error ps i = Some Inside ->
    step (l, ps) (fst (aexit exc l), set_phase i (Left exc) ps).

Inductive reachable (max_concurrent : Z) (n : nat) : system -> Prop :=
| reach_init l :
    __init__ max_concurrent = Return l ->
    reachable max_concurrent n (l, repeat Waiting n)
| reach_step s s' :
    reachable max_concurrent n s -> step s s' ->
    reachable max_concurrent n s'.

End ConcurrencyLimiter.

Module ThrottledClient.

Record metrics_t : Type := {
  total_requests : Z;
  successful_requests : Z;
  failed_requests : Z;
  total_bytes_sent : Z;
  total_bytes_received : Z
}.

Record t : Type := {
  concurrency_limiter : ConcurrencyLimiter.t;
  rate_limiter : RateLimiter.t;
  metrics : metrics_t
}.

Definition set_concurrency_limiter (l : ConcurrencyLimiter.t) (c : t) : t :=
  {| concurrency_limiter := l; rate_limiter := rate_limiter c;
     metrics := metrics c |}.

Definition set_rate_limiter (r : RateLimiter.t) (c : t) : t :=
  {| concurrency_limiter := concurrency_limiter c; rate_limiter := r;
     metrics := metrics c |}.

Definition set_metrics (m : metrics_t) (c : t) : t :=
  {| concurrency_limiter := concurrency_limiter c;
     rate_limiter := rate_limiter c; metrics := m |}.

Definition __init__ (max_concurrent : Z) (max_per_second : Q) : M World t :=
  fun w =>
    match ConcurrencyLimiter.__init__ max_concurrent with
    | Return cl =>
        let '(rl, w1) := RateLimiter.__init__ max_per_second w in
        (Return {| concurrency_limiter := cl; rate_limiter := rl;
                   metrics := {| total_requests := 0;
                                 successful_requests := 0;
                                 failed_requests := 0;
                                 total_bytes_sent := 0;
                                 total_bytes_received := 0 |} |}, w1)
    | Raise e => (Raise e, w)
    | Hang => (Hang, w)
    end.

(** A decoded JSON value, as far as the client looks at it: its [str()]
    rendering and whether it passes [validar_producto]. *)
Record json : Type := {
  json_str : string;
  is_valid_producto : bool
}.

Definition len_str (s : string) : Z := Z.of_nat (String.length s).

(** What the server and the transport do with one request. *)
Inductive response_body : Type :=
| JsonBody (value : json)
| JsonFails (e : Py.exn).         (* [response.json()] raises *)

Inductive exchange : Type :=
| RequestRaises (e : Py.exn) (duration : Q)
| Response (status : Z) (body : response_body) (duration : Q).

Definition update_metrics (f : metrics_t -> metrics_t) : M (World * t) unit :=
  modify (fun s => (fst s, set_metrics (f (metrics (snd s))) (snd s))).

Definition incr_total_requests (m : metrics_t) : metrics_t :=
  {| total_requests := total_requests m + 1;
     successful_requests := successful_requests m;
     failed_requests := failed_requests m;
     total_bytes_sent := total_bytes_sent m;
     total_bytes_received := total_bytes_received m |}.

Definition incr_successful_requests (m : metrics_t) : metrics_t :=
  {| total_requests := total_requests m;
     successful_requests := successful_requests m + 1;
     failed_requests := failed_requests m;
     total_bytes_sent := total_bytes_sent m;
     total_bytes_received := total_bytes_received m |}.

Definition incr_failed_requests (m : metrics_t) : metrics_t :=
  {| total_requests := total_requests m;
     successful_requests := successful_requests m;
     failed_requests := failed_requests m + 1;
     total_bytes_sent := total_bytes_sent m;
     total_bytes_received := total_bytes_received m |}.

Definition add_bytes_sent (n : Z) (m : metrics_t) : metrics_t :=
  {| total_requests := total_requests m;
     successful_requests := successful_requests m;
     failed_requests := failed_requests m;
     total_bytes_sent := total_bytes_sent m + n;
     total_bytes_received := total_bytes_received m |}.

Definition add_bytes_received (n : Z) (m : metrics_t) : metrics_t :=
  {| total_requests := total_requests m;
     successful_requests := successful_requests m;
     failed_requests := failed_requests m;
     total_bytes_sent := total_bytes_sent m;
     total_bytes_received := total_bytes_received m + n |}.

Definition suspend (d : Q) : M (World * t) unit :=
  modify (fun s => (elapse d (fst s), snd s)).

(** Lines 344-359: [async with self.session.request(...) as response]. *)
Definition session_request (ex : exchange) : M (World * t) (option json) :=
  match ex with
  | RequestRaises e d => suspend d ;;; raise e
  | Response status body d =>
      suspend d ;;;
      if (500 <=? status)%Z then raise Py.ServerError
      else if (400 <=? status)%Z then raise Py.HTTPValidationError
      else
        result <-
          (if (status =? 204)%Z then ret None
           else
             match body with
             | JsonFails e => raise e
             | JsonBody v =>
                 update_metrics (add_bytes_received (len_str (json_str v))) ;;;
                 ret (Some v)
             end) ;;
        update_metrics incr_successful_requests ;;;
        ret result
  end.

(** Lines 333-359: the body of [try]. *)
Definition try_body (json_data : option string) (ex : exchange)
    : M (World * t) (option json) :=
  update_metrics incr_total_requests ;;;
  match json_data with
  | Some d => update_metrics (add_bytes_sent (len_str d))
  | None => ret tt
  end ;;;
  session_request ex.

(** Lines 361-366: the [except] clauses.  [aiohttp.ClientTimeout] is the
    class of the timeout settings built at line 336, not an exception
    class. *)
Definition except_clauses : list (except_class * M (World * t) (option json)) :=
  [ (NotAnExceptionClass,                          (* aiohttp.ClientTimeout *)
     update_metrics incr_failed_requests ;;; raise Py.TimeoutError);
    (ExceptionClass (fun e => match e with
                              | Py.ClientConnectorError => true
                              | _ => false
                              end),
     update_metrics incr_failed_requests ;;; raise Py.ConexionError) ].

Definition handlers (e : Py.exn) : option (M (World * t) (option json)) :=
  dispatch except_clauses e.

(** [_request].  [json_data] is given by its [str()] rendering.  A [with]
    statement whose exit swallowed an exception falls through to the end of
    the function, which then returns [None]. *)
Definition _request (fuel : nat) (json_data : option string) (ex : exchange)
    : M (World * t) (option json) :=
  r <- async_with
         (zoom rate_limiter set_rate_limiter (RateLimiter.__aenter__ fuel) ;;;
          ret tt)
         (fun exc =>
            zoom rate_limiter set_rate_limiter (RateLimiter.__aexit__ exc))
         (async_with
            (zoom concurrency_limiter set_concurrency_limiter
               ConcurrencyLimiter.__aenter__)
            (fun exc =>
               zoom concurrency_limiter set_concurrency_limiter
                 (ConcurrencyLimiter.__aexit__ exc))
            (try_except (try_body json_data ex) handlers)) ;;
  ret (match r with
       | Some (Some v) => v
       | _ => None
       end).

(** [validar_producto]: the verdict comes with the value; [None] is not a
    dict. *)
Definition validar_producto (result : option json) : M (World * t) json :=
  match result with
  | Some v =>
      if is_valid_producto v then ret v else raise Py.SchemaValidationError
  | None => raise Py.SchemaValidationError
  end.

Definition crear_producto (fuel : nat) (producto : string) (ex : exchange)
    : M (World * t) json :=
  result <- _request fuel (Some producto) ex ;;
  validar_producto result.

(** The snapshot returned by [get_metrics]. *)
Record snapshot : Type := {
  snap_metrics : metrics_t;
  snap_in_flight : Z;
  snap_average_wait_time : Q;
  snap_max_concurrent : Z;
  snap_max_per_second : Q
}.

Definition get_metrics : M (World * t) snapshot :=
  fun s =>
    let c := snd s in
    (Return
       {| snap_metrics := metrics c;
          snap_in_flight :=
            ConcurrencyLimiter.in_flight (concurrency_limiter c);
          snap_average_wait_time :=
            RateLimiter.average_wait_time (rate_limiter c);
          snap_max_concurrent :=
            ConcurrencyLimiter.max_concurrent (concurrency_limiter c);
          snap_max_per_second :=
            RateLimiter.max_per_second (rate_limiter c) |}, s).

End ThrottledClient.

Module Throttle.

Import ThrottledClient.

(** An entry of the list [asyncio.gather(..., return_exceptions=True)]
    returns. *)
Inductive settled (A : Type) : Type :=
| Value (a : A)
| Exc (e : Py.exn).
Arguments Value {A} a.
Arguments Exc {A} e.

(** [isinstance(r, Exception)] *)
Definition isinstance_Exception {A} (r : settled A) : bool :=
  match r with
  | Value _ => false
  | Exc e => Py.is_Exception e
  end.

(** [asyncio.gather] with [return_exceptions=True], the awaitables run one
    after the other: an exception is one more result. *)
Fixpoint gather {S A} (tareas : list (M S A)) : M S (list (settled A)) :=
  match tareas with
  | [] => ret []
  | tarea :: rest =>
      fun s =>
        match tarea s with
        | (Return a, s1) => (rs <- gather rest ;; ret (Value a :: rs)) s1
        | (Raise e, s1) => (rs <- gather rest ;; ret (Exc e :: rs)) s1
        | (Hang, s1) => (Hang, s1)
        end
  end.

(** [str(producto)] for the test product of index [i]. *)
Definition producto (i : nat) : string :=
  ("{'nombre': 'Producto Test " ++ Py.str_nat (i + 1)
   ++ "', 'descripcion': 'Producto de prueba #" ++ Py.str_nat (i + 1)
   ++ "', 'precio': " ++ Py.str_nat (100 + i)
   ++ ", 'categoria': 'test', 'stock': 10}")%string.

Record report : Type := {
  rep_num_productos : Z;
  rep_exitosos : Z;
  rep_errores : Z;
  rep_tiempo_total : Q;
  rep_throughput : Q;
  rep_metrics : snapshot;
  rep_productos : list (settled json)
}.

(** [crear_multiples_productos]; [exs i] is what happens to the request of
    product [i]. *)
Definition crear_multiples_productos (fuel : nat) (exs : nat -> exchange)
    (num_productos : Z) (max_concurrent : Z) (max_per_second : Q)
    : M World report :=
  fun w0 =>
    let '(inicio, w1) := time_time w0 in
    match ThrottledClient.__init__ max_concurrent max_per_second w1 with
    | (Return client, w2) =>
        let tareas :=
          map (fun i => crear_producto fuel (producto i) (exs i))
              (seq 0 (Z.to_nat num_productos)) in
        match gather tareas (w2, client) with
        | (Return resultados, s3) =>
            let exitosos :=
              filter (fun r => negb (isinstance_Exception r)) resultados in
            let errores := filter isinstance_Exception resultados in
            let '(fin, w4) := time_time (fst s3) in
            let tiempo_total := fin - inicio in
            if Qeq_bool tiempo_total 0 then (Raise Py.ZeroDivisionError, w4)
            else
              match get_metrics (w4, snd s3) with
              | (Return snap, s5) =>
                  (Return
                     {| rep_num_productos := num_productos;
                        rep_exitosos := Z.of_nat (List.length exitosos);
                        rep_errores := Z.of_nat (List.length errores);
                        rep_tiempo_total := tiempo_total;
                        rep_throughput :=
                          inject_Z num_productos / tiempo_total;
                        rep_metrics := snap;
                        rep_productos := firstn 10 exitosos |}, fst s5)
              | (Raise e, s5) => (Raise e, fst s5)
              | (Hang, s5) => (Hang, fst s5)
              end
        | (Raise e, s3) => (Raise e, fst s3)
        | (Hang, s3) => (Hang, fst s3)
        end
    | (Raise e, w2) => (Raise e, w2)
    | (Hang, w2) => (Hang, w2)
    end.

End Throttle.

(** ** smart_session.py *)

Module ConnectionPoolStats.

Record t : Type := {
  connections_created : Z;
  connections_reused : Z;
  connections_closed : Z;
  acquisition_times : list Q;
  _start_time : Q
}.

Definition __init__ (w : World) : t * World :=
  let '(t0, w1) := time_time w in
  ({| connections_created := 0; connections_reused := 0;
      connections_closed := 0; acquisition_times := [];
      _start_time := t0 |}, w1).

(** [sum(xs)] *)
Definition sum (xs : list Q) : Q := fold_left Qplus xs 0.

Definition get_average_acquisition_time (s : t) : Q :=
  match acquisition_times s with
  | [] => 0
  | _ => sum (acquisition_times s)
         / inject_Z (Z.of_nat (List.length (acquisition_times s)))
  end.

Definition get_uptime : M (World * t) Q :=
  fun s =>
    let '(t1, w1) := time_time (fst s) in
    (Return (t1 - _start_time (snd s)), (w1, snd s)).

Record dict : Type := {
  created : Z;
  reused : Z;
  closed : Z;
  avg_acquisition_ms : Q;
  uptime_sec : Q
}.

Definition to_dict : M (World * t) dict :=
  uptime <- get_uptime ;;
  s <- get ;;
  ret {| created := connections_created (snd s);
         reused := connections_reused (snd s);
         closed := connections_closed (snd s);
         avg_acquisition_ms :=
           Py.round2 (get_average_acquisition_time (snd s) * 1000);
         uptime_sec := Py.round2 uptime |}.

End ConnectionPoolStats.

(** ** coordinador_async.py: checking a response *)

Module Verificacion.

(** What [_verificar_respuesta] reads of a response: the status and the
    [Content-Type] header, if there is one. *)
Record response_t : Type := {
  status : Z;
  content_type_header : option string
}.

(** [needle in haystack], on strings. *)
Fixpoint contains (needle haystack : string) : bool :=
  String.prefix needle haystack
  || match haystack with
     | EmptyString => false
     | String _ rest => contains needle rest
     end.

(** [response.headers.get('Content-Type', '')] *)
Definition headers_get_content_type (r : response_t) : string :=
  match content_type_header r with
  | Some v => v
  | None => EmptyString
  end.

Definition _verificar_respuesta (response : response_t)
    : result response_t :=
  if (status response =? 503)%Z then Raise Py.ServicioNoDisponible
  else if (500 <=? status response)%Z then Raise Py.ServerError
  else if (status response =? 401)%Z then Raise Py.NoAutorizado
  else if (400 <=? status response)%Z then Raise Py.HTTPValidationError
  else
    let content_type := headers_get_content_type response in
    if negb (contains "application/json"%string content_type) then
      if negb (status response =? 204)%Z then Raise Py.HTTPValidationError
      else Return response
    else Return response.

End Verificacion.

(** ** coordinador_async.py *)

Module Coordinador.

Inductive endpoint : Type := productos | categorias | perfil | notificaciones.

Definition endpoint_eqb (a b : endpoint) : bool :=
  match a, b with
  | productos, productos | categorias, categorias
  | perfil, perfil | notificaciones, notificaciones => true
  | _, _ => false
  end.

Definition mem (x : endpoint) (xs : list endpoint) : bool :=
  existsb (endpoint_eqb x) xs.

(** How a task settled: [await tarea] returns a value or raises.  The value
    is [None] when the task returned Python's [None], as a request answered
    with the JSON body [null] does. *)
Inductive settlement : Type :=
| Ok (value : option string)
| Err (e : Py.exn).

(** The [done] set of one [asyncio.wait], in the order the [for] loop visits
    it. *)
Definition batch : Type := list (endpoint * settlement).

Definition names (done : batch) : list endpoint := map fst done.

(** The [pendientes] set [asyncio.wait] hands back. *)
Definition still_pending (pendientes : list endpoint) (done : batch)
    : list endpoint :=
  filter (fun t => negb (mem t (names done))) pendientes.

Definition datos_t : Type := endpoint -> option string.

(** [datos[nombre] = v] *)
Definition set_dato (nombre : endpoint) (v : option string) (d : datos_t)
    : datos_t :=
  fun k => if endpoint_eqb k nombre then v else d k.

(** The ["error"] text of an entry of [errores]. *)
Inductive error_text : Type :=
| str_of (e : Py.exn)                      (* str(e) *)
| cancelada_por_falta_de_autenticacion
| tarea_cancelada.

Record error_entry : Type := {
  err_endpoint : endpoint;
  err_error : error_text;
  err_cancelada : bool
}.

(** *** The four requests (lines 154-260) *)

(** A decoded JSON body: [null], which Python reads as [None], or any other
    value, given by its rendering and by whether [validar_lista_productos]
    accepts it. *)
Inductive json : Type :=
| JNull
| JValue (repr : string) (es_lista_de_productos : bool).

Definition to_python (data : json) : option string :=
  match data with
  | JNull => None
  | JValue repr _ => Some repr
  end.

Inductive response_body : Type :=
| JsonBody (data : json)
| JsonFails (e : Py.exn).         (* [response.json()] raises *)

(** What happens to the GET of a request function. *)
Inductive exchange : Type :=
| RequestRaises (e : Py.exn)      (* [session.get] raises *)
| Response (response : Verificacion.response_t) (body : response_body).

(** [_validar_y_retornar_lista]: the list itself, or
    [ResponseValidationError] for what is not a list of valid products. *)
Definition _validar_y_retornar_lista (data : json) : M unit (option string) :=
  match data with
  | JValue repr true => ret (Some repr)
  | _ => raise Py.ResponseValidationError
  end.

(** The body of [try] in [listar_productos]. *)
Definition listar_productos_body (ex : exchange) : M unit (option string) :=
  match ex with
  | RequestRaises e => raise e
  | Response response body =>
      match Verificacion._verificar_respuesta response with
      | Return _ =>
          match body with
          | JsonBody data => _validar_y_retornar_lista data
          | JsonFails e => raise e
          end
      | Raise e => raise e
      | Hang => hang
      end
  end.

(** The body of [try] in [obtener_categorias], [obtener_perfil] and
    [obtener_notificaciones]: the decoded body is returned as it is. *)
Definition obtener_body (ex : exchange) : M unit (option string) :=
  match ex with
  | RequestRaises e => raise e
  | Response response body =>
      match Verificacion._verificar_respuesta response with
      | Return _ =>
          match body with
          | JsonBody data => ret (to_python data)
          | JsonFails e => raise e
          end
      | Raise e => raise e
      | Hang => hang
      end
  end.

(** The [except] clauses the four functions share.  [aiohttp.ClientTimeout]
    is the class of the timeout settings passed to [session.get], not an
    exception class. *)
Definition except_clauses : list (except_class * M unit (option string)) :=
  [ (NotAnExceptionClass,                          (* aiohttp.ClientTimeout *)
     raise Py.TimeoutError);
    (ExceptionClass (fun e => match e with
                              | Py.ClientConnectorError => true
                              | _ => false
                              end),
     raise Py.ConexionError);
    (ExceptionClass (fun e => match e with
                              | Py.CancelledError => true
                              | _ => false
                              end),
     raise Py.EcoMarketError) ].

Definition listar_productos (ex : exchange) : M unit (option string) :=
  try_except (listar_productos_body ex) (dispatch except_clauses).

Definition obtener_categorias (ex : exchange) : M unit (option string) :=
  try_except (obtener_body ex) (dispatch except_clauses).

Definition obtener_perfil (ex : exchange) : M unit (option string) :=
  try_except (obtener_body ex) (dispatch except_clauses).

Definition obtener_notificaciones (ex : exchange) : M unit (option string) :=
  try_except (obtener_body ex) (dispatch except_clauses).

(** The task created for each endpoint. *)
Definition tarea (nombre : endpoint) : exchange -> M unit (option string) :=
  match nombre with
  | productos => listar_productos
  | categorias => obtener_categorias
  | perfil => obtener_perfil
  | notificaciones => obtener_notificaciones
  end.

(** The [done] set of one [asyncio.wait], from the tasks the environment
    lists as finished in that round: each with the way it settled.  A task
    that never finishes is never found done. *)
Definition done_set (respuestas : endpoint -> exchange)
    (terminan : list endpoint) : batch :=
  flat_map (fun nombre =>
              match fst (tarea nombre (respuestas nombre) tt) with
              | Return v => [(nombre, Ok v)]
              | Raise e => [(nombre, Err e)]
              | Hang => []
              end) terminan.

(** *** Feature 2: the cancellation cascade *)

Record cascade : Type := {
  datos : datos_t;
  errores : list error_entry;
  canceladas_por_auth : bool;
  terminadas : list endpoint;      (* tasks for which [done()] holds *)
  cancel_llamado : list endpoint   (* tasks whose [cancel()] was called *)
}.

Definition add_error (e : error_entry) (st : cascade) : cascade :=
  {| datos := datos st; errores := errores st ++ [e];
     canceladas_por_auth := canceladas_por_auth st;
     terminadas := terminadas st; cancel_llamado := cancel_llamado st |}.

Definition cancel (tarea : endpoint) (st : cascade) : cascade :=
  {| datos := datos st; errores := errores st;
     canceladas_por_auth := canceladas_por_auth st;
     terminadas := terminadas st;
     cancel_llamado := cancel_llamado st ++ [tarea] |}.

Fixpoint cancel_remaining (tareas : list endpoint) (st : cascade)
    : Z * cascade :=
  match tareas with
  | [] => (0%Z, st)
  | tarea :: rest =>
      if negb (mem tarea (terminadas st)) then
        let '(canceladas, st1) := cancel_remaining rest (cancel tarea st) in
        ((canceladas + 1)%Z, st1)
      else cancel_remaining rest st
  end.

Definition report_cancelled (pendientes : list endpoint) (st : cascade)
    : cascade :=
  fold_left
    (fun acc nombre_cancelada =>
       add_error {| err_endpoint := nombre_cancelada;
                    err_error := cancelada_por_falta_de_autenticacion;
                    err_cancelada := true |} acc)
    pendientes st.

Definition set_canceladas_por_auth (st : cascade) : cascade :=
  {| datos := datos st; errores := errores st;
     canceladas_por_auth := true;
     terminadas := terminadas st; cancel_llamado := cancel_llamado st |}.

(** Lines 350-395: [for tarea in done], stopping at the [break]. *)
Fixpoint procesar_done (done : batch) (pendientes : list endpoint)
    (st : cascade) : result cascade :=
  match done with
  | [] => Return st
  | (nombre, Ok resultado) :: rest =>
      procesar_done rest pendientes
        {| datos := set_dato nombre resultado (datos st);
           errores := errores st;
           canceladas_por_auth := canceladas_por_auth st;
           terminadas := terminadas st;
           cancel_llamado := cancel_llamado st |}
  | (nombre, Err Py.NoAutorizado) :: rest =>
      let st1 := add_error {| err_endpoint := nombre;
                              err_error := str_of Py.NoAutorizado;
                              err_cancelada := false |} st in
      match pendientes with
      | [] => procesar_done rest pendientes st1
      | _ :: _ =>
          let '(num_canceladas, st2) := cancel_remaining pendientes st1 in
          Return (report_cancelled pendientes (set_canceladas_por_auth st2))
      end
  | (nombre, Err Py.CancelledError) :: rest =>
      procesar_done rest pendientes
        (add_error {| err_endpoint := nombre; err_error := tarea_cancelada;
                      err_cancelada := true |} st)
  | (nombre, Err e) :: rest =>
      if Py.is_Exception e then
        procesar_done rest pendientes
          (add_error {| err_endpoint := nombre; err_error := str_of e;
                        err_cancelada := false |} st)
      else Raise e
  end.

Definition mark_done (done : batch) (st : cascade) : cascade :=
  {| datos := datos st; errores := errores st;
     canceladas_por_auth := canceladas_por_auth st;
     terminadas := terminadas st ++ names done;
     cancel_llamado := cancel_llamado st |}.

(** Lines 343-399: [while pendientes].  [rondas] lists what each
    [asyncio.wait] finds done; when it runs out while tasks are pending, the
    wait never ends. *)
Fixpoint esperar (rondas : list batch) (pendientes : list endpoint)
    (st : cascade) : result cascade :=
  match pendientes with
  | [] => Return st
  | _ :: _ =>
      match rondas with
      | [] => Hang
      | done :: rest =>
          let pendientes' := still_pending pendientes done in
          match procesar_done done pendientes' (mark_done done st) with
          | Return st1 =>
              if canceladas_por_auth st1 then Return st1
              else esperar rest pendientes' st1
          | Raise e => Raise e
          | Hang => Hang
          end
      end
  end.

Definition todas_las_tareas : list endpoint := [productos; categorias; perfil].

Definition cascade_inicial : cascade :=
  {| datos := fun _ => None; errores := []; canceladas_por_auth := false;
     terminadas := []; cancel_llamado := [] |}.

(** [cargar_dashboard_con_cancelacion]: the three tasks are those of the
    function itself; [respuestas] is what the server answers to each, and
    [rondas] lists the tasks that finish at each [asyncio.wait]. *)
Definition cargar_dashboard_con_cancelacion
    (respuestas : endpoint -> exchange) (rondas : list (list endpoint))
    : result cascade :=
  esperar (map (done_set respuestas) rondas) todas_las_tareas cascade_inicial.

(** *** Feature 3: load with priority *)

Record prioridad : Type := {
  p_datos : datos_t;
  p_errores : list (endpoint * Py.exn);
  orden_llegada : list endpoint;
  criticas_completadas : list endpoint;
  tiempo_dashboard_parcial : option Q;
  asignaciones : nat   (* ghost: assignments to tiempo_dashboard_parcial *)
}.

Definition tareas_criticas : list endpoint := [productos; perfil].

Definition set_add (x : endpoint) (xs : list endpoint) : list endpoint :=
  if mem x xs then xs else xs ++ [x].

Definition set_eqb (xs ys : list endpoint) : bool :=
  forallb (fun x => mem x ys) xs && forallb (fun y => mem y xs) ys.

Definition is_None {A} (o : option A) : bool :=
  match o with None => true | Some _ => false end.

(** One round of [asyncio.wait]: how long it waited and what it found. *)
Record ronda : Type := { espera : Q; hechas : batch }.

(** Lines 506-526: the body of [for tarea in done] for one task. *)
Definition procesar_tarea (inicio : Q) (nombre : endpoint) (r : settlement)
    : M (World * prioridad) unit :=
  fun s =>
    let w := fst s in
    let st := snd s in
    let orden := orden_llegada st ++ [nombre] in
    match r with
    | Ok resultado =>
        let datos' := set_dato nombre resultado (p_datos st) in
        if mem nombre tareas_criticas then
          let completadas := set_add nombre (criticas_completadas st) in
          if set_eqb completadas tareas_criticas
             && is_None (tiempo_dashboard_parcial st) then
            let '(t, w1) := time_time w in
            (Return tt,
             (w1, {| p_datos := datos'; p_errores := p_errores st;
                     orden_llegada := orden;
                     criticas_completadas := completadas;
                     tiempo_dashboard_parcial := Some (t - inicio);
                     asignaciones := S (asignaciones st) |}))
          else
            (Return tt,
             (w, {| p_datos := datos'; p_errores := p_errores st;
                    orden_llegada := orden;
                    criticas_completadas := completadas;
                    tiempo_dashboard_parcial := tiempo_dashboard_parcial st;
                    asignaciones := asignaciones st |}))
        else
          (Return tt,
           (w, {| p_datos := datos'; p_errores := p_errores st;
                  orden_llegada := orden;
                  criticas_completadas := criticas_completadas st;
                  tiempo_dashboard_parcial := tiempo_dashboard_parcial st;
                  asignaciones := asignaciones st |}))
    | Err e =>
        let st1 := {| p_datos := p_datos st; p_errores := p_errores st;
                      orden_llegada := orden;
                      criticas_completadas := criticas_completadas st;
                      tiempo_dashboard_parcial := tiempo_dashboard_parcial st;
                      asignaciones := asignaciones st |} in
        if Py.is_Exception e then
          (Return tt,
           (w, {| p_datos := p_datos st;
                  p_errores := p_errores st ++ [(nombre, e)];
                  orden_llegada := orden;
                  criticas_completadas := criticas_completadas st;
                  tiempo_dashboard_parcial := tiempo_dashboard_parcial st;
                  asignaciones := asignaciones st |}))
        else (Raise e, (w, st1))
    end.

Fixpoint procesar_hechas (inicio : Q) (done : batch)
    : M (World * prioridad) unit :=
  match done with
  | [] => ret tt
  | (nombre, r) :: rest =>
      procesar_tarea inicio nombre r ;;; procesar_hechas inicio rest
  end.

(** Lines 499-526: [while pendientes]. *)
Fixpoint drenar (inicio : Q) (rondas : list ronda)
    (pendientes : list endpoint) : M (World * prioridad) unit :=
  match pendientes with
  | [] => ret tt
  | _ :: _ =>
      match rondas with
      | [] => hang
      | r :: rest =>
          modify (fun s : World * prioridad =>
                    (elapse (espera r) (fst s), snd s)) ;;;
          procesar_hechas inicio (hechas r) ;;;
          drenar inicio rest (still_pending pendientes (hechas r))
      end
  end.

Definition todas_las_tareas4 : list endpoint :=
  [productos; categorias; perfil; notificaciones].

Definition prioridad_inicial : prioridad :=
  {| p_datos := fun _ => None; p_errores := []; orden_llegada := [];
     criticas_completadas := []; tiempo_dashboard_parcial := None;
     asignaciones := 0 |}.

(** The dictionary [cargar_con_prioridad] returns. *)
Record resultado_prioridad : Type := {
  criticas_completas : bool;
  r_tiempo_dashboard_parcial : option Q;
  r_datos : datos_t;
  r_errores : list (endpoint * Py.exn);
  r_orden_llegada : list endpoint
}.

Definition to_resultado (st : prioridad) : resultado_prioridad :=
  {| criticas_completas :=
       Nat.eqb (List.length (criticas_completadas st))
               (List.length tareas_criticas);
     r_tiempo_dashboard_parcial := tiempo_dashboard_parcial st;
     r_datos := p_datos st;
     r_errores := p_errores st;
     r_orden_llegada := orden_llegada st |}.

(** [cargar_con_prioridad], with the final local state next to the returned
    dictionary. *)
Definition cargar_con_prioridad (rondas : list ronda)
    : M World (resultado_prioridad * prioridad) :=
  fun w0 =>
    let '(inicio, w1) := time_time w0 in
    match drenar inicio rondas todas_las_tareas4 (w1, prioridad_inicial) with
    | (Return _, (w2, st)) => (Return (to_resultado st, st), w2)
    | (Raise e, (w2, _)) => (Raise e, w2)
    | (Hang, (w2, _)) => (Hang, w2)
    end.

End Coordinador.

(** ** smart_session.py: the session *)

Module SmartSession.

(** The recorders of [ConnectionPoolStats]. *)
Definition record_new_connection (s : ConnectionPoolStats.t)
    : ConnectionPoolStats.t :=
  {| ConnectionPoolStats.connections_created :=
       (ConnectionPoolStats.connections_created s + 1)%Z;
     ConnectionPoolStats.connections_reused :=
       ConnectionPoolStats.connections_reused s;
     ConnectionPoolStats.connections_closed :=
       ConnectionPoolStats.connections_closed s;
     ConnectionPoolStats.acquisition_times :=
       ConnectionPoolStats.acquisition_times s;
     ConnectionPoolStats._start_time := ConnectionPoolStats._start_time s |}.

Definition record_reused_connection (s : ConnectionPoolStats.t)
    : ConnectionPoolStats.t :=
  {| ConnectionPoolStats.connections_created :=
       ConnectionPoolStats.connections_created s;
     ConnectionPoolStats.connections_reused :=
       (ConnectionPoolStats.connections_reused s + 1)%Z;
     ConnectionPoolStats.connections_closed :=
       ConnectionPoolStats.connections_closed s;
     ConnectionPoolStats.acquisition_times :=
       ConnectionPoolStats.acquisition_times s;
     ConnectionPoolStats._start_time := ConnectionPoolStats._start_time s |}.

Definition record_closed_connection (s : ConnectionPoolStats.t)
    : ConnectionPoolStats.t :=
  {| ConnectionPoolStats.connections_created :=
       ConnectionPoolStats.connections_created s;
     ConnectionPoolStats.connections_reused :=
       ConnectionPoolStats.connections_reused s;
     ConnectionPoolStats.connections_closed :=
       (ConnectionPoolStats.connections_closed s + 1)%Z;
     ConnectionPoolStats.acquisition_times :=
       ConnectionPoolStats.acquisition_times s;
     ConnectionPoolStats._start_time := ConnectionPoolStats._start_time s |}.

Definition record_acquisition_time (duration : Q) (s : ConnectionPoolStats.t)
    : ConnectionPoolStats.t :=
  {| ConnectionPoolStats.connections_created :=
       ConnectionPoolStats.connections_created s;
     ConnectionPoolStats.connections_reused :=
       ConnectionPoolStats.connections_reused s;
     ConnectionPoolStats.connections_closed :=
       ConnectionPoolStats.connections_closed s;
     ConnectionPoolStats.acquisition_times :=
       ConnectionPoolStats.acquisition_times s ++ [duration];
     ConnectionPoolStats._start_time := ConnectionPoolStats._start_time s |}.

(** What [get_pool_stats] reads of aiohttp's [TCPConnector]: the
    connections in use and the idle connections kept for each host. *)
Record connector_t : Type := {
  _acquired : list nat;
  _conns : list (string * list nat)
}.

Record t : Type := {
  connector : option connector_t;     (* [None]: not a [TCPConnector] *)
  _enable_monitoring : bool;
  _health_check_interval : Q;
  _max_connections : Z;
  _max_connections_per_host : Z;
  _keepalive_timeout : Q;
  _stats : ConnectionPoolStats.t;
  _closed : bool
}.

Definition set_stats (st : ConnectionPoolStats.t) (s : t) : t :=
  {| connector := connector s;
     _enable_monitoring := _enable_monitoring s;
     _health_check_interval := _health_check_interval s;
     _max_connections := _max_connections s;
     _max_connections_per_host := _max_connections_per_host s;
     _keepalive_timeout := _keepalive_timeout s;
     _stats := st;
     _closed := _closed s |}.

Definition __init__ (max_connections max_connections_per_host : Z)
    (keepalive_timeout : Q) (enable_monitoring : bool)
    (health_check_interval : Q) (w : World) : t * World :=
  let '(st, w1) := ConnectionPoolStats.__init__ w in
  ({| connector := Some {| _acquired := []; _conns := [] |};
      _enable_monitoring := enable_monitoring;
      _health_check_interval := health_check_interval;
      _max_connections := max_connections;
      _max_connections_per_host := max_connections_per_host;
      _keepalive_timeout := keepalive_timeout;
      _stats := st;
      _closed := false |}, w1).

Definition len {A} (xs : list A) : Z := Z.of_nat (List.length xs).

Record config_t : Type := {
  max_connections : Z;
  max_per_host : Z;
  keepalive_timeout : Q
}.

Record pool_stats : Type := {
  active : Z;
  idle : Z;
  total : Z;
  waiting : Z;
  config : config_t;
  metrics : ConnectionPoolStats.dict
}.

(** [get_pool_stats]; [None] is the dictionary that only has the key
    ["error"]. *)
Definition get_pool_stats : M (World * t) (option pool_stats) :=
  s <- get ;;
  match connector (snd s) with
  | None => ret None
  | Some connector =>
      let active := len (_acquired connector) in
      let idle :=
        fold_left (fun idle conns => (idle + len (snd conns))%Z)
                  (_conns connector) 0%Z in
      let total := (active + idle)%Z in
      let waiting := Z.max 0 (active - _max_connections (snd s)) in
      m <- zoom _stats set_stats ConnectionPoolStats.to_dict ;;
      ret (Some {| active := active; idle := idle; total := total;
                   waiting := waiting;
                   config :=
                     {| max_connections := _max_connections (snd s);
                        max_per_host := _max_connections_per_host (snd s);
                        keepalive_timeout := _keepalive_timeout (snd s) |};
                   metrics := m |})
  end.

(** What a pass of the health check prints. *)
Inductive aviso : Type :=
| PoolNearExhaustion
| HighAcquisitionTime
| ManyIdleConnections
| ErrorInHealthCheck.     (* the [except Exception] clause, which ends the loop *)

(** One pass of the loop of [_run_health_check].  Without the key
    ["active"] the first test raises [KeyError], which [except Exception]
    handles. *)
Definition health_check_pass : M (World * t) (list aviso) :=
  modify (fun s : World * t =>
            (asyncio_sleep (_health_check_interval (snd s)) (fst s), snd s)) ;;;
  stats <- get_pool_stats ;;
  s <- get ;;
  match stats with
  | None => ret [ErrorInHealthCheck]
  | Some stats =>
      let limit := inject_Z (_max_connections (snd s)) in
      ret ((if Qle_bool (limit * (9 # 10)) (inject_Z (active stats))
            then [PoolNearExhaustion] else [])
           ++ (if Py.Qltb 100
                    (ConnectionPoolStats.avg_acquisition_ms (metrics stats))
               then [HighAcquisitionTime] else [])
           ++ (if Py.Qltb (limit * (1 # 2)) (inject_Z (idle stats))
                  && (active stats =? 0)%Z
               then [ManyIdleConnections] else []))
  end.

(** How [self.request(method, url)] goes: a response after [duration]
    seconds, or an exception. *)
Inductive request_outcome : Type :=
| Responds (duration : Q)
| RequestFails (e : Py.exn) (duration : Q).

(** [monitored_request], up to its [yield]: what it does to the statistics
    before the caller's block runs.  Nothing is recorded after the block. *)
Definition monitored_request (o : request_outcome) : M (World * t) unit :=
  fun s =>
    let '(start_time, w1) := time_time (fst s) in
    match o with
    | RequestFails e duration => (Raise e, (elapse duration w1, snd s))
    | Responds duration =>
        let '(t1, w2) := time_time (elapse duration w1) in
        let acquisition_time := t1 - start_time in
        let st1 := record_acquisition_time acquisition_time (_stats (snd s)) in
        let st2 :=
          if Py.Qltb acquisition_time (1 # 100)
          then record_reused_connection st1
          else record_new_connection st1 in
        (Return tt, (w2, set_stats st2 (snd s)))
    end.

End SmartSession.

(** ** The specification's token bucket *)

Module Spec.

(** "TokenBucket state": capacity, refillRate, tokens, lastRefill. *)
Record bucket : Type := {
  capacity : Q;
  refillRate : Q;
  tokens : Q;
  lastRefill : Q
}.

Inductive verdict : Type :=
| Granted (b : bucket)               (* a token was taken *)
| Suspend (sleep : Q) (b : bucket).  (* suspend for [sleep], then retry *)

(** One pass of the refill-check sequence of section 4.1, at time [now]. *)
Definition check (now : Q) (b : bucket) : verdict :=
  let elapsed := now - lastRefill b in
  let refilled := Qmin (capacity b) (tokens b + elapsed * refillRate b) in
  if Qle_bool 1 refilled then
    Granted {| capacity := capacity b; refillRate := refillRate b;
               tokens := refilled - 1; lastRefill := now |}
  else
    let deficit := 1 - refilled in
    Suspend (deficit / refillRate b)
            {| capacity := capacity b; refillRate := refillRate b;
               tokens := refilled; lastRefill := now |}.

(** [acquire()]: retry the whole check after every suspension.  The clock
    reads [now] at the first pass; after suspending for [sleep] it reads
    that much later (no later when [sleep] is not positive: a suspension
    takes no time back), plus the next of the [jitter]s.  The result lists
    the suspensions; there is none when the passes allowed run out. *)
Fixpoint acquire (jitter : list Q) (now : Q) (b : bucket)
    : option (list Q * bucket) :=
  match check now b with
  | Granted b' => Some ([], b')
  | Suspend sleep b' =>
      match jitter with
      | [] => None
      | j :: jitter' =>
          match acquire jitter' (now + Qmax 0 sleep + j) b' with
          | Some (sleeps, b'') => Some (sleep :: sleeps, b'')
          | None => None
          end
      end
  end.

End Spec.

(** ** Predicates used by the statements *)

Definition lag_nonneg (w : World) : Prop := forall n, 0 <= lag w n.

Definition in_bounds (cap : Z) (v : Q) : Prop := 0 <= v /\ v <= inject_Z cap.

(** The values assigned to [tokens], and the delays slept, most recent
    first. *)
Definition tokens_logged (tr : list event) : list Q :=
  flat_map (fun e => match e with EvTokens v => [v] | EvSleep _ => [] end) tr.

Definition sleeps_logged (tr : list event) : list Q :=
  flat_map (fun e => match e with EvSleep d => [d] | EvTokens _ => [] end) tr.

(** A bucket whose token count lies within its capacity, last refilled in
    the past, every value assigned to the count so far satisfying [P]. *)
Definition bucket_ok_with (P : Q -> Prop) (s : World * TokenBucket.t) : Prop :=
  in_bounds (TokenBucket.max_tokens (snd s)) (TokenBucket.tokens (snd s))
  /\ TokenBucket.last_refill (snd s) <= now (fst s)
  /\ Forall P (tokens_logged (trace (fst s))).

(** Successive [acquire] calls on one bucket, call [i] running
    [nth i fuels] passes at most. *)
Fixpoint acquire_many (fuels : list nat) (s : World * TokenBucket.t)
    : World * TokenBucket.t :=
  match fuels with
  | [] => s
  | fuel :: rest => acquire_many rest (snd (TokenBucket.acquire fuel s))
  end.

(** The specification's view of a bucket. *)
Definition abs (b : TokenBucket.t) : Spec.bucket :=
  {| Spec.capacity := inject_Z (TokenBucket.max_tokens b);
     Spec.refillRate := TokenBucket.tokens_per_second b;
     Spec.tokens := TokenBucket.tokens b;
     Spec.lastRefill := TokenBucket.last_refill b |}.

(** ** Definitions used by the proofs *)

Section TokenBucketDefs.

Import TokenBucket.

(** What no step of [acquire] changes. *)
Definition same_config (s s' : World * TokenBucket.t) : Prop :=
  max_tokens (snd s') = max_tokens (snd s)
  /\ tokens_per_second (snd s') = tokens_per_second (snd s)
  /\ lag (fst s') = lag (fst s).

(** The token count is at most the capacity, every value assigned to the
    count so far satisfying [P]. *)
Definition capped (P : Q -> Prop) (s : World * TokenBucket.t) : Prop :=
  tokens (snd s) <= inject_Z (max_tokens (snd s))
  /\ Forall P (tokens_logged (trace (fst s))).

End TokenBucketDefs.

Section RequestDefs.

Import ThrottledClient.

(** Step 1 of [_request] on its own: the rate limiter's [__aenter__]. *)
Definition after_rate (fuel : nat) (s : World * ThrottledClient.t)
    : result Q * (World * ThrottledClient.t) :=
  zoom rate_limiter set_rate_limiter (RateLimiter.__aenter__ fuel) s.

(** Step 3 on its own: the [try] statement. *)
Definition attempt (json_data : option string) (ex : exchange)
    : M (World * ThrottledClient.t) (option json) :=
  try_except (try_body json_data ex) handlers.

(** The exchange makes the body of [try] raise: the request itself fails,
    the status is 400 or more, or the body cannot be decoded. *)
Definition exchange_fails (ex : exchange) : bool :=
  match ex with
  | RequestRaises _ _ => true
  | Response status body _ =>
      (400 <=? status)%Z
      || (negb (status =? 204)%Z
          && match body with JsonFails _ => true | JsonBody _ => false end)
  end.

End RequestDefs.

Section ConcurrencyDefs.

Import ConcurrencyLimiter.

Definition is_inside (p : phase) : bool :=
  match p with
  | Inside => true
  | _ => false
  end.

(** How many coroutines are running their body. *)
Definition count_inside (ps : list phase) : nat :=
  List.length (filter is_inside ps).

(** The bookkeeping of a limiter built for [mc] slots and shared by the
    coroutines [ps]. *)
Definition limiter_inv (mc : Z) (s : system) : Prop :=
  max_concurrent (fst s) = mc
  /\ (0 <= semaphore (fst s))%Z
  /\ (semaphore (fst s) + _in_flight (fst s))%Z = mc
  /\ _in_flight (fst s) = Z.of_nat (count_inside (snd s)).

End ConcurrencyDefs.

Section PriorityDefs.

Import Coordinador.

(** The settlements the [while] loop gets to process: those of the rounds
    taken while tasks are pending. *)
Fixpoint procesadas (rondas : list ronda) (pendientes : list endpoint)
    : batch :=
  match pendientes with
  | [] => []
  | _ :: _ =>
      match rondas with
      | [] => []
      | r :: rest =>
          hechas r ++ procesadas rest (still_pending pendientes (hechas r))
      end
  end.

(** Task [t] settled by returning a result. *)
Definition succeeded (t : endpoint) (seen : batch) : Prop :=
  exists v, In (t, Ok v) seen.

Definition is_Some {A} (o : option A) : bool := negb (is_None o).

(** The bookkeeping of the loop after processing [seen]. *)
Definition priority_inv (seen : batch) (st : prioridad) : Prop :=
  (forall t, mem t (criticas_completadas st) = true ->
             mem t tareas_criticas = true /\ succeeded t seen)
  /\ (forall t, succeeded t seen -> mem t tareas_criticas = true ->
                mem t (criticas_completadas st) = true)
  /\ is_Some (tiempo_dashboard_parcial st)
     = set_eqb (criticas_completadas st) tareas_criticas
  /\ asignaciones st = (if is_Some (tiempo_dashboard_parcial st)
                        then 1 else 0)%nat
  /\ forall t, ~ In (t, Err Py.CancelledError) seen.

End PriorityDefs.

Section CascadeDefs.

Import Coordinador.

(** The fatal predicate of the group: an authorization failure. *)
Definition fatal (r : settlement) : bool :=
  match r with
  | Err Py.NoAutorizado => true
  | _ => false
  end.

Definition no_fatal (done : batch) : Prop :=
  forallb (fun x => negb (fatal (snd x))) done = true.

(** The [pendientes] set after the rounds [pre]. *)
Fixpoint pending_after (pre : list batch) (pendientes : list endpoint)
    : list endpoint :=
  match pre with
  | [] => pendientes
  | done :: rest => pending_after rest (still_pending pendientes done)
  end.

(** No cancellation was requested so far. *)
Definition quiet (st : cascade) : Prop :=
  canceladas_por_auth st = false /\ cancel_llamado st = [].

Definition cancelled_entry (p : endpoint) : error_entry :=
  {| err_endpoint := p;
     err_error := cancelada_por_falta_de_autenticacion;
     err_cancelada := true |}.

Definition fatal_entry (f : endpoint) : error_entry :=
  {| err_endpoint := f; err_error := str_of Py.NoAutorizado;
     err_cancelada := false |}.

(** Pending tasks are not done. *)
Definition not_done (pendientes : list endpoint) (st : cascade) : Prop :=
  forall t, In t pendientes -> mem t (terminadas st) = false.

End CascadeDefs.

Section FanOutDefs.

Import TokenBucket ThrottledClient Throttle.

Definition lag_pos (w : World) : Prop := forall n, 0 < lag w n.

(** The exchange answers with a valid product. *)
Definition exchange_ok (ex : exchange) : bool :=
  match ex with
  | Response status (JsonBody v) _ =>
      negb (400 <=? status)%Z && negb (status =? 204)%Z && is_valid_producto v
  | _ => false
  end.

(** How many of the first [n] exchanges fail. *)
Definition failures (exs : nat -> exchange) (n : nat) : nat :=
  List.length (filter (fun i => negb (exchange_ok (exs i))) (seq 0 n)).

(** A client through which a request can go: the clock advances, the bucket
    has room for a token and refills, a slot is free. *)
Definition client_ready (s : World * ThrottledClient.t) : Prop :=
  lag_pos (fst s)
  /\ (1 <= max_tokens (RateLimiter.bucket (rate_limiter (snd s))))%Z
  /\ 0 < tokens_per_second (RateLimiter.bucket (rate_limiter (snd s)))
  /\ (0 < ConcurrencyLimiter.semaphore (concurrency_limiter (snd s)))%Z.

End FanOutDefs.

(** ** Further definitions used by the proofs *)

Section ThrottleMoreDefs.

Import TokenBucket ThrottledClient.

(** The request gets past both limiters: a token is granted and a slot is
    free. *)
Definition executes (fuel : nat) (s : World * ThrottledClient.t) : Prop :=
  exists wait s1 l,
    after_rate fuel s = (Return wait, s1)
    /\ ConcurrencyLimiter.try_aenter (concurrency_limiter (snd s1)) = Some l.

(** [sum] of a list of floats. *)
Definition sum_Q (xs : list Q) : Q := fold_right Qplus 0 xs.

(** [n] acquisitions in a row, none of them allowed to sleep. *)
Fixpoint grants_at_once (n : nat) (s : World * TokenBucket.t) : bool :=
  match n with
  | O => true
  | S n' =>
      match TokenBucket.acquire 1 s with
      | (Return _, s') => grants_at_once n' s'
      | _ => false
      end
  end.

End ThrottleMoreDefs.

Section RateLimiterMoreDefs.

Import RateLimiter.

(** Entries of [async with limiter.acquire()] one after the other, the i-th
    allowed [fuels[i]] passes of the bucket's loop: the waits of the entries
    that were granted, in order, and the state reached.  An entry that is
    not granted leaves the limiter where it stopped. *)
Fixpoint aenter_many (fuels : list nat) (s : World * RateLimiter.t)
    : list Q * (World * RateLimiter.t) :=
  match fuels with
  | [] => ([], s)
  | fuel :: rest =>
      match RateLimiter.__aenter__ fuel s with
      | (Return wait, s1) =>
          let '(waits, s2) := aenter_many rest s1 in (wait :: waits, s2)
      | (_, s1) => aenter_many rest s1
      end
  end.

End RateLimiterMoreDefs.

Section CoordinadorMoreDefs.

Import Coordinador.

(** The tasks of [tareas] for which [done()] is false. *)
Definition not_done_tasks (tareas : list endpoint) (st : cascade)
    : list endpoint :=
  filter (fun t => negb (mem t (terminadas st))) tareas.

(** The failures among the settlements [seen], in order. *)
Definition failed_settlements (seen : batch) : list (endpoint * Py.exn) :=
  flat_map (fun x => match snd x with
                     | Err e => [(fst x, e)]
                     | Ok _ => []
                     end) seen.

(** [datos[t]] once the settlements [seen] are processed, [d0] being what it
    held before: what the last task named [t] that returned has returned. *)
Definition dato_de (t : endpoint) (seen : batch) (d0 : option string)
    : option string :=
  fold_left (fun acc x =>
               match snd x with
               | Ok v => if endpoint_eqb t (fst x) then v else acc
               | Err _ => acc
               end) seen d0.

(** The entries of [errores] for the failures among [seen], none of them a
    cancellation. *)
Definition error_entries (seen : batch) : list error_entry :=
  map (fun x => {| err_endpoint := fst x; err_error := str_of (snd x);
                   err_cancelada := false |})
      (failed_settlements seen).

(** The settlements the [while] loop of [cargar_dashboard_con_cancelacion]
    gets to process when no round stops it: those of the rounds taken while
    tasks are pending. *)
Fixpoint vistas (rondas : list batch) (pendientes : list endpoint) : batch :=
  match pendientes with
  | [] => []
  | _ :: _ =>
      match rondas with
      | [] => []
      | done :: rest => done ++ vistas rest (still_pending pendientes done)
      end
  end.

(** Every failure among [seen] is the [TypeError] of an [except] clause. *)
Definition only_TypeError (seen : batch) : Prop :=
  forall t e, In (t, Err e) seen -> e = Py.TypeError.

(** What the loop of [cargar_con_prioridad] has reported after processing
    [seen]. *)
Definition report_inv (seen : batch) (st : prioridad) : Prop :=
  orden_llegada st = names seen
  /\ p_errores st = failed_settlements seen
  /\ (forall t, p_datos st t = dato_de t seen None)
  /\ NoDup (criticas_completadas st).

(** The clock and the partial-dashboard time, [inicio] being the start read
    by [cargar_con_prioridad]. *)
Definition timing_inv (inicio : Q) (s : World * prioridad) : Prop :=
  lag_nonneg (fst s)
  /\ inicio <= now (fst s)
  /\ forall t, tiempo_dashboard_parcial (snd s) = Some t ->
               0 <= t /\ inicio + t <= now (fst s).

End CoordinadorMoreDefs.

Section SessionDefs.

Import SmartSession.

(** The response declares a JSON body. *)
Definition says_json (r : Verificacion.response_t) : bool :=
  Verificacion.contains "application/json"%string
    (Verificacion.headers_get_content_type r).

(** Requests made through [monitored_request] one after the other. *)
Fixpoint monitored_many (os : list request_outcome)
    (s : World * SmartSession.t) : World * SmartSession.t :=
  match os with
  | [] => s
  | o :: rest => monitored_many rest (snd (monitored_request o s))
  end.

Definition responds (o : request_outcome) : bool :=
  match o with
  | Responds _ => true
  | RequestFails _ _ => false
  end.

(** All the idle connections the connector keeps. *)
Definition idle_connections (c : connector_t) : list nat :=
  List.concat (map snd (_conns c)).

(** The bookkeeping of the statistics. *)
Definition stats_inv (st : ConnectionPoolStats.t) : Prop :=
  (ConnectionPoolStats.connections_created st
   + ConnectionPoolStats.connections_reused st
   = len (ConnectionPoolStats.acquisition_times st))%Z
  /\ (0 <= ConnectionPoolStats.connections_created st)%Z
  /\ (0 <= ConnectionPoolStats.connections_reused st)%Z
  /\ ConnectionPoolStats.connections_closed st = 0%Z
  /\ Forall (fun a => 0 <= a) (ConnectionPoolStats.acquisition_times st).

End SessionDefs.

(** * Proofs *)

(** ** Arithmetic of the Python primitives *)

Section PyFacts.

Lemma Qltb_true (a b : Q) : Py.Qltb a b = true <-> a < b.
Proof.
  unfold Py.Qltb. rewrite negb_true_iff.
  split; intro H.
  - apply Qnot_le_lt. intro Hle. apply Qle_bool_iff in Hle. congruence.
  - destruct (Qle_bool b a) eqn:E; [|reflexivity].
    apply Qle_bool_iff in E. exfalso. apply (Qlt_not_le _ _ H E).
Qed.

Lemma Qltb_false (a b : Q) : Py.Qltb a b = false <-> b <= a.
Proof.
  unfold Py.Qltb. rewrite negb_false_iff. apply Qle_bool_iff.
Qed.

Lemma Qle_bool_false (a b : Q) : Qle_bool a b = false <-> b < a.
Proof.
  rewrite <- Qltb_true. unfold Py.Qltb. now rewrite negb_true_iff.
Qed.

Lemma min_le_l (a b : Q) : Py.min a b <= a.
Proof.
  unfold Py.min. destruct (Py.Qltb b a) eqn:E.
  - apply Qltb_true in E. lra.
  - lra.
Qed.

Lemma min_le_r (a b : Q) : Py.min a b <= b.
Proof.
  unfold Py.min. destruct (Py.Qltb b a) eqn:E.
  - lra.
  - apply Qltb_false in E. lra.
Qed.

Lemma min_glb (a b c : Q) : c <= a -> c <= b -> c <= Py.min a b.
Proof.
  intros Ha Hb. unfold Py.min. now destruct (Py.Qltb b a).
Qed.

(** Python's [min] picks what the mathematical minimum picks. *)
Lemma min_is_Qmin (a b : Q) : Py.min a b = Qmin a b.
Proof.
  unfold Py.min, Qmin, GenericMinMax.gmin.
  destruct (Py.Qltb b a) eqn:E.
  - apply Qltb_true in E. apply Qgt_alt in E. now rewrite E.
  - apply Qltb_false in E.
    destruct (a ?= b) eqn:C; try reflexivity.
    apply Qgt_alt in C. lra.
Qed.

Lemma int_ge_1 (q : Q) : 1 <= q -> (1 <= Py.int q)%Z.
Proof.
  destruct q as [n d]. unfold Qle, Py.int. simpl. intro H.
  assert (Hd : (Z.pos d <= n)%Z) by lia.
  rewrite Z.quot_div_nonneg by lia.
  apply Z.div_le_lower_bound; lia.
Qed.

Lemma int_lt_1 (q : Q) : 0 < q -> q < 1 -> Py.int q = 0%Z.
Proof.
  destruct q as [n d]. unfold Qlt, Py.int. simpl. intros H0 H1.
  apply Z.quot_small. lia.
Qed.

End PyFacts.

(** ** The token bucket *)

Section TokenBucketFacts.

Import TokenBucket.

Lemma same_config_refl s : same_config s s.
Proof. now repeat split. Qed.

Lemma same_config_trans s1 s2 s3 :
  same_config s1 s2 -> same_config s2 s3 -> same_config s1 s3.
Proof.
  unfold same_config. intros (A & B & C) (D & E & F).
  repeat split; congruence.
Qed.

Lemma refill_in_bounds (t : Q) (b : TokenBucket.t) :
  (0 <= max_tokens b)%Z -> 0 <= tokens_per_second b ->
  0 <= tokens b -> last_refill b <= t ->
  in_bounds (max_tokens b) (tokens (refill t b)).
Proof.
  intros Hcap Hrate Htok Ht. unfold refill, in_bounds. cbn.
  split.
  - apply min_glb.
    + change 0 with (inject_Z 0). now rewrite <- Zle_Qle.
    + assert (0 <= (t - last_refill b) * tokens_per_second b).
      { apply Qmult_le_0_compat; lra. }
      lra.
  - apply min_le_l.
Qed.

Lemma consume_in_bounds (b : TokenBucket.t) :
  in_bounds (max_tokens b) (tokens b) -> 1 <= tokens b ->
  in_bounds (max_tokens b) (tokens (consume b)).
Proof.
  unfold in_bounds, consume. cbn. intros [H0 H1] H. split; lra.
Qed.

Lemma acquire_loop_ok (P : Q -> Prop) (fuel : nat) :
  forall (inicio_espera : Q) (s : World * TokenBucket.t),
    lag_nonneg (fst s) ->
    (0 <= max_tokens (snd s))%Z -> 0 <= tokens_per_second (snd s) ->
    (forall v, in_bounds (max_tokens (snd s)) v -> P v) ->
    bucket_ok_with P s ->
    bucket_ok_with P (snd (acquire_loop fuel inicio_espera s))
    /\ same_config s (snd (acquire_loop fuel inicio_espera s)).
Proof.
  induction fuel as [|fuel IH]; intros inicio [w b] Hlag Hcap Hrate HP Hok.
  - split; [exact Hok | apply same_config_refl].
  - destruct Hok as (Hb & Hlast & Hlog). cbn [fst snd] in *.
    pose proof (Hlag (tick w)) as Hl.
    set (t := (now w + lag w (tick w))%Q).
    assert (Ht : last_refill b <= t) by (unfold t; lra).
    pose proof (refill_in_bounds t b Hcap Hrate (proj1 Hb) Ht) as Hr.
    cbn [acquire_loop time_time fst snd]. fold t.
    destruct (Qle_bool 1 (tokens (refill t b))) eqn:E.
    + apply Qle_bool_iff in E.
      pose proof (consume_in_bounds (refill t b) Hr E) as Hc.
      unfold bucket_ok_with, same_config. cbn [fst snd time_time log].
      split; [|now repeat split].
      split; [exact Hc|]. split.
      * cbn. pose proof (Hlag (S (tick w))). lra.
      * cbn [trace tokens_logged flat_map app].
        constructor; [apply HP; exact Hc|].
        constructor; [apply HP; exact Hr | exact Hlog].
    + destruct (Qeq_bool (tokens_per_second (refill t b)) 0) eqn:Z.
      * unfold bucket_ok_with, same_config. cbn [fst snd log].
        split; [|now repeat split].
        split; [exact Hr|]. split.
        -- cbn. lra.
        -- cbn [trace tokens_logged flat_map app].
           constructor; [apply HP; exact Hr | exact Hlog].
      * match goal with
        | |- context [acquire_loop fuel inicio ?s'] =>
            destruct (IH inicio s') as [IH1 IH2]
        end.
        -- exact Hlag.
        -- exact Hcap.
        -- exact Hrate.
        -- exact HP.
        -- unfold bucket_ok_with. cbn [fst snd].
           split; [exact Hr|]. split.
           ++ cbn. destruct (Py.Qltb 0 _) eqn:Pd.
              ** apply Qltb_true in Pd. lra.
              ** lra.
           ++ cbn [asyncio_sleep elapse log trace tokens_logged flat_map app].
              constructor; [apply HP; exact Hr | exact Hlog].
        -- split; [exact IH1|].
           eapply same_config_trans; [|exact IH2]. now repeat split.
Qed.

Lemma acquire_ok (P : Q -> Prop) (fuel : nat) (s : World * TokenBucket.t) :
  lag_nonneg (fst s) ->
  (0 <= max_tokens (snd s))%Z -> 0 <= tokens_per_second (snd s) ->
  (forall v, in_bounds (max_tokens (snd s)) v -> P v) ->
  bucket_ok_with P s ->
  bucket_ok_with P (snd (acquire fuel s))
  /\ same_config s (snd (acquire fuel s)).
Proof.
  intros Hlag Hcap Hrate HP (Hb & Hlast & Hlog). destruct s as [w b].
  unfold acquire. cbn [time_time fst snd] in *.
  match goal with
  | |- context [acquire_loop fuel ?i ?s'] =>
      destruct (acquire_loop_ok P fuel i s') as [A B]
  end; try assumption.
  - repeat split; try apply Hb; try exact Hlog.
    cbn. pose proof (Hlag (tick w)). lra.
  - split; [exact A|].
    eapply same_config_trans; [|exact B]. now repeat split.
Qed.

Lemma post_init_ok (P : Q -> Prop) (cap : Z) (rate : Q) (w : World) :
  (0 <= cap)%Z ->
  (forall v, in_bounds cap v -> P v) ->
  Forall P (tokens_logged (trace w)) ->
  let s := (snd (__post_init__ cap rate w), fst (__post_init__ cap rate w)) in
  bucket_ok_with P s /\ max_tokens (snd s) = cap
  /\ tokens_per_second (snd s) = rate /\ lag (fst s) = lag w.
Proof.
  intros Hcap HP Hlog.
  assert (Hin : in_bounds cap (inject_Z cap)).
  { split; [|lra]. change 0 with (inject_Z 0). now rewrite <- Zle_Qle. }
  unfold bucket_ok_with. cbn [__post_init__ time_time log fst snd max_tokens
    tokens tokens_per_second last_refill now lag trace].
  split; [|now repeat split].
  split; [exact Hin|]. split; [lra|].
  cbn [tokens_logged flat_map app]. constructor; [now apply HP | assumption].
Qed.

Lemma acquire_many_ok (P : Q -> Prop) (fuels : list nat) :
  forall s : World * TokenBucket.t,
    lag_nonneg (fst s) ->
    (0 <= max_tokens (snd s))%Z -> 0 <= tokens_per_second (snd s) ->
    (forall v, in_bounds (max_tokens (snd s)) v -> P v) ->
    bucket_ok_with P s ->
    bucket_ok_with P (acquire_many fuels s)
    /\ same_config s (acquire_many fuels s).
Proof.
  induction fuels as [|fuel rest IH]; intros s Hlag Hcap Hrate HP Hok.
  - split; [exact Hok | apply same_config_refl].
  - cbn [acquire_many].
    destruct (acquire_ok P fuel s Hlag Hcap Hrate HP Hok)
      as [A (B & C & D)].
    destruct (IH (snd (acquire fuel s))) as [E F]; try assumption.
    + unfold lag_nonneg. now rewrite D.
    + now rewrite B.
    + now rewrite C.
    + now rewrite B.
    + split; [exact E|].
      eapply same_config_trans; [|exact F]. now repeat split.
Qed.

(** The upper bound needs nothing of the bucket or of the clock. *)
Lemma acquire_loop_capped (P : Q -> Prop) (fuel : nat) :
  forall (inicio_espera : Q) (s : World * TokenBucket.t),
    (forall v, v <= inject_Z (max_tokens (snd s)) -> P v) ->
    capped P s ->
    capped P (snd (acquire_loop fuel inicio_espera s))
    /\ same_config s (snd (acquire_loop fuel inicio_espera s)).
Proof.
  induction fuel as [|fuel IH]; intros inicio [w b] HP [Hb Hlog].
  - split; [now split | apply same_config_refl].
  - cbn [fst snd] in *.
    cbn [acquire_loop time_time fst snd].
    set (t := (now w + lag w (tick w))%Q).
    assert (Hr : tokens (refill t b) <= inject_Z (max_tokens b))
      by (unfold refill; cbn; apply min_le_l).
    destruct (Qle_bool 1 (tokens (refill t b))) eqn:E.
    + unfold capped, same_config. cbn [fst snd time_time log].
      split; [|now repeat split].
      assert (Hc : tokens (consume (refill t b)) <= inject_Z (max_tokens b))
        by (unfold consume; cbn [tokens set_tokens]; lra).
      split; [exact Hc|].
      cbn [trace tokens_logged flat_map app].
      constructor; [apply HP; exact Hc|].
      constructor; [apply HP; exact Hr | exact Hlog].
    + destruct (Qeq_bool (tokens_per_second (refill t b)) 0) eqn:Z.
      * unfold capped, same_config. cbn [fst snd log].
        split; [|now repeat split].
        split; [exact Hr|].
        cbn [trace tokens_logged flat_map app].
        constructor; [apply HP; exact Hr | exact Hlog].
      * match goal with
        | |- context [acquire_loop fuel inicio ?s'] =>
            destruct (IH inicio s') as [IH1 IH2]
        end.
        -- exact HP.
        -- unfold capped. cbn [fst snd].
           split; [exact Hr|].
           cbn [asyncio_sleep elapse log trace tokens_logged flat_map app].
           constructor; [apply HP; exact Hr | exact Hlog].
        -- split; [exact IH1|].
           eapply same_config_trans; [|exact IH2]. now repeat split.
Qed.

Lemma acquire_capped (P : Q -> Prop) (fuel : nat)
    (s : World * TokenBucket.t) :
  (forall v, v <= inject_Z (max_tokens (snd s)) -> P v) ->
  capped P s ->
  capped P (snd (acquire fuel s)) /\ same_config s (snd (acquire fuel s)).
Proof.
  intros HP [Hb Hlog]. destruct s as [w b].
  unfold acquire. cbn [time_time fst snd] in *.
  match goal with
  | |- context [acquire_loop fuel ?i ?s'] =>
      destruct (acquire_loop_capped P fuel i s') as [A B]
  end.
  - exact HP.
  - split; assumption.
  - split; [exact A|].
    eapply same_config_trans; [|exact B]. now repeat split.
Qed.

Lemma acquire_many_capped (P : Q -> Prop) (fuels : list nat) :
  forall s : World * TokenBucket.t,
    (forall v, v <= inject_Z (max_tokens (snd s)) -> P v) ->
    capped P s ->
    capped P (acquire_many fuels s) /\ same_config s (acquire_many fuels s).
Proof.
  induction fuels as [|fuel rest IH]; intros s HP Hok.
  - split; [exact Hok | apply same_config_refl].
  - cbn [acquire_many].
    destruct (acquire_capped P fuel s HP Hok) as [A B].
    destruct (IH (snd (acquire fuel s))) as [E F]; [|exact A|].
    + destruct B as (B & _). now rewrite B.
    + split; [exact E|]. eapply same_config_trans; eassumption.
Qed.

Lemma post_init_capped (P : Q -> Prop) (cap : Z) (rate : Q) (w : World) :
  (forall v, v <= inject_Z cap -> P v) ->
  Forall P (tokens_logged (trace w)) ->
  let s := (snd (__post_init__ cap rate w), fst (__post_init__ cap rate w)) in
  capped P s /\ max_tokens (snd s) = cap
  /\ tokens_per_second (snd s) = rate /\ lag (fst s) = lag w.
Proof.
  intros HP Hlog. unfold capped.
  cbn [__post_init__ time_time log fst snd max_tokens tokens
    tokens_per_second last_refill now lag trace].
  split; [|now repeat split].
  split; [lra|].
  cbn [tokens_logged flat_map app]. constructor; [apply HP; lra | exact Hlog].
Qed.

(** A bucket without room for one token never grants one. *)
Lemma acquire_loop_hangs (fuel : nat) :
  forall (inicio_espera : Q) (s : World * TokenBucket.t),
    (max_tokens (snd s) <= 0)%Z -> 0 < tokens_per_second (snd s) ->
    fst (acquire_loop fuel inicio_espera s) = Hang.
Proof.
  induction fuel as [|fuel IH]; intros inicio [w b] Hcap Hrate.
  - reflexivity.
  - cbn [acquire_loop time_time fst snd] in *.
    set (t := (now w + lag w (tick w))%Q).
    assert (Hlt : tokens (refill t b) < 1).
    { pose proof (min_le_l (inject_Z (max_tokens b))
                    (tokens b + (t - last_refill b) * tokens_per_second b)).
      assert (inject_Z (max_tokens b) <= inject_Z 0)
        by now rewrite <- Zle_Qle.
      unfold refill. cbn. change (inject_Z 0) with 0 in *. lra. }
    apply Qle_bool_false in Hlt. rewrite Hlt.
    assert (Hz : Qeq_bool (tokens_per_second (refill t b)) 0 = false).
    { destruct (Qeq_bool _ 0) eqn:Z; [|reflexivity].
      apply Qeq_bool_iff in Z. cbn in Z. lra. }
    rewrite Hz. apply IH; assumption.
Qed.

Lemma acquire_hangs (fuel : nat) (s : World * TokenBucket.t) :
  (max_tokens (snd s) <= 0)%Z -> 0 < tokens_per_second (snd s) ->
  fst (acquire fuel s) = Hang.
Proof.
  intros Hcap Hrate. destruct s as [w b]. unfold acquire.
  cbn [time_time fst snd]. now apply acquire_loop_hangs.
Qed.

End TokenBucketFacts.




(** ** [acquire] against the specification's algorithm *)

Section AcquireRefinement.

Import TokenBucket.

Lemma sleep_positive (tok rate : Q) :
  tok < 1 -> 0 < rate -> 0 < (1 - tok) / rate.
Proof.
  intros Ht Hr. apply Qlt_shift_div_l; [exact Hr | lra].
Qed.

(** One pass of the loop body decides as [Spec.check] does. *)
Lemma refill_abs (t : Q) (b : TokenBucket.t) :
  tokens (refill t b)
  = Qmin (Spec.capacity (abs b))
         (Spec.tokens (abs b)
          + (t - Spec.lastRefill (abs b)) * Spec.refillRate (abs b)).
Proof. unfold refill. cbn. apply min_is_Qmin. Qed.

Lemma check_abs (t : Q) (b : TokenBucket.t) :
  Spec.check t (abs b)
  = if Qle_bool 1 (tokens (refill t b))
    then Spec.Granted (abs (consume (refill t b)))
    else Spec.Suspend
           ((1 - tokens (refill t b)) / tokens_per_second (refill t b))
           (abs (refill t b)).
Proof.
  unfold Spec.check. cbv zeta. rewrite <- (refill_abs t b).
  destruct (Qle_bool 1 (tokens (refill t b))); reflexivity.
Qed.

(** Time spent suspended, as the specification counts it. *)
Lemma elapsed_is_Qmax (d : Q) : (if Py.Qltb 0 d then d else 0) = Qmax 0 d.
Proof.
  unfold Qmax, GenericMinMax.gmax.
  destruct (0 ?= d) eqn:C.
  - apply Qeq_alt in C.
    assert (E : Py.Qltb 0 d = false) by (apply Qltb_false; lra).
    now rewrite E.
  - apply Qlt_alt in C. apply Qltb_true in C. now rewrite C.
  - apply Qgt_alt in C.
    assert (E : Py.Qltb 0 d = false) by (apply Qltb_false; lra).
    now rewrite E.
Qed.

Lemma acquire_loop_refines (n : nat) :
  forall (inicio_espera : Q) (w : World) (b : TokenBucket.t),
    ~ tokens_per_second b == 0 ->
    match Spec.acquire (map (lag w) (seq (S (tick w)) n))
                       (now w + lag w (tick w)) (abs b) with
    | Some (sleeps, sb) =>
        exists w' b',
          acquire_loop (S n) inicio_espera (w, b)
          = (Return (now w' - inicio_espera), (w', b'))
          /\ abs b' = sb
          /\ sleeps_logged (trace w')
             = rev sleeps ++ sleeps_logged (trace w)
          /\ (sleeps = [] ->
              now w' = now w + lag w (tick w) + lag w (S (tick w)))
    | None => fst (acquire_loop (S n) inicio_espera (w, b)) = Hang
    end.
Proof.
  induction n as [|n IH]; intros inicio w b Hrate;
    cbn [map seq Spec.acquire];
    cbn [acquire_loop time_time fst snd];
    set (t := (now w + lag w (tick w))%Q);
    rewrite (check_abs t b);
    destruct (Qle_bool 1 (tokens (refill t b))) eqn:E;
    try (match goal with
         | |- exists w' b', (_, (?W, ?B)) = _ /\ _ => exists W, B
         end;
         split; [reflexivity|];
         split; [|split]; [reflexivity | reflexivity | intros _; reflexivity]);
    assert (Hz : Qeq_bool (tokens_per_second (refill t b)) 0 = false)
      by (destruct (Qeq_bool _ 0) eqn:Z; [|reflexivity];
          apply Qeq_bool_iff in Z; cbn in Z; now elim Hrate);
    rewrite Hz.
  - reflexivity.
  - set (d := (1 - tokens (refill t b)) / tokens_per_second (refill t b)).
    set (w2 := asyncio_sleep d
                 (log (EvTokens (tokens (refill t b)))
                    {| now := t; lag := lag w; tick := S (tick w);
                       trace := trace w |})).
    specialize (IH inicio w2 (refill t b) Hrate).
    assert (Hnow : now w2 = t + Qmax 0 d).
    { unfold w2, asyncio_sleep, elapse. cbn [now log].
      now rewrite elapsed_is_Qmax. }
    change (lag w2) with (lag w) in IH.
    change (tick w2) with (S (tick w)) in IH.
    rewrite Hnow in IH.
    destruct (Spec.acquire _ (t + Qmax 0 d + lag w (S (tick w)))
                (abs (refill t b))) as [[sleeps sb]|].
    + destruct IH as (w' & b' & Hrun & Habs & Hlog & _).
      exists w', b'. split; [exact Hrun|]. split; [exact Habs|].
      split; [|discriminate].
      rewrite Hlog. cbn [rev]. rewrite <- app_assoc. reflexivity.
    + exact IH.
Qed.

(** At rate 0 the first pass decides: a token, or the division fails. *)
Lemma acquire_loop_zero_rate (n : nat) (inicio_espera : Q) (w : World)
    (b : TokenBucket.t) :
  tokens_per_second b == 0 ->
  match Spec.check (now w + lag w (tick w)) (abs b) with
  | Spec.Granted sb =>
      exists w' b',
        acquire_loop (S n) inicio_espera (w, b)
        = (Return (now w' - inicio_espera), (w', b'))
        /\ abs b' = sb
        /\ sleeps_logged (trace w') = sleeps_logged (trace w)
  | Spec.Suspend _ sb =>
      exists w' b',
        acquire_loop (S n) inicio_espera (w, b)
        = (Raise Py.ZeroDivisionError, (w', b'))
        /\ abs b' = sb
        /\ sleeps_logged (trace w') = sleeps_logged (trace w)
  end.
Proof.
  intro Hrate. cbn [acquire_loop time_time fst snd].
  set (t := (now w + lag w (tick w))%Q).
  rewrite (check_abs t b).
  destruct (Qle_bool 1 (tokens (refill t b))) eqn:E.
  - match goal with
    | |- exists w' b', (_, (?W, ?B)) = _ /\ _ => exists W, B
    end.
    split; [reflexivity|]. split; reflexivity.
  - assert (Hz : Qeq_bool (tokens_per_second (refill t b)) 0 = true)
      by (apply Qeq_bool_iff; exact Hrate).
    rewrite Hz. eexists. eexists. split; [reflexivity|]. split; reflexivity.
Qed.

End AcquireRefinement.

(** C3 as stated fails in two places.  The wait is measured, not 0 by
    construction: a full bucket grants at the first pass, nothing is slept,
    and yet under a clock that gains a millisecond between two reads the wait
    returned is two milliseconds, the time between the read at entry and the
    read at return.  And at refill rate 0 an empty bucket does not sleep and
    retry: the division deficit / refillRate raises [ZeroDivisionError]. *)
Lemma acquire_departs_from_the_algorithm :
  (let w := {| now := 10; lag := fun _ => 1 # 1000; tick := 0; trace := [] |} in
   let b := {| TokenBucket.max_tokens := 2; TokenBucket.tokens_per_second := 2;
               TokenBucket.tokens := 2; TokenBucket.last_refill := 10 |} in
   exists wait s',
     TokenBucket.acquire 1 (w, b) = (Return wait, s')
     /\ sleeps_logged (trace (fst s')) = []
     /\ wait == 2 # 1000
     /\ ~ wait == 0)
  /\ (let w := {| now := 10; lag := fun _ => 1 # 1000; tick := 0;
                  trace := [] |} in
      let b := {| TokenBucket.max_tokens := 2;
                  TokenBucket.tokens_per_second := 0;
                  TokenBucket.tokens := 0; TokenBucket.last_refill := 10 |} in
      forall fuel,
        fst (TokenBucket.acquire (S fuel) (w, b)) = Raise Py.ZeroDivisionError
        /\ sleeps_logged
             (trace (fst (snd (TokenBucket.acquire (S fuel) (w, b))))) = []).
Proof.
  split.
  - cbv zeta. eexists. eexists. split; [vm_compute; reflexivity|].
    split; [reflexivity|]. split; [reflexivity|]. discriminate.
  - cbv zeta. intro fuel. split; reflexivity.
Qed.

(** C3, amended.  [TokenBucket.acquire] runs the algorithm of section 4.1 for
    every refill rate other than 0: fed the clock readings the code sees,
    [Spec.acquire] ends in the same bucket after the same suspensions, each of
    deficit / refillRate; both keep retrying as long as no token is there.
    The wait returned is the clock time between entry and return; it is 0
    when no suspension occurred and the clock did not move meanwhile.  At
    rate 0 the first pass is that of the algorithm and is the last: a token
    is granted, or [ZeroDivisionError] is raised with nothing slept. *)
Theorem acquire_follows_spec (n : nat) (w : World) (b : TokenBucket.t) :
  let entry := now w + lag w (tick w) in
  let first_pass := entry + lag w (S (tick w)) in
  let jitter := map (lag w) (seq (S (S (tick w))) n) in
  (~ TokenBucket.tokens_per_second b == 0 ->
   match Spec.acquire jitter first_pass (abs b) with
   | Some (sleeps, sb) =>
       exists wait w' b',
         TokenBucket.acquire (S n) (w, b) = (Return wait, (w', b'))
         /\ abs b' = sb
         /\ sleeps_logged (trace w') = rev sleeps ++ sleeps_logged (trace w)
         /\ wait = now w' - entry
         /\ (sleeps = [] ->
             lag w (S (tick w)) == 0 -> lag w (S (S (tick w))) == 0 ->
             wait == 0)
   | None => fst (TokenBucket.acquire (S n) (w, b)) = Hang
   end)
  /\ (TokenBucket.tokens_per_second b == 0 ->
      match Spec.check first_pass (abs b) with
      | Spec.Granted sb =>
          exists wait w' b',
            TokenBucket.acquire (S n) (w, b) = (Return wait, (w', b'))
            /\ abs b' = sb
            /\ sleeps_logged (trace w') = sleeps_logged (trace w)
            /\ wait = now w' - entry
      | Spec.Suspend _ sb =>
          exists w' b',
            TokenBucket.acquire (S n) (w, b)
            = (Raise Py.ZeroDivisionError, (w', b'))
            /\ abs b' = sb
            /\ sleeps_logged (trace w') = sleeps_logged (trace w)
      end).
Proof.
  intros entry first_pass jitter.
  unfold TokenBucket.acquire. cbn [time_time fst snd]. fold entry.
  set (w1 := {| now := entry; lag := lag w; tick := S (tick w);
                trace := trace w |}).
  split; intro Hrate.
  - pose proof (acquire_loop_refines n entry w1 b Hrate) as H.
    cbn [w1 now lag tick trace] in H. fold first_pass in H. fold jitter in H.
    destruct (Spec.acquire jitter first_pass (abs b)) as [[sleeps sb]|].
    + destruct H as (w' & b' & Hrun & Habs & Hlog & Hnow).
      exists (now w' - entry), w', b'.
      repeat split; try assumption.
      intros Hs H1 H2. rewrite (Hnow Hs). unfold first_pass. lra.
    + exact H.
  - pose proof (acquire_loop_zero_rate n entry w1 b Hrate) as H.
    cbn [w1 now lag tick trace] in H. fold first_pass in H.
    destruct (Spec.check first_pass (abs b)) as [sb | sleep sb].
    + destruct H as (w' & b' & Hrun & Habs & Hlog).
      exists (now w' - entry), w', b'. now repeat split.
    + exact H.
Qed.

(** A full bucket grants at once, with wait 0 under a still clock. *)
Lemma acquire_follows_spec_witness :
  let w := {| now := 10; lag := fun _ => 0; tick := 0; trace := [] |} in
  let b := {| TokenBucket.max_tokens := 2; TokenBucket.tokens_per_second := 2;
              TokenBucket.tokens := 2; TokenBucket.last_refill := 10 |} in
  exists wait w' b',
    TokenBucket.acquire 1 (w, b) = (Return wait, (w', b'))
    /\ TokenBucket.tokens b' == 1
    /\ sleeps_logged (trace w') = []
    /\ wait == 0.
Proof.
  intros w b.
  assert (Hrate : ~ TokenBucket.tokens_per_second b == 0)
    by (cbn; intro H; discriminate H).
  pose proof (proj1 (acquire_follows_spec 0 w b) Hrate) as H.
  cbv zeta in H.
  destruct (Spec.acquire _ _ (abs b)) as [[sleeps sb]|] eqn:E.
  - destruct H as (wait & w' & b' & Hrun & Habs & Hlog & Hwait & Hzero).
    vm_compute in E. injection E as Hs Hb.
    exists wait, w', b'. split; [exact Hrun|].
    split; [|split].
    + rewrite <- Hb in Habs.
      change (TokenBucket.tokens b') with (Spec.tokens (abs b')).
      rewrite Habs. reflexivity.
    + rewrite Hlog, <- Hs. reflexivity.
    + apply Hzero; [now rewrite <- Hs | reflexivity | reflexivity].
  - vm_compute in E. discriminate.
Defined.

(** ** The throttled request *)

Section RequestFacts.

Import ThrottledClient.

(** Whatever the exception, the clauses answer with [TypeError]. *)
Lemma handlers_TypeError (e : Py.exn) :
  handlers e = Some (raise Py.TypeError).
Proof. reflexivity. Qed.

Ltac run :=
  unfold attempt, try_except, try_body, session_request;
  change handlers
    with (fun _ : Py.exn =>
            Some (@raise (World * ThrottledClient.t) (option json)
                    Py.TypeError));
  unfold update_metrics, suspend, bind, modify, raise, ret;
  cbn [fst snd].

(** The [try] statement touches the metrics and the clock only, and always
    finishes. *)
Lemma attempt_frame (json_data : option string) (ex : exchange)
    (s : World * ThrottledClient.t) :
  let r := attempt json_data ex s in
  rate_limiter (snd (snd r)) = rate_limiter (snd s)
  /\ concurrency_limiter (snd (snd r)) = concurrency_limiter (snd s)
  /\ lag (fst (snd r)) = lag (fst s)
  /\ tick (fst (snd r)) = tick (fst s)
  /\ fst r <> Hang.
Proof.
  destruct s as [w c]. run.
  destruct json_data as [d|], ex as [e dur | status body dur]; cbn [fst snd].
  1, 3: destruct e; cbn; repeat split; discriminate.
  all: destruct (500 <=? status)%Z; [cbn; repeat split; discriminate|];
    destruct (400 <=? status)%Z; [cbn; repeat split; discriminate|];
    destruct (status =? 204)%Z; [cbn; repeat split; discriminate|];
    destruct body as [v|e]; [cbn; repeat split; discriminate|];
    destruct e; cbn; repeat split; discriminate.
Qed.

(** [_request], step by step. *)
Lemma request_cases (fuel : nat) (json_data : option string)
    (ex : exchange) (s : World * ThrottledClient.t) :
  match after_rate fuel s with
  | (Return _, s1) =>
      match ConcurrencyLimiter.try_aenter (concurrency_limiter (snd s1)) with
      | Some l =>
          let r := attempt json_data ex
                     (fst s1, set_concurrency_limiter l (snd s1)) in
          _request fuel json_data ex s
          = (fst r,
             (fst (snd r),
              set_concurrency_limiter
                (fst (ConcurrencyLimiter.aexit None
                        (concurrency_limiter (snd (snd r)))))
                (snd (snd r))))
      | None => _request fuel json_data ex s = (Hang, s1)
      end
  | (Raise e, s1) => _request fuel json_data ex s = (Raise e, s1)
  | (Hang, s1) => _request fuel json_data ex s = (Hang, s1)
  end.
Proof.
  unfold _request.
  change (zoom rate_limiter set_rate_limiter (RateLimiter.__aenter__ fuel))
    with (after_rate fuel).
  change (try_except (try_body json_data ex) handlers)
    with (attempt json_data ex).
  unfold bind, async_with, ret, zoom, ConcurrencyLimiter.__aenter__,
    ConcurrencyLimiter.__aexit__, RateLimiter.__aexit__.
  destruct (after_rate fuel s) as [[wait|e|] [w1 c1]]; try reflexivity.
  cbn [fst snd].
  destruct (ConcurrencyLimiter.try_aenter (concurrency_limiter c1))
    as [l|]; [|destruct c1; reflexivity].
  cbv zeta.
  pose proof (attempt_frame json_data ex
                (w1, set_concurrency_limiter l c1)) as F.
  cbv zeta in F. destruct F as (_ & _ & _ & _ & F).
  destruct (attempt json_data ex (w1, set_concurrency_limiter l c1))
    as [[v|e|] [w3 c3]]; cbn [fst snd] in *.
  - reflexivity.
  - reflexivity.
  - now elim F.
Qed.

Lemma after_rate_frame (fuel : nat) (s : World * ThrottledClient.t) :
  metrics (snd (snd (after_rate fuel s))) = metrics (snd s)
  /\ concurrency_limiter (snd (snd (after_rate fuel s)))
     = concurrency_limiter (snd s).
Proof.
  unfold after_rate, zoom.
  destruct (RateLimiter.__aenter__ fuel (fst s, rate_limiter (snd s)))
    as [r [w1 rl1]].
  now split.
Qed.

Lemma request_rate_limiter (fuel : nat) (json_data : option string)
    (ex : exchange) (s : World * ThrottledClient.t) :
  rate_limiter (snd (snd (_request fuel json_data ex s)))
  = rate_limiter (snd (snd (after_rate fuel s))).
Proof.
  pose proof (request_cases fuel json_data ex s) as H.
  destruct (after_rate fuel s) as [[wait|e|] s1];
    try (now rewrite H).
  destruct (ConcurrencyLimiter.try_aenter (concurrency_limiter (snd s1)))
    as [l|]; [|now rewrite H].
  cbv zeta in H. rewrite H. cbn [fst snd set_concurrency_limiter rate_limiter].
  pose proof (attempt_frame json_data ex
                (fst s1, set_concurrency_limiter l (snd s1))) as F.
  cbv zeta in F. destruct F as (F & _). exact F.
Qed.

(** What a failing exchange does: the exception becomes [TypeError], the
    request is counted, and neither outcome counter moves. *)
Lemma attempt_failure (json_data : option string) (ex : exchange)
    (s : World * ThrottledClient.t) :
  exchange_fails ex = true ->
  let r := attempt json_data ex s in
  fst r = Raise Py.TypeError
  /\ total_requests (metrics (snd (snd r)))
     = (total_requests (metrics (snd s)) + 1)%Z
  /\ failed_requests (metrics (snd (snd r)))
     = failed_requests (metrics (snd s))
  /\ successful_requests (metrics (snd (snd r)))
     = successful_requests (metrics (snd s)).
Proof.
  intro H. destruct s as [w c]. run.
  destruct ex as [e dur | status body dur]; cbn [exchange_fails] in H.
  - destruct json_data as [d|]; cbn; now repeat split.
  - destruct json_data as [d|]; cbn [fst snd];
      (destruct (500 <=? status)%Z eqn:E5; [cbn; now repeat split|]);
      (destruct (400 <=? status)%Z eqn:E4; [cbn; now repeat split|]);
      cbn [orb] in H;
      (destruct (status =? 204)%Z; [discriminate H|]);
      (destruct body as [v|e]; [discriminate H|]);
      cbn; now repeat split.
Qed.

End RequestFacts.

(** C7.  Whatever the exchange does, the rate limiter, token count included,
    is after [_request] what the acquisition of step 1 left: a failing
    execution leaves the bucket exactly as a successful one does. *)
Theorem token_never_refunded (fuel : nat) (json_data : option string)
    (failing succeeding : ThrottledClient.exchange)
    (s : World * ThrottledClient.t) :
  let after_failure :=
    snd (snd (ThrottledClient._request fuel json_data failing s)) in
  let after_success :=
    snd (snd (ThrottledClient._request fuel json_data succeeding s)) in
  let acquired := snd (snd (after_rate fuel s)) in
  ThrottledClient.rate_limiter after_failure
  = ThrottledClient.rate_limiter acquired
  /\ TokenBucket.tokens
       (RateLimiter.bucket (ThrottledClient.rate_limiter after_failure))
     = TokenBucket.tokens
         (RateLimiter.bucket (ThrottledClient.rate_limiter after_success)).
Proof.
  cbv zeta. rewrite !request_rate_limiter. split; reflexivity.
Qed.

(** C6 (as the code behaves).  A request that reaches execution and fails,
    whatever the failure (the request itself raises, as a timeout or a
    connection error does, the status is 400 or more, or the body cannot be
    decoded), ends with [TypeError], with [total_requests] counted and
    neither [failed_requests] nor [successful_requests] changed. *)
Theorem failures_not_counted (fuel : nat) (json_data : option string)
    (ex : ThrottledClient.exchange) (wait : Q)
    (s s1 : World * ThrottledClient.t) (l : ConcurrencyLimiter.t) :
  after_rate fuel s = (Return wait, s1) ->
  ConcurrencyLimiter.try_aenter (ThrottledClient.concurrency_limiter (snd s1))
  = Some l ->
  exchange_fails ex = true ->
  let r := ThrottledClient._request fuel json_data ex s in
  let before := ThrottledClient.metrics (snd s) in
  let after := ThrottledClient.metrics (snd (snd r)) in
  fst r = Raise Py.TypeError
  /\ ThrottledClient.total_requests after
     = (ThrottledClient.total_requests before + 1)%Z
  /\ ThrottledClient.failed_requests after
     = ThrottledClient.failed_requests before
  /\ ThrottledClient.successful_requests after
     = ThrottledClient.successful_requests before.
Proof.
  intros Hrate Hsem Hfails.
  pose proof (request_cases fuel json_data ex s) as H.
  pose proof (after_rate_frame fuel s) as [Hm _].
  rewrite Hrate in H, Hm. rewrite Hsem in H. cbv zeta in H |- *.
  rewrite H. cbn [fst snd].
  pose proof (attempt_failure json_data ex
                (fst s1, ThrottledClient.set_concurrency_limiter l (snd s1))
                Hfails) as A.
  cbv zeta in A. cbn [fst snd] in A, Hm.
  destruct A as (A1 & A2 & A3 & A4).
  cbn [ThrottledClient.set_concurrency_limiter ThrottledClient.metrics] in *.
  rewrite Hm in A2, A3, A4. now repeat split.
Qed.

(** A fresh client (10 slots, 20 requests per second) whose first request is
    answered 500: the call ends with [TypeError], one request in total, none
    failed, none successful. *)
Lemma failures_not_counted_witness :
  let w := {| now := 0; lag := fun _ => 0; tick := 0; trace := [] |} in
  exists c w1,
    ThrottledClient.__init__ 10 20 w = (Return c, w1)
    /\ let r := ThrottledClient._request 2 None
                  (ThrottledClient.Response 500
                     (ThrottledClient.JsonFails Py.ContentTypeError) (1 # 10))
                  (w1, c) in
       fst r = Raise Py.TypeError
       /\ ThrottledClient.total_requests
            (ThrottledClient.metrics (snd (snd r))) = 1%Z
       /\ ThrottledClient.failed_requests
            (ThrottledClient.metrics (snd (snd r))) = 0%Z
       /\ ThrottledClient.successful_requests
            (ThrottledClient.metrics (snd (snd r))) = 0%Z.
Proof.
  intro w.
  destruct (ThrottledClient.__init__ 10 20 w) as [[c| |] w1] eqn:E;
    try (vm_compute in E; discriminate).
  exists c, w1. split; [reflexivity|].
  assert (Hc : (Return c, w1) = ThrottledClient.__init__ 10 20 w)
    by (now rewrite E).
  vm_compute in Hc. injection Hc as Hc Hw. subst c w1.
  eapply (failures_not_counted 2 None
            (ThrottledClient.Response 500
               (ThrottledClient.JsonFails Py.ContentTypeError) (1 # 10))).
  - vm_compute. reflexivity.
  - vm_compute. reflexivity.
  - reflexivity.
Defined.

(** ** Rates below one request per second *)

Section SlowRate.

Import ThrottledClient.

Lemma after_rate_hangs (fuel : nat) (s : World * ThrottledClient.t) :
  fst (TokenBucket.acquire fuel
         (fst s, RateLimiter.bucket (rate_limiter (snd s)))) = Hang ->
  fst (after_rate fuel s) = Hang.
Proof.
  unfold after_rate, zoom, RateLimiter.__aenter__, bind, zoom.
  cbn [fst snd].
  destruct (TokenBucket.acquire fuel
              (fst s, RateLimiter.bucket (rate_limiter (snd s))))
    as [[wait|e|] [w1 b1]]; cbn [fst snd]; try discriminate.
  reflexivity.
Qed.

Lemma request_hangs (fuel : nat) (json_data : option string)
    (ex : exchange) (s : World * ThrottledClient.t) :
  fst (after_rate fuel s) = Hang ->
  fst (_request fuel json_data ex s) = Hang
  /\ metrics (snd (snd (_request fuel json_data ex s))) = metrics (snd s).
Proof.
  intro H. pose proof (request_cases fuel json_data ex s) as C.
  pose proof (after_rate_frame fuel s) as [Hm _].
  destruct (after_rate fuel s) as [[wait|e|] s1]; try discriminate.
  rewrite C. now split.
Qed.

End SlowRate.

(** C10 as stated fails in one detail: the token count is not pinned at 0
    when the clock steps back between two reads, the refill then takes it
    below 0. *)
Lemma slow_rate_tokens_below_zero :
  let w := {| now := 0;
              lag := fun n => match n with 2%nat => -5 | _ => 1 end;
              tick := 0; trace := [] |} in
  let built := RateLimiter.__init__ (1 # 2) w in
  TokenBucket.max_tokens (RateLimiter.bucket (fst built)) = 0%Z
  /\ TokenBucket.tokens
       (snd (snd (TokenBucket.acquire 1
                    (snd built, RateLimiter.bucket (fst built)))))
     < 0.
Proof. split; reflexivity. Qed.

(** C10, amended.  [RateLimiter(max_per_second)] gives its bucket the
    capacity [int(max_per_second)], for every rate, and fills it to that
    capacity.  For 0 < max_per_second < 1 that capacity is 0: through any
    number of passes the token count never rises above 0, and stays 0 under
    a clock that does not run backwards; [acquire] has not returned after
    any number of passes; and a request through a client built at that rate
    never reaches execution. *)
Theorem rate_below_one_never_grants (max_per_second : Q) (w : World) :
  let rl := fst (RateLimiter.__init__ max_per_second w) in
  let w1 := snd (RateLimiter.__init__ max_per_second w) in
  TokenBucket.max_tokens (RateLimiter.bucket rl) = Py.int max_per_second
  /\ TokenBucket.tokens_per_second (RateLimiter.bucket rl) = max_per_second
  /\ TokenBucket.tokens (RateLimiter.bucket rl)
     = inject_Z (Py.int max_per_second)
  /\ (0 < max_per_second -> max_per_second < 1 ->
      TokenBucket.max_tokens (RateLimiter.bucket rl) = 0%Z
      /\ (forall (fuels : list nat) (fuel : nat),
            let s := acquire_many fuels (w1, RateLimiter.bucket rl) in
            TokenBucket.tokens (snd s) <= 0
            /\ (lag_nonneg w -> TokenBucket.tokens (snd s) == 0)
            /\ fst (TokenBucket.acquire fuel s) = Hang)
      /\ (forall (max_concurrent : Z) (fuel : nat)
            (json_data : option string) (ex : ThrottledClient.exchange)
            (c : ThrottledClient.t) (w2 : World),
            ThrottledClient.__init__ max_concurrent max_per_second w
            = (Return c, w2) ->
            let r := ThrottledClient._request fuel json_data ex (w2, c) in
            fst r = Hang
            /\ ThrottledClient.total_requests
                 (ThrottledClient.metrics (snd (snd r))) = 0%Z)).
Proof.
  intros rl w1.
  split; [reflexivity|]. split; [reflexivity|]. split; [reflexivity|].
  intros Hpos Hlt.
  pose proof (int_lt_1 max_per_second Hpos Hlt) as Hint.
  assert (Hmax : TokenBucket.max_tokens (RateLimiter.bucket rl)
                 = Py.int max_per_second) by reflexivity.
  assert (Hrate : TokenBucket.tokens_per_second (RateLimiter.bucket rl)
                  = max_per_second) by reflexivity.
  assert (Hl : lag w1 = lag w) by reflexivity.
  assert (Htrue : forall l : list Q, Forall (fun _ => True) l)
    by (intro l; induction l; constructor; trivial).
  assert (Hcapped : capped (fun _ => True) (w1, RateLimiter.bucket rl)).
  { destruct (post_init_capped (fun _ => True) (Py.int max_per_second)
                max_per_second w) as (A & _); [trivial | apply Htrue|].
    exact A. }
  assert (Hok : bucket_ok_with (fun _ => True) (w1, RateLimiter.bucket rl)).
  { destruct (post_init_ok (fun _ => True) (Py.int max_per_second)
                max_per_second w) as (A & _);
      [lia | trivial | apply Htrue|].
    exact A. }
  assert (Hrl : RateLimiter.__init__ max_per_second w = (rl, w1))
    by reflexivity.
  clearbody rl w1.
  split; [congruence|].
  assert (Hmany : forall fuels fuel,
            let s := acquire_many fuels (w1, RateLimiter.bucket rl) in
            TokenBucket.tokens (snd s) <= 0
            /\ (lag_nonneg w -> TokenBucket.tokens (snd s) == 0)
            /\ fst (TokenBucket.acquire fuel s) = Hang).
  { intros fuels fuel s.
    destruct (acquire_many_capped (fun _ => True) fuels
                (w1, RateLimiter.bucket rl)) as [[A _] (B & C & _)];
      [trivial | exact Hcapped |].
    fold s in A, B, C. cbn [fst snd] in B, C.
    rewrite B, Hmax, Hint in A. change (inject_Z 0) with 0 in A.
    split; [exact A|]. split.
    - intro Hlag.
      destruct (acquire_many_ok (fun _ => True) fuels
                  (w1, RateLimiter.bucket rl)) as [((A0 & _) & _) _];
        cbn [fst snd]; try trivial.
      + unfold lag_nonneg. now rewrite Hl.
      + lia.
      + rewrite Hrate. lra.
      + fold s in A0. lra.
    - apply acquire_hangs.
      + rewrite B, Hmax, Hint. lia.
      + rewrite C, Hrate. exact Hpos. }
  split; [exact Hmany|].
  intros mc fuel json_data ex c w2 Hinit r.
  unfold ThrottledClient.__init__ in Hinit.
  destruct (ConcurrencyLimiter.__init__ mc) as [cl| |]; try discriminate.
  rewrite Hrl in Hinit.
  injection Hinit as Hc Hw2. subst c w2.
  destruct (request_hangs fuel json_data ex
              (w1, {| ThrottledClient.concurrency_limiter := cl;
                      ThrottledClient.rate_limiter := rl;
                      ThrottledClient.metrics :=
                        {| ThrottledClient.total_requests := 0;
                           ThrottledClient.successful_requests := 0;
                           ThrottledClient.failed_requests := 0;
                           ThrottledClient.total_bytes_sent := 0;
                           ThrottledClient.total_bytes_received := 0 |} |}))
    as [R1 R2].
  - apply after_rate_hangs. cbn [fst snd ThrottledClient.rate_limiter].
    exact (proj2 (proj2 (Hmany [] fuel))).
  - fold r in R1, R2. split; [exact R1|]. now rewrite R2.
Qed.

(** Half a request per second. *)
Lemma rate_below_one_never_grants_witness :
  let w := {| now := 0; lag := fun _ => 1 # 1000; tick := 0; trace := [] |} in
  TokenBucket.max_tokens
    (RateLimiter.bucket (fst (RateLimiter.__init__ (1 # 2) w))) = 0%Z
  /\ fst (TokenBucket.acquire 50
            (snd (RateLimiter.__init__ (1 # 2) w),
             RateLimiter.bucket (fst (RateLimiter.__init__ (1 # 2) w))))
     = Hang.
Proof.
  intro w.
  assert (H0 : 0 < 1 # 2) by lra.
  assert (H1 : (1 # 2) < 1) by lra.
  destruct (rate_below_one_never_grants (1 # 2) w)
    as (_ & _ & _ & H).
  destruct (H H0 H1) as (Hcap & Hacq & _).
  split; [exact Hcap|].
  exact (proj2 (proj2 (Hacq [] 50%nat))).
Defined.

(** ** The concurrency limiter *)

Section ConcurrencyFacts.

Import ConcurrencyLimiter.

Lemma count_inside_app (xs ys : list phase) :
  count_inside (xs ++ ys) = (count_inside xs + count_inside ys)%nat.
Proof.
  unfold count_inside. now rewrite filter_app, length_app.
Qed.

Lemma set_phase_split (i : nat) (p q : phase) (ps : list phase) :
  nth_error ps i = Some p ->
  exists l1 l2, ps = l1 ++ p :: l2 /\ set_phase i q ps = l1 ++ q :: l2.
Proof.
  intro H. destruct (nth_error_split ps i H) as (l1 & l2 & Hps & Hlen).
  exists l1, l2. split; [exact Hps|].
  unfold set_phase. subst ps i.
  rewrite firstn_app, firstn_all, Nat.sub_diag, app_nil_r.
  replace (S (List.length l1)) with (List.length l1 + 1)%nat by lia.
  rewrite skipn_app, skipn_all2 by lia.
  replace (List.length l1 + 1 - List.length l1)%nat with 1%nat by lia.
  reflexivity.
Qed.

Lemma count_inside_repeat_waiting (n : nat) :
  count_inside (repeat Waiting n) = 0%nat.
Proof.
  induction n as [|n IH]; [reflexivity|exact IH].
Qed.

Lemma step_preserves_inv (mc : Z) (s s' : system) :
  limiter_inv mc s -> step s s' -> limiter_inv mc s'.
Proof.
  intros (Hmax & Hsem & Hsum & Hcount) Hstep.
  destruct Hstep as [l l' ps i Hnth Henter | l ps i exc Hnth];
    cbn [fst snd] in *.
  - unfold try_aenter in Henter.
    destruct (0 <? semaphore l)%Z eqn:E; [|discriminate].
    apply Z.ltb_lt in E. injection Henter as <-.
    destruct (set_phase_split i Waiting Inside ps Hnth)
      as (l1 & l2 & Hps & Hset).
    unfold limiter_inv. cbn [fst snd].
    rewrite Hset, count_inside_app. rewrite Hps, count_inside_app in Hcount.
    unfold enter, count_inside in *. cbn in *. repeat split; lia.
  - destruct (set_phase_split i Inside (Left exc) ps Hnth)
      as (l1 & l2 & Hps & Hset).
    unfold limiter_inv. cbn [fst snd].
    rewrite Hset, count_inside_app. rewrite Hps, count_inside_app in Hcount.
    unfold aexit, count_inside in *. cbn in *. repeat split; lia.
Qed.

Lemma reachable_inv (mc : Z) (n : nat) (s : system) :
  reachable mc n s -> limiter_inv mc s.
Proof.
  induction 1 as [l Hinit | s s' _ IH Hstep].
  - unfold __init__ in Hinit.
    destruct (mc <? 0)%Z eqn:E; [discriminate|].
    apply Z.ltb_ge in E. injection Hinit as <-.
    unfold limiter_inv. cbn [fst snd]. rewrite count_inside_repeat_waiting.
    cbn. repeat split; lia.
  - eapply step_preserves_inv; eassumption.
Qed.

End ConcurrencyFacts.

(** C5.  In every state a limiter built for [max_concurrent] slots can reach,
    whatever the interleaving of the coroutines sharing it,
    0 <= in_flight <= max_concurrent, and the counter is the number of
    coroutines inside their body.  [__aenter__] counts a request only together
    with taking a permit, and counts nothing while none is available;
    [__aexit__] decrements the counter and gives the permit back on a normal
    exit and on an exception alike, and never swallows the exception. *)
Theorem concurrency_limiter_invariant (max_concurrent : Z) (n : nat)
    (s : ConcurrencyLimiter.system) :
  ConcurrencyLimiter.reachable max_concurrent n s ->
  (0 <= ConcurrencyLimiter.in_flight (fst s) <= max_concurrent)%Z
  /\ ConcurrencyLimiter.in_flight (fst s) = Z.of_nat (count_inside (snd s))
  /\ (forall l l',
        ConcurrencyLimiter.try_aenter l = Some l' ->
        (0 < ConcurrencyLimiter.semaphore l)%Z
        /\ ConcurrencyLimiter.semaphore l'
           = (ConcurrencyLimiter.semaphore l - 1)%Z
        /\ ConcurrencyLimiter._in_flight l'
           = (ConcurrencyLimiter._in_flight l + 1)%Z)
  /\ (forall l,
        ConcurrencyLimiter.try_aenter l = None ->
        (ConcurrencyLimiter.semaphore l <= 0)%Z)
  /\ (forall exc l,
        ConcurrencyLimiter._in_flight (fst (ConcurrencyLimiter.aexit exc l))
        = (ConcurrencyLimiter._in_flight l - 1)%Z
        /\ ConcurrencyLimiter.semaphore (fst (ConcurrencyLimiter.aexit exc l))
           = (ConcurrencyLimiter.semaphore l + 1)%Z
        /\ snd (ConcurrencyLimiter.aexit exc l) = false).
Proof.
  intro Hreach.
  destruct (reachable_inv max_concurrent n s Hreach)
    as (Hmax & Hsem & Hsum & Hcount).
  unfold ConcurrencyLimiter.in_flight.
  split; [lia|]. split; [exact Hcount|]. split; [|split].
  - intros l l' H. unfold ConcurrencyLimiter.try_aenter in H.
    destruct (0 <? ConcurrencyLimiter.semaphore l)%Z eqn:E; [|discriminate].
    apply Z.ltb_lt in E. injection H as <-. now repeat split.
  - intros l H. unfold ConcurrencyLimiter.try_aenter in H.
    destruct (0 <? ConcurrencyLimiter.semaphore l)%Z eqn:E; [discriminate|].
    now apply Z.ltb_ge in E.
  - intros exc l. now repeat split.
Qed.

(** Two slots, three coroutines: two enter, one of them leaves with an
    exception. *)
Lemma concurrency_limiter_invariant_witness :
  let l0 := {| ConcurrencyLimiter.max_concurrent := 2;
               ConcurrencyLimiter.semaphore := 2;
               ConcurrencyLimiter._in_flight := 0 |} in
  let l3 := {| ConcurrencyLimiter.max_concurrent := 2;
               ConcurrencyLimiter.semaphore := 1;
               ConcurrencyLimiter._in_flight := 1 |} in
  let ps := [ConcurrencyLimiter.Left (Some Py.ServerError);
             ConcurrencyLimiter.Inside; ConcurrencyLimiter.Waiting] in
  ConcurrencyLimiter.reachable 2 3 (l3, ps)
  /\ (0 <= ConcurrencyLimiter.in_flight l3 <= 2)%Z.
Proof.
  intros l0 l3 ps.
  pose (l1 := ConcurrencyLimiter.enter l0).
  pose (l2 := ConcurrencyLimiter.enter l1).
  pose (ps0 := repeat ConcurrencyLimiter.Waiting 3).
  pose (ps1 := ConcurrencyLimiter.set_phase 0 ConcurrencyLimiter.Inside ps0).
  pose (ps2 := ConcurrencyLimiter.set_phase 1 ConcurrencyLimiter.Inside ps1).
  assert (R0 : ConcurrencyLimiter.reachable 2 3 (l0, ps0))
    by (apply ConcurrencyLimiter.reach_init; reflexivity).
  assert (R1 : ConcurrencyLimiter.reachable 2 3 (l1, ps1)).
  { apply (ConcurrencyLimiter.reach_step 2 3 (l0, ps0) (l1, ps1) R0).
    apply ConcurrencyLimiter.step_enter; reflexivity. }
  assert (R2 : ConcurrencyLimiter.reachable 2 3 (l2, ps2)).
  { apply (ConcurrencyLimiter.reach_step 2 3 (l1, ps1) (l2, ps2) R1).
    apply ConcurrencyLimiter.step_enter; reflexivity. }
  assert (R : ConcurrencyLimiter.reachable 2 3 (l3, ps)).
  { apply (ConcurrencyLimiter.reach_step 2 3 (l2, ps2) (l3, ps) R2).
    exact (ConcurrencyLimiter.step_exit l2 ps2 0 (Some Py.ServerError)
             eq_refl). }
  split; [exact R|].
  exact (proj1 (concurrency_limiter_invariant 2 3 (l3, ps) R)).
Defined.

(** ** Metrics snapshots *)

Section SnapshotFacts.

Lemma Qltb_comp (a a' b b' : Q) :
  a == a' -> b == b' -> Py.Qltb a b = Py.Qltb a' b'.
Proof.
  intros Ha Hb. unfold Py.Qltb. now rewrite Ha, Hb.
Qed.

Lemma round_half_even_comp (x y : Q) :
  x == y -> Py.round_half_even x = Py.round_half_even y.
Proof.
  intro H. unfold Py.round_half_even.
  rewrite (Qfloor_comp x y H).
  assert (Hr : x - inject_Z (Qfloor y) == y - inject_Z (Qfloor y))
    by now rewrite H.
  rewrite (Qltb_comp _ _ _ _ Hr (Qeq_refl (1 # 2))).
  rewrite (Qltb_comp _ _ _ _ (Qeq_refl (1 # 2)) Hr).
  reflexivity.
Qed.

Lemma round2_comp (x y : Q) : x == y -> Py.round2 x = Py.round2 y.
Proof.
  intro H. unfold Py.round2.
  rewrite (round_half_even_comp (x * 100) (y * 100)); [reflexivity|].
  now rewrite H.
Qed.

End SnapshotFacts.

(** C9 as stated fails for [ConnectionPoolStats.to_dict]: under a clock that
    gains a second at every read, two reads in a row, with nothing in
    between and the statistics untouched, report different [uptime_sec]. *)
Lemma uptime_differs_across_reads :
  let w := {| now := 0; lag := fun _ => 1; tick := 0; trace := [] |} in
  let s := (snd (ConnectionPoolStats.__init__ w),
            fst (ConnectionPoolStats.__init__ w)) in
  let r1 := ConnectionPoolStats.to_dict s in
  let r2 := ConnectionPoolStats.to_dict (snd r1) in
  exists d1 d2,
    fst r1 = Return d1 /\ fst r2 = Return d2
    /\ snd (snd r1) = snd s /\ snd (snd r2) = snd s
    /\ ConnectionPoolStats.uptime_sec d1 == 1
    /\ ConnectionPoolStats.uptime_sec d2 == 2
    /\ d1 <> d2.
Proof.
  cbv zeta.
  eexists. eexists. split; [reflexivity|]. split; [reflexivity|].
  split; [reflexivity|]. split; [reflexivity|].
  split; [vm_compute; reflexivity|]. split; [vm_compute; reflexivity|].
  intro H.
  apply (f_equal ConnectionPoolStats.uptime_sec) in H.
  vm_compute in H. discriminate.
Qed.

(** C9, amended.  [ThrottledClient.get_metrics] read twice in a row returns
    the same snapshot and changes nothing.  [ConnectionPoolStats.to_dict]
    changes no statistic either, and two reads in a row agree on [created],
    [reused], [closed] and [avg_acquisition_ms]; [uptime_sec] is recomputed
    from the clock at each read, as round(time.time() - start, 2), so the two
    agree when the clock has not moved between the reads. *)
Theorem snapshot_reads (sc : World * ThrottledClient.t)
    (sp : World * ConnectionPoolStats.t) :
  let m1 := ThrottledClient.get_metrics sc in
  let m2 := ThrottledClient.get_metrics (snd m1) in
  let r1 := ConnectionPoolStats.to_dict sp in
  let r2 := ConnectionPoolStats.to_dict (snd r1) in
  (snd m1 = sc /\ snd m2 = sc /\ fst m1 = fst m2)
  /\ (snd (snd r1) = snd sp /\ snd (snd r2) = snd sp)
  /\ exists d1 d2,
       fst r1 = Return d1 /\ fst r2 = Return d2
       /\ ConnectionPoolStats.created d1 = ConnectionPoolStats.created d2
       /\ ConnectionPoolStats.reused d1 = ConnectionPoolStats.reused d2
       /\ ConnectionPoolStats.closed d1 = ConnectionPoolStats.closed d2
       /\ ConnectionPoolStats.avg_acquisition_ms d1
          = ConnectionPoolStats.avg_acquisition_ms d2
       /\ ConnectionPoolStats.uptime_sec d1
          = Py.round2 (now (fst (snd r1))
                       - ConnectionPoolStats._start_time (snd sp))
       /\ ConnectionPoolStats.uptime_sec d2
          = Py.round2 (now (fst (snd r2))
                       - ConnectionPoolStats._start_time (snd sp))
       /\ (now (fst (snd r2)) == now (fst (snd r1)) ->
           ConnectionPoolStats.uptime_sec d1
           = ConnectionPoolStats.uptime_sec d2).
Proof.
  destruct sc as [wc c], sp as [wp p]. cbv zeta.
  split; [now repeat split|]. split; [now split|].
  eexists. eexists. split; [reflexivity|]. split; [reflexivity|].
  cbn. repeat split.
  intro H. apply round2_comp. cbn in H. rewrite H. reflexivity.
Qed.

(** ** Load with priority *)

Section PriorityFacts.

Import Coordinador.

Lemma endpoint_eqb_eq (a b : endpoint) : endpoint_eqb a b = true <-> a = b.
Proof. destruct a, b; cbn; split; intro H; congruence. Qed.

Lemma mem_In (x : endpoint) (xs : list endpoint) :
  mem x xs = true <-> In x xs.
Proof.
  unfold mem. rewrite existsb_exists. split.
  - intros (y & Hy & E). apply endpoint_eqb_eq in E. now subst.
  - intro H. exists x. split; [exact H | now apply endpoint_eqb_eq].
Qed.

Lemma mem_set_add (t x : endpoint) (xs : list endpoint) :
  mem t (set_add x xs) = true <-> mem t xs = true \/ t = x.
Proof.
  unfold set_add. destruct (mem x xs) eqn:E.
  - split; [now left|]. intros [H | ->]; assumption.
  - rewrite !mem_In, in_app_iff. cbn. intuition congruence.
Qed.

Lemma succeeded_app (t : endpoint) (seen more : batch) :
  succeeded t (seen ++ more) <-> succeeded t seen \/ succeeded t more.
Proof.
  unfold succeeded. split.
  - intros (v & H). apply in_app_iff in H. destruct H; [left | right]; eauto.
  - intros [(v & H) | (v & H)]; exists v; apply in_app_iff; auto.
Qed.

Lemma succeeded_one (t nombre : endpoint) (r : settlement) :
  succeeded t [(nombre, r)] <-> t = nombre /\ exists v, r = Ok v.
Proof.
  unfold succeeded. cbn. split.
  - intros (v & [H | []]). injection H as -> ->. eauto.
  - intros (-> & v & ->). eauto.
Qed.

Lemma set_eqb_criticas (xs : list endpoint) :
  (forall t, mem t xs = true -> mem t tareas_criticas = true) ->
  set_eqb xs tareas_criticas
  = mem productos xs && mem perfil xs.
Proof.
  intro Hsub. unfold set_eqb.
  assert (H : forallb (fun x => mem x tareas_criticas) xs = true).
  { apply forallb_forall. intros x Hx. apply Hsub. now apply mem_In. }
  rewrite H. cbn. now rewrite andb_true_r.
Qed.

Lemma procesar_tarea_inv (inicio : Q) (nombre : endpoint) (r : settlement)
    (seen : batch) (s s' : World * prioridad) :
  procesar_tarea inicio nombre r s = (Return tt, s') ->
  priority_inv seen (snd s) ->
  priority_inv (seen ++ [(nombre, r)]) (snd s').
Proof.
  intros Hrun (J1 & J2 & J3 & J4 & J5). destruct s as [w st].
  unfold procesar_tarea in Hrun. cbn [fst snd] in *.
  assert (Hsub : forall t, mem t (criticas_completadas st) = true ->
                           mem t tareas_criticas = true)
    by (intros t Ht; apply (J1 t Ht)).
  destruct r as [v | e].
  - assert (K5 : forall t, ~ In (t, Err Py.CancelledError)
                              (seen ++ [(nombre, Ok v)])).
    { intros t H. apply in_app_iff in H. destruct H as [H | [H | []]].
      - now apply (J5 t).
      - discriminate. }
    destruct (mem nombre tareas_criticas) eqn:Ecrit.
    + assert (K1 : forall t,
                mem t (set_add nombre (criticas_completadas st)) = true ->
                mem t tareas_criticas = true
                /\ succeeded t (seen ++ [(nombre, Ok v)])).
      { intros t Ht. apply mem_set_add in Ht. destruct Ht as [Ht | ->].
        - destruct (J1 t Ht) as [A B]. split; [exact A|].
          apply succeeded_app. now left.
        - split; [exact Ecrit|]. apply succeeded_app. right.
          apply succeeded_one. eauto. }
      assert (K2 : forall t, succeeded t (seen ++ [(nombre, Ok v)]) ->
                mem t tareas_criticas = true ->
                mem t (set_add nombre (criticas_completadas st)) = true).
      { intros t Ht Hc. apply mem_set_add. apply succeeded_app in Ht.
        destruct Ht as [Ht | Ht].
        - left. now apply J2.
        - right. now apply succeeded_one in Ht. }
      destruct (set_eqb (set_add nombre (criticas_completadas st))
                        tareas_criticas
                && is_None (tiempo_dashboard_parcial st)) eqn:Eset.
      * injection Hrun as <-.
        apply andb_true_iff in Eset. destruct Eset as [E1 E2].
        split; [exact K1|]. split; [exact K2|].
        cbn [snd criticas_completadas tiempo_dashboard_parcial asignaciones].
        split; [|split; [|exact K5]].
        -- rewrite E1. reflexivity.
        -- unfold is_Some in J4. rewrite E2 in J4. cbn in J4.
           rewrite J4. reflexivity.
      * injection Hrun as <-.
        split; [exact K1|]. split; [exact K2|].
        cbn [snd criticas_completadas tiempo_dashboard_parcial asignaciones].
        split; [|split; [exact J4 | exact K5]].
        apply andb_false_iff in Eset. destruct Eset as [E | E].
        -- rewrite E. rewrite J3.
           rewrite set_eqb_criticas by assumption.
           rewrite set_eqb_criticas in E by (intros t Ht; apply (K1 t Ht)).
           destruct (mem productos (criticas_completadas st)) eqn:A,
             (mem perfil (criticas_completadas st)) eqn:B;
             try reflexivity.
           assert (mem productos (set_add nombre (criticas_completadas st))
                   = true) by (apply mem_set_add; now left).
           assert (mem perfil (set_add nombre (criticas_completadas st))
                   = true) by (apply mem_set_add; now left).
           rewrite H, H0 in E. discriminate.
        -- unfold is_Some in *. rewrite E in *. cbn [negb] in *.
           symmetry in J3. rewrite set_eqb_criticas in J3 by assumption.
           rewrite set_eqb_criticas by (intros t Ht; apply (K1 t Ht)).
           apply andb_true_iff in J3. destruct J3 as [A B].
           symmetry. apply andb_true_iff.
           split; apply mem_set_add; now left.
    + injection Hrun as <-.
      split; [|split; [|split; [exact J3 | split; [exact J4 | exact K5]]]].
      * intros t Ht. cbn [snd criticas_completadas] in Ht.
        destruct (J1 t Ht) as [A B]. split; [exact A|].
        apply succeeded_app. now left.
      * intros t Ht Hc. cbn [snd criticas_completadas]. apply J2; [|exact Hc].
        apply succeeded_app in Ht. destruct Ht as [Ht | Ht]; [exact Ht|].
        apply succeeded_one in Ht. destruct Ht as [-> _]. congruence.
  - destruct (Py.is_Exception e) eqn:Ee; [|discriminate].
    injection Hrun as <-.
    split; [|split; [|split; [exact J3 | split; [exact J4 |]]]].
    + intros t Ht. cbn [snd criticas_completadas] in Ht.
      destruct (J1 t Ht) as [A B]. split; [exact A|].
      apply succeeded_app. now left.
    + intros t Ht Hc. cbn [snd criticas_completadas]. apply J2; [|exact Hc].
      apply succeeded_app in Ht. destruct Ht as [Ht | Ht]; [exact Ht|].
      apply succeeded_one in Ht. destruct Ht as (_ & v & Hv). discriminate.
    + intros t H. apply in_app_iff in H. destruct H as [H | [H | []]].
      * now apply (J5 t).
      * injection H as _ He. subst e. discriminate.
Qed.

Lemma procesar_hechas_inv (inicio : Q) (done : batch) :
  forall (seen : batch) (s s' : World * prioridad),
    procesar_hechas inicio done s = (Return tt, s') ->
    priority_inv seen (snd s) ->
    priority_inv (seen ++ done) (snd s').
Proof.
  induction done as [|[nombre r] rest IH]; intros seen s s' Hrun J.
  - cbn in Hrun. injection Hrun as <-. now rewrite app_nil_r.
  - cbn [procesar_hechas] in Hrun. unfold bind in Hrun.
    destruct (procesar_tarea inicio nombre r s) as [[[]|e|] s1] eqn:E;
      try discriminate.
    pose proof (procesar_tarea_inv inicio nombre r seen s s1 E J) as J1.
    specialize (IH _ _ _ Hrun J1). now rewrite <- app_assoc in IH.
Qed.

Lemma drenar_inv (inicio : Q) (rondas : list ronda) :
  forall (pendientes : list endpoint) (seen : batch)
         (s s' : World * prioridad),
    drenar inicio rondas pendientes s = (Return tt, s') ->
    priority_inv seen (snd s) ->
    priority_inv (seen ++ procesadas rondas pendientes) (snd s').
Proof.
  induction rondas as [|r rest IH]; intros pendientes seen s s' Hrun J;
    destruct pendientes as [|p pendientes].
  - cbn in Hrun. injection Hrun as <-. cbn. now rewrite app_nil_r.
  - discriminate.
  - cbn in Hrun. injection Hrun as <-. cbn. now rewrite app_nil_r.
  - cbn [drenar procesadas] in *. unfold bind at 1 in Hrun.
    unfold modify in Hrun. unfold bind in Hrun.
    destruct (procesar_hechas inicio (hechas r)
                (elapse (espera r) (fst s), snd s))
      as [[[]|e|] s1] eqn:E; try discriminate.
    pose proof (procesar_hechas_inv inicio (hechas r) seen _ s1 E J) as J1.
    specialize (IH _ _ _ _ Hrun J1). now rewrite <- app_assoc in IH.
Qed.

Lemma priority_inv_inicial : priority_inv [] prioridad_inicial.
Proof.
  unfold priority_inv, succeeded.
  split; [|split; [|split; [|split]]].
  - intros t H. discriminate.
  - intros t (v & []).
  - reflexivity.
  - reflexivity.
  - intros t [].
Qed.

End PriorityFacts.

(** C1 as stated fails: with [productos] answered 500, so that its task
    raises, and the three other requests successful, the run returns, both
    critical tasks have reached a terminal state (they are in
    [orden_llegada]), and [tiempo_dashboard_parcial] is still [None]. *)
Lemma critical_failure_leaves_timestamp_unset :
  let w := {| now := 0; lag := fun _ => 0; tick := 0; trace := [] |} in
  let rondas :=
    [ {| Coordinador.espera := 1;
         Coordinador.hechas := [(Coordinador.perfil, Coordinador.Ok (Some "u"%string))] |};
      {| Coordinador.espera := 1;
         Coordinador.hechas :=
           [(Coordinador.productos, Coordinador.Err Py.TypeError)] |};
      {| Coordinador.espera := 1;
         Coordinador.hechas :=
           [(Coordinador.categorias, Coordinador.Ok (Some "c"%string))] |};
      {| Coordinador.espera := 1;
         Coordinador.hechas :=
           [(Coordinador.notificaciones, Coordinador.Ok (Some "n"%string))] |} ] in
  exists r st w',
    Coordinador.cargar_con_prioridad rondas w = (Return (r, st), w')
    /\ In Coordinador.productos (Coordinador.r_orden_llegada r)
    /\ In Coordinador.perfil (Coordinador.r_orden_llegada r)
    /\ Coordinador.r_tiempo_dashboard_parcial r = None
    /\ Coordinador.asignaciones st = 0%nat.
Proof.
  cbv zeta. eexists. eexists. eexists.
  split; [vm_compute; reflexivity|].
  cbn. repeat split; auto.
Qed.

(** C1, amended.  In a run of [cargar_con_prioridad] that returns,
    [tiempo_dashboard_parcial] is assigned at most once, and it is assigned
    if and only if both critical tasks, [productos] and [perfil], returned a
    result; no processed task was cancelled, since a [CancelledError] would
    have left the function as an exception. *)
Theorem critical_ready_iff_succeeded (rondas : list Coordinador.ronda)
    (w w' : World) (r : Coordinador.resultado_prioridad)
    (st : Coordinador.prioridad) :
  Coordinador.cargar_con_prioridad rondas w = (Return (r, st), w') ->
  let seen := procesadas rondas Coordinador.todas_las_tareas4 in
  (Coordinador.asignaciones st <= 1)%nat
  /\ (Coordinador.asignaciones st = 1%nat
      <-> Coordinador.r_tiempo_dashboard_parcial r <> None)
  /\ (Coordinador.r_tiempo_dashboard_parcial r <> None
      <-> succeeded Coordinador.productos seen
          /\ succeeded Coordinador.perfil seen)
  /\ (forall t, ~ In (t, Coordinador.Err Py.CancelledError) seen).
Proof.
  intros Hrun seen. unfold Coordinador.cargar_con_prioridad in Hrun.
  cbn [time_time] in Hrun.
  match type of Hrun with
  | context [Coordinador.drenar ?i rondas _ ?s0] =>
      destruct (Coordinador.drenar i rondas Coordinador.todas_las_tareas4 s0)
        as [[[]|e|] [w2 st2]] eqn:E; try discriminate;
      pose proof (drenar_inv i rondas Coordinador.todas_las_tareas4 []
                    s0 (w2, st2) E priority_inv_inicial) as J
  end.
  injection Hrun as <- <- <-.
  cbn [app snd] in J. fold seen in J.
  destruct J as (J1 & J2 & J3 & J4 & J5).
  cbn [Coordinador.to_resultado Coordinador.r_tiempo_dashboard_parcial].
  assert (Hsub : forall t,
            Coordinador.mem t (Coordinador.criticas_completadas st2) = true ->
            Coordinador.mem t Coordinador.tareas_criticas = true)
    by (intros t Ht; apply (J1 t Ht)).
  rewrite (set_eqb_criticas _ Hsub) in J3.
  assert (Hsome : Coordinador.tiempo_dashboard_parcial st2 <> None
                  <-> is_Some (Coordinador.tiempo_dashboard_parcial st2)
                      = true).
  { destruct (Coordinador.tiempo_dashboard_parcial st2); cbn;
      split; congruence. }
  split; [|split; [|split; [|exact J5]]].
  - rewrite J4. destruct (is_Some _); lia.
  - rewrite Hsome, J4. destruct (is_Some _); split; intro; congruence.
  - rewrite Hsome, J3, andb_true_iff. split.
    + intros [A B]. split; [apply (J1 _ A) | apply (J1 _ B)].
    + intros [A B]. split; apply J2; auto.
Qed.

(** The four requests succeed, the two critical ones in the second round. *)
Lemma critical_ready_iff_succeeded_witness :
  let w := {| now := 0; lag := fun _ => 0; tick := 0; trace := [] |} in
  let rondas :=
    [ {| Coordinador.espera := 1;
         Coordinador.hechas :=
           [(Coordinador.categorias, Coordinador.Ok (Some "c"%string))] |};
      {| Coordinador.espera := 1;
         Coordinador.hechas :=
           [(Coordinador.perfil, Coordinador.Ok (Some "u"%string));
            (Coordinador.productos, Coordinador.Ok (Some "p"%string))] |};
      {| Coordinador.espera := 2;
         Coordinador.hechas :=
           [(Coordinador.notificaciones, Coordinador.Ok (Some "n"%string))] |} ] in
  exists r st w',
    Coordinador.cargar_con_prioridad rondas w = (Return (r, st), w')
    /\ (Coordinador.asignaciones st <= 1)%nat
    /\ (Coordinador.r_tiempo_dashboard_parcial r <> None
        <-> succeeded Coordinador.productos
              (procesadas rondas Coordinador.todas_las_tareas4)
            /\ succeeded Coordinador.perfil
                 (procesadas rondas Coordinador.todas_las_tareas4)).
Proof.
  intros w rondas.
  destruct (Coordinador.cargar_con_prioridad rondas w)
    as [[[r st]|e|] w'] eqn:E; try (vm_compute in E; discriminate).
  exists r, st, w'. split; [reflexivity|].
  destruct (critical_ready_iff_succeeded rondas w w' r st E)
    as (A & _ & B & _).
  split; [exact A | exact B].
Defined.

(** ** The cancellation cascade *)

Section CascadeFacts.

Import Coordinador.

(** The [while] loop by itself, for whatever settlements it is handed; those
    of the function's own tasks are taken up in the next section. *)

Lemma no_fatal_cons (x : endpoint * settlement) (done : batch) :
  no_fatal (x :: done) <-> fatal (snd x) = false /\ no_fatal done.
Proof.
  unfold no_fatal. cbn. rewrite andb_true_iff, negb_true_iff. tauto.
Qed.

Lemma no_fatal_app (a b : batch) :
  no_fatal (a ++ b) <-> no_fatal a /\ no_fatal b.
Proof.
  unfold no_fatal. rewrite forallb_app, andb_true_iff. tauto.
Qed.

Lemma cancel_remaining_all (tareas : list endpoint) :
  forall st : cascade,
    (forall t, In t tareas -> mem t (terminadas st) = false) ->
    let st' := snd (cancel_remaining tareas st) in
    cancel_llamado st' = cancel_llamado st ++ tareas
    /\ errores st' = errores st
    /\ datos st' = datos st
    /\ canceladas_por_auth st' = canceladas_por_auth st
    /\ terminadas st' = terminadas st
    /\ fst (cancel_remaining tareas st) = Z.of_nat (List.length tareas).
Proof.
  induction tareas as [|t rest IH]; intros st Hpend.
  - cbn. rewrite app_nil_r. now repeat split.
  - cbn [cancel_remaining]. rewrite (Hpend t (or_introl eq_refl)).
    cbn [negb].
    specialize (IH (cancel t st)).
    destruct (cancel_remaining rest (cancel t st)) as [n st1].
    cbn [fst snd] in *.
    destruct IH as (A & B & C & D & E & F).
    { intros u Hu. cbn. apply Hpend. now right. }
    cbn in A. rewrite A, <- app_assoc. cbn [app List.length].
    repeat split; try assumption. lia.
Qed.

Lemma report_cancelled_spec (pendientes : list endpoint) :
  forall st : cascade,
    let st' := report_cancelled pendientes st in
    errores st' = errores st ++ map cancelled_entry pendientes
    /\ cancel_llamado st' = cancel_llamado st
    /\ canceladas_por_auth st' = canceladas_por_auth st
    /\ datos st' = datos st.
Proof.
  unfold report_cancelled.
  induction pendientes as [|p rest IH]; intro st.
  - cbn. rewrite app_nil_r. now repeat split.
  - cbn [fold_left map]. destruct (IH (add_error (cancelled_entry p) st))
      as (A & B & C & D).
    cbv zeta. unfold cancelled_entry in *. rewrite A, B, C, D. cbn.
    rewrite <- app_assoc. now repeat split.
Qed.

(** The [for] loop of one round never lets an exception out. *)
Lemma procesar_done_returns (done : batch) :
  forall (pendientes : list endpoint) (st : cascade),
    exists st', procesar_done done pendientes st = Return st'.
Proof.
  induction done as [|[nombre r] rest IH]; intros pendientes st.
  - now exists st.
  - destruct r as [v | e].
    + apply IH.
    + destruct e; try apply IH.
      cbn [procesar_done]. destruct pendientes as [|p ps]; [apply IH|].
      destruct (cancel_remaining (p :: ps) _) as [n st2]. eauto.
Qed.

(** Without a fatal outcome the loop requests no cancellation. *)
Lemma procesar_done_quiet (done : batch) :
  forall (pendientes : list endpoint) (st st' : cascade),
    no_fatal done ->
    procesar_done done pendientes st = Return st' ->
    canceladas_por_auth st' = canceladas_por_auth st
    /\ cancel_llamado st' = cancel_llamado st
    /\ terminadas st' = terminadas st.
Proof.
  induction done as [|[nombre r] rest IH]; intros pendientes st st' Hnf Hrun.
  - injection Hrun as <-. now repeat split.
  - apply no_fatal_cons in Hnf. destruct Hnf as [Hx Hnf]. cbn [snd] in Hx.
    destruct r as [v | e].
    + apply (IH _ _ _ Hnf) in Hrun. exact Hrun.
    + destruct e; try discriminate;
        apply (IH _ _ _ Hnf) in Hrun; exact Hrun.
Qed.

Lemma mem_app (t : endpoint) (xs ys : list endpoint) :
  mem t (xs ++ ys) = mem t xs || mem t ys.
Proof. unfold mem. apply existsb_app. Qed.

Lemma not_done_next (pendientes : list endpoint) (done : batch)
    (st : cascade) :
  not_done pendientes st ->
  not_done (still_pending pendientes done) (mark_done done st).
Proof.
  intros H t Ht. unfold still_pending in Ht. apply filter_In in Ht.
  destruct Ht as [Hin Hno]. cbn [mark_done terminadas].
  rewrite mem_app, (H t Hin). cbn. now apply negb_true_iff in Hno.
Qed.

Lemma still_pending_nil (done : batch) : still_pending [] done = [].
Proof. reflexivity. Qed.

Lemma pending_after_nil (pre : list batch) : pending_after pre [] = [].
Proof. induction pre as [|b pre IH]; [reflexivity | exact IH]. Qed.

(** The round in which the first fatal outcome is processed while tasks are
    pending. *)
Lemma procesar_done_fatal (d1 : batch) :
  forall (pendientes : list endpoint) (st : cascade) (f : endpoint)
         (d2 : batch),
    no_fatal d1 -> pendientes <> [] -> not_done pendientes st -> quiet st ->
    exists st',
      procesar_done (d1 ++ (f, Err Py.NoAutorizado) :: d2) pendientes st
      = Return st'
      /\ canceladas_por_auth st' = true
      /\ cancel_llamado st' = pendientes
      /\ In (fatal_entry f) (errores st')
      /\ (forall p, In p pendientes -> In (cancelled_entry p) (errores st')).
Proof.
  induction d1 as [|[nombre r] rest IH];
    intros pendientes st f d2 Hnf Hne Hnd [Hq1 Hq2].
  - cbn [app procesar_done].
    destruct pendientes as [|p ps]; [now elim Hne|].
    set (st1 := add_error {| err_endpoint := f;
                             err_error := str_of Py.NoAutorizado;
                             err_cancelada := false |} st).
    destruct (cancel_remaining_all (p :: ps) st1) as (A & B & C & D & E & F).
    { exact Hnd. }
    destruct (cancel_remaining (p :: ps) st1) as [n st2].
    cbn [fst snd] in *.
    destruct (report_cancelled_spec (p :: ps) (set_canceladas_por_auth st2))
      as (R1 & R2 & R3 & R4).
    cbv zeta in R1, R2, R3, R4.
    eexists. split; [reflexivity|].
    rewrite R1, R2, R3. cbn [set_canceladas_por_auth errores cancel_llamado
      canceladas_por_auth]. rewrite A, B. cbn [st1 add_error errores
      cancel_llamado]. rewrite Hq2.
    split; [reflexivity|]. split; [reflexivity|]. split.
    + apply in_app_iff. left. apply in_app_iff. right. now left.
    + intros q Hq. apply in_app_iff. right. now apply in_map.
  - apply no_fatal_cons in Hnf. destruct Hnf as [Hx Hnf]. cbn [snd] in Hx.
    cbn [app]. destruct r as [v | e].
    + cbn [procesar_done]. apply IH; try assumption. now split.
    + destruct e; try discriminate; cbn [procesar_done Py.is_Exception];
        apply IH; try assumption; now split.
Qed.

(** Nothing that follows a fatal outcome in its round is looked at. *)
Lemma procesar_done_stops (d1 : batch) :
  forall (pendientes : list endpoint) (st : cascade) (f : endpoint)
         (d2 d2' : batch),
    pendientes <> [] ->
    procesar_done (d1 ++ (f, Err Py.NoAutorizado) :: d2) pendientes st
    = procesar_done (d1 ++ (f, Err Py.NoAutorizado) :: d2') pendientes st.
Proof.
  induction d1 as [|[nombre r] rest IH]; intros pendientes st f d2 d2' Hne.
  - cbn [app procesar_done].
    destruct pendientes as [|p ps]; [now elim Hne | reflexivity].
  - cbn [app]. destruct r as [v | e].
    + cbn [procesar_done]. now apply IH.
    + destruct e; cbn [procesar_done Py.is_Exception]; try (now apply IH).
      destruct pendientes as [|p ps]; [now elim Hne | reflexivity].
Qed.

Lemma procesar_done_flag (d1 : batch) :
  forall (pendientes : list endpoint) (st st' : cascade) (f : endpoint)
         (d2 : batch),
    pendientes <> [] ->
    procesar_done (d1 ++ (f, Err Py.NoAutorizado) :: d2) pendientes st
    = Return st' ->
    canceladas_por_auth st' = true.
Proof.
  assert (Hfatal : forall pendientes st st' nombre rest,
            pendientes <> [] ->
            procesar_done ((nombre, Err Py.NoAutorizado) :: rest) pendientes st
            = Return st' ->
            canceladas_por_auth st' = true).
  { intros pendientes st st' nombre rest Hne Hrun.
    cbn [procesar_done] in Hrun.
    destruct pendientes as [|p ps]; [now elim Hne|].
    destruct (cancel_remaining (p :: ps) _) as [n st2].
    injection Hrun as <-.
    destruct (report_cancelled_spec (p :: ps) (set_canceladas_por_auth st2))
      as (_ & _ & R3 & _).
    cbv zeta in R3. exact R3. }
  induction d1 as [|[nombre r] rest IH];
    intros pendientes st st' f d2 Hne Hrun.
  - now apply (Hfatal pendientes st st' f d2).
  - cbn [app] in Hrun. destruct r as [v | e].
    + cbn [procesar_done] in Hrun. now apply IH in Hrun.
    + destruct e; try (now apply (Hfatal _ _ _ _ _ Hne Hrun));
        cbn [procesar_done Py.is_Exception] in Hrun; now apply IH in Hrun.
Qed.

Lemma esperar_never_raises (rondas : list batch) :
  forall (pendientes : list endpoint) (st : cascade) (e : Py.exn),
    esperar rondas pendientes st <> Raise e.
Proof.
  induction rondas as [|done rest IH]; intros pendientes st e;
    destruct pendientes as [|p ps]; try discriminate.
  cbn [esperar].
  destruct (procesar_done_returns done (still_pending (p :: ps) done)
              (mark_done done st)) as [st1 ->].
  destruct (canceladas_por_auth st1); [discriminate | apply IH].
Qed.

Lemma esperar_quiet (rondas : list batch) :
  forall (pendientes : list endpoint) (st st' : cascade),
    no_fatal (List.concat rondas) -> quiet st ->
    esperar rondas pendientes st = Return st' -> quiet st'.
Proof.
  induction rondas as [|done rest IH]; intros pendientes st st' Hnf Hq Hrun;
    destruct pendientes as [|p ps]; try discriminate;
    try (injection Hrun as <-; exact Hq).
  cbn [List.concat] in Hnf. apply no_fatal_app in Hnf. destruct Hnf as [Hd Hr].
  cbn [esperar] in Hrun.
  destruct (procesar_done_returns done (still_pending (p :: ps) done)
              (mark_done done st)) as [st1 E].
  rewrite E in Hrun.
  destruct (procesar_done_quiet done _ _ st1 Hd E) as (A & B & _).
  destruct Hq as [Hq1 Hq2]. cbn in A, B. rewrite Hq1 in A. rewrite Hq2 in B.
  rewrite A in Hrun. apply (IH _ _ _ Hr (conj A B) Hrun).
Qed.

Lemma esperar_cascade (pre : list batch) :
  forall (pendientes : list endpoint) (st : cascade) (d1 : batch)
         (f : endpoint) (d2 : batch) (post : list batch),
    let done := d1 ++ (f, Err Py.NoAutorizado) :: d2 in
    let pend := still_pending (pending_after pre pendientes) done in
    quiet st -> not_done pendientes st ->
    no_fatal (List.concat pre) -> no_fatal d1 -> pend <> [] ->
    exists st',
      esperar (pre ++ done :: post) pendientes st = Return st'
      /\ canceladas_por_auth st' = true
      /\ cancel_llamado st' = pend
      /\ In (fatal_entry f) (errores st')
      /\ (forall p, In p pend -> In (cancelled_entry p) (errores st')).
Proof.
  induction pre as [|b pre IH];
    intros pendientes st d1 f d2 post done pend Hq Hnd Hpre Hd1 Hne;
    (destruct pendientes as [|p ps];
     [exfalso; apply Hne; unfold pend;
      now rewrite pending_after_nil, still_pending_nil|]).
  - cbn [app esperar]. cbn [pending_after] in pend. fold pend.
    destruct (procesar_done_fatal d1 pend (mark_done done st) f d2 Hd1 Hne
                (not_done_next (p :: ps) done st Hnd) Hq)
      as (st' & E & A & B & C & D).
    fold done in E. rewrite E, A. exists st'. now repeat split.
  - cbn [List.concat] in Hpre. apply no_fatal_app in Hpre.
    destruct Hpre as [Hb Hpre].
    cbn [app esperar].
    destruct (procesar_done_returns b (still_pending (p :: ps) b)
                (mark_done b st)) as [st1 E].
    rewrite E.
    destruct (procesar_done_quiet b _ _ st1 Hb E) as (A & B & C).
    destruct Hq as [Hq1 Hq2]. cbn in A, B. rewrite Hq1 in A. rewrite Hq2 in B.
    rewrite A.
    apply IH; try assumption.
    + now split.
    + intros t Ht. rewrite C.
      now apply (not_done_next (p :: ps) b st Hnd).
Qed.

Lemma esperar_stops (pre : list batch) :
  forall (pendientes : list endpoint) (st : cascade) (d1 : batch)
         (f : endpoint) (d2 d2' : batch) (post post' : list batch),
    names d2' = names d2 ->
    still_pending (pending_after pre pendientes)
                  (d1 ++ (f, Err Py.NoAutorizado) :: d2) <> [] ->
    esperar (pre ++ (d1 ++ (f, Err Py.NoAutorizado) :: d2) :: post)
            pendientes st
    = esperar (pre ++ (d1 ++ (f, Err Py.NoAutorizado) :: d2') :: post')
              pendientes st.
Proof.
  induction pre as [|b pre IH];
    intros pendientes st d1 f d2 d2' post post' Hnames Hne;
    (destruct pendientes as [|p ps];
     [exfalso; apply Hne;
      now rewrite pending_after_nil, still_pending_nil|]).
  - cbn [app esperar]. cbn [pending_after] in Hne.
    assert (Hn : names (d1 ++ (f, Err Py.NoAutorizado) :: d2')
                 = names (d1 ++ (f, Err Py.NoAutorizado) :: d2)).
    { unfold names in *. rewrite !map_app. cbn [map]. now rewrite Hnames. }
    assert (Hp : still_pending (p :: ps) (d1 ++ (f, Err Py.NoAutorizado) :: d2')
                 = still_pending (p :: ps)
                     (d1 ++ (f, Err Py.NoAutorizado) :: d2)).
    { unfold still_pending. now rewrite Hn. }
    assert (Hm : mark_done (d1 ++ (f, Err Py.NoAutorizado) :: d2') st
                 = mark_done (d1 ++ (f, Err Py.NoAutorizado) :: d2) st).
    { unfold mark_done. now rewrite Hn. }
    rewrite Hp, Hm.
    rewrite (procesar_done_stops d1 _ _ f d2 d2' Hne).
    destruct (procesar_done (d1 ++ (f, Err Py.NoAutorizado) :: d2') _ _)
      as [st1|e|] eqn:E; try reflexivity.
    now rewrite (procesar_done_flag d1 _ _ st1 f d2' Hne E).
  - cbn [app esperar]. cbn [pending_after] in Hne.
    destruct (procesar_done b _ _) as [st1|e|]; try reflexivity.
    destruct (canceladas_por_auth st1); [reflexivity|].
    now apply IH.
Qed.

(** With nothing pending, a fatal outcome cancels nothing. *)
Lemma procesar_done_nil (done : batch) :
  forall st st' : cascade,
    procesar_done done [] st = Return st' ->
    canceladas_por_auth st' = canceladas_por_auth st
    /\ cancel_llamado st' = cancel_llamado st.
Proof.
  induction done as [|[nombre r] rest IH]; intros st st' Hrun.
  - injection Hrun as <-. now split.
  - destruct r as [v | e].
    + apply IH in Hrun. exact Hrun.
    + destruct e; try discriminate; apply IH in Hrun; exact Hrun.
Qed.

Lemma esperar_nothing_pending (rondas : list batch) (st : cascade) :
  esperar rondas [] st = Return st.
Proof. destruct rondas; reflexivity. Qed.

(** The round that settles the last pending tasks is the last one waited
    for, and without an earlier fatal outcome nothing gets cancelled. *)
Lemma esperar_last_round (pre : list batch) :
  forall (pendientes : list endpoint) (st st' : cascade) (done : batch)
         (post : list batch),
    still_pending (pending_after pre pendientes) done = [] ->
    no_fatal (List.concat pre) -> quiet st ->
    esperar (pre ++ done :: post) pendientes st = Return st' ->
    quiet st' /\ esperar (pre ++ [done]) pendientes st = Return st'.
Proof.
  induction pre as [|b pre IH];
    intros pendientes st st' done post Hnil Hpre Hq Hrun;
    (destruct pendientes as [|p ps];
     [rewrite esperar_nothing_pending in *; injection Hrun as <-;
      now split|]).
  - cbn [app esperar] in *. cbn [pending_after] in Hnil. rewrite Hnil in *.
    destruct (procesar_done done [] (mark_done done st)) as [st1|e|] eqn:E;
      try discriminate.
    destruct (procesar_done_nil done _ st1 E) as [A B].
    destruct Hq as [Hq1 Hq2]. cbn in A, B. rewrite Hq1 in A. rewrite Hq2 in B.
    rewrite A in *. rewrite esperar_nothing_pending in Hrun.
    injection Hrun as <-. now repeat split.
  - cbn [List.concat] in Hpre. apply no_fatal_app in Hpre.
    destruct Hpre as [Hb Hpre].
    cbn [app esperar] in *. cbn [pending_after] in Hnil.
    destruct (procesar_done b (still_pending (p :: ps) b) (mark_done b st))
      as [st1|e|] eqn:E; try discriminate.
    destruct (procesar_done_quiet b _ _ st1 Hb E) as (A & B & _).
    destruct Hq as [Hq1 Hq2]. cbn in A, B. rewrite Hq1 in A. rewrite Hq2 in B.
    rewrite A in *.
    apply (IH _ st1 st' done post Hnil Hpre (conj A B) Hrun).
Qed.

End CascadeFacts.

(** ** The tasks of the cascade run *)

Section TaskFacts.

Import Coordinador.

Lemma names_app (a b : batch) : names (a ++ b) = names a ++ names b.
Proof. unfold names. apply map_app. Qed.

Lemma failed_settlements_app (a b : batch) :
  failed_settlements (a ++ b) = failed_settlements a ++ failed_settlements b.
Proof. unfold failed_settlements. apply flat_map_app. Qed.

Lemma error_entries_app (a b : batch) :
  error_entries (a ++ b) = error_entries a ++ error_entries b.
Proof. unfold error_entries. now rewrite failed_settlements_app, map_app. Qed.

Lemma dato_de_app (t : endpoint) (a b : batch) (d0 : option string) :
  dato_de t (a ++ b) d0 = dato_de t b (dato_de t a d0).
Proof. unfold dato_de. apply fold_left_app. Qed.

Lemma in_failed_settlements (t : endpoint) (e : Py.exn) (seen : batch) :
  In (t, e) (failed_settlements seen) <-> In (t, Err e) seen.
Proof.
  unfold failed_settlements. rewrite in_flat_map. split.
  - intros ([n r] & Hin & H). cbn [fst snd] in H.
    destruct r as [v | e']; [now elim H|].
    destruct H as [H | []]. injection H as -> ->. exact Hin.
  - intro H. exists (t, Err e). split; [exact H | now left].
Qed.

Lemma in_error_entries (x : error_entry) (seen : batch) :
  In x (error_entries seen) <->
  exists t e, In (t, Err e) seen
              /\ x = {| err_endpoint := t; err_error := str_of e;
                        err_cancelada := false |}.
Proof.
  unfold error_entries. rewrite in_map_iff. split.
  - intros ([t e] & <- & H). exists t, e.
    split; [now apply in_failed_settlements | reflexivity].
  - intros (t & e & H & ->). exists (t, e).
    split; [reflexivity | now apply in_failed_settlements].
Qed.

(** A task that did not return leaves [datos[t]] as it was. *)
Lemma dato_de_unchanged (t : endpoint) (seen : batch) :
  forall d0, (forall v, ~ In (t, Ok v) seen) -> dato_de t seen d0 = d0.
Proof.
  induction seen as [|[n r] rest IH]; intros d0 H; [reflexivity|].
  unfold dato_de. cbn [fold_left fst snd]. fold (dato_de t rest).
  destruct r as [v | e].
  - destruct (endpoint_eqb t n) eqn:E.
    + apply endpoint_eqb_eq in E. subst n. elim (H v). now left.
    + apply IH. intros v' Hv'. apply (H v'). now right.
  - apply IH. intros v' Hv'. apply (H v'). now right.
Qed.

(** A task that always settles by returning [v], once it has. *)
Lemma dato_de_kept (t : endpoint) (v : option string) (seen : batch) :
  (forall r, In (t, r) seen -> r = Ok v) -> dato_de t seen v = v.
Proof.
  induction seen as [|[n r] rest IH]; intro H; [reflexivity|].
  unfold dato_de. cbn [fold_left fst snd]. fold (dato_de t rest).
  assert (Hrest : forall r', In (t, r') rest -> r' = Ok v)
    by (intros r' Hr'; apply H; now right).
  destruct r as [v' | e]; [|now apply IH].
  destruct (endpoint_eqb t n) eqn:E; [|now apply IH].
  apply endpoint_eqb_eq in E. subst n.
  assert (K : Ok v' = Ok v) by (apply H; now left).
  injection K as ->. now apply IH.
Qed.

Lemma dato_de_returned (t : endpoint) (v : option string) (seen : batch) :
  forall d0,
    (forall r, In (t, r) seen -> r = Ok v) ->
    In t (names seen) ->
    dato_de t seen d0 = v.
Proof.
  induction seen as [|[n r] rest IH]; intros d0 H Hin; [now elim Hin|].
  unfold dato_de. cbn [fold_left fst snd]. fold (dato_de t rest).
  assert (Hrest : forall r', In (t, r') rest -> r' = Ok v)
    by (intros r' Hr'; apply H; now right).
  destruct (endpoint_eqb t n) eqn:E.
  - apply endpoint_eqb_eq in E. subst n.
    assert (K : r = Ok v) by (apply H; now left). subst r.
    now apply dato_de_kept.
  - assert (Hin' : In t (names rest)).
    { destruct Hin as [Hn | Hn]; [|exact Hn].
      cbn in Hn. subst n. destruct t; discriminate E. }
    destruct r as [v' | e]; now apply IH.
Qed.

(** Data comes from a task that returned it. *)
Lemma dato_de_some (t : endpoint) (seen : batch) :
  forall d0 v, dato_de t seen d0 = Some v ->
               d0 = Some v \/ In (t, Ok (Some v)) seen.
Proof.
  induction seen as [|[n r] rest IH]; intros d0 v H; [now left|].
  unfold dato_de in H. cbn [fold_left fst snd] in H. fold (dato_de t rest) in H.
  destruct (IH _ _ H) as [K | K]; [|right; now right].
  destruct r as [v' | e]; [|now left].
  destruct (endpoint_eqb t n) eqn:E; [|now left].
  apply endpoint_eqb_eq in E. subst n v'. right. now left.
Qed.

(** Whatever the server answers, a request function returns or leaves with
    the [TypeError] of its first [except] clause. *)
Lemma tarea_settles (nombre : endpoint) (ex : exchange) :
  fst (tarea nombre ex tt) = Raise Py.TypeError
  \/ exists v, fst (tarea nombre ex tt) = Return v.
Proof.
  assert (V : forall response : Verificacion.response_t,
             Verificacion._verificar_respuesta response <> Hang).
  { intro response. unfold Verificacion._verificar_respuesta.
    repeat match goal with
           | |- context [if ?c then _ else _] => destruct c
           end; discriminate. }
  destruct nombre;
    unfold tarea, listar_productos, obtener_categorias, obtener_perfil,
      obtener_notificaciones, try_except, listar_productos_body, obtener_body;
    (destruct ex as [e | response body];
     [ left; reflexivity
     | pose proof (V response) as Hv;
       destruct (Verificacion._verificar_respuesta response) as [r | e |];
       [ destruct body as [[|repr []] | e];
         cbn; solve [left; reflexivity | right; eexists; reflexivity]
       | left; reflexivity
       | now elim Hv ] ]).
Qed.

(** An answer [401] is no exception to that. *)
Lemma tarea_401 (nombre : endpoint) (response : Verificacion.response_t)
    (body : response_body) :
  Verificacion.status response = 401%Z ->
  fst (tarea nombre (Response response body) tt) = Raise Py.TypeError.
Proof.
  intro H.
  assert (E : Verificacion._verificar_respuesta response
              = Raise Py.NoAutorizado).
  { unfold Verificacion._verificar_respuesta. rewrite H. reflexivity. }
  destruct nombre;
    unfold tarea, listar_productos, obtener_categorias, obtener_perfil,
      obtener_notificaciones, try_except, listar_productos_body, obtener_body;
    rewrite E; reflexivity.
Qed.

Lemma in_done_set (respuestas : endpoint -> exchange) (t : endpoint)
    (r : settlement) (terminan : list endpoint) :
  In (t, r) (done_set respuestas terminan) <->
  In t terminan
  /\ match fst (tarea t (respuestas t) tt) with
     | Return v => r = Ok v
     | Raise e => r = Err e
     | Hang => False
     end.
Proof.
  unfold done_set. rewrite in_flat_map. split.
  - intros (n & Hn & H).
    destruct (fst (tarea n (respuestas n) tt)) as [v | e |] eqn:E;
      [| |now elim H]; destruct H as [H | []]; injection H as -> <-;
      rewrite E; now split.
  - intros [Hn H]. exists t. split; [exact Hn|].
    destruct (fst (tarea t (respuestas t) tt)) as [v | e |];
      [| |now elim H]; subst r; now left.
Qed.

Lemma in_rondas (respuestas : endpoint -> exchange) (t : endpoint)
    (r : settlement) (rondas : list (list endpoint)) :
  In (t, r) (List.concat (map (done_set respuestas) rondas)) ->
  match fst (tarea t (respuestas t) tt) with
  | Return v => r = Ok v
  | Raise e => r = Err e
  | Hang => False
  end.
Proof.
  rewrite in_concat. intros (done & Hd & H).
  apply in_map_iff in Hd. destruct Hd as (terminan & <- & _).
  now apply in_done_set in H.
Qed.

Lemma rondas_only_TypeError (respuestas : endpoint -> exchange)
    (rondas : list (list endpoint)) :
  only_TypeError (List.concat (map (done_set respuestas) rondas)).
Proof.
  intros t e H. apply in_rondas in H.
  destruct (tarea_settles t (respuestas t)) as [E | (v & E)];
    rewrite E in H; [now injection H as -> | discriminate H].
Qed.

Lemma only_TypeError_app (a b : batch) :
  only_TypeError (a ++ b) <-> only_TypeError a /\ only_TypeError b.
Proof.
  unfold only_TypeError. split.
  - intro H. split; intros t e Hin; apply (H t e), in_app_iff; auto.
  - intros [Ha Hb] t e Hin. apply in_app_iff in Hin.
    destruct Hin; [eapply Ha | eapply Hb]; eassumption.
Qed.

(** One round in which every failure is a [TypeError]: each outcome is
    recorded and nothing else changes. *)
Lemma procesar_done_TypeError (done : batch) :
  forall (pendientes : list endpoint) (st : cascade),
    only_TypeError done ->
    exists st',
      procesar_done done pendientes st = Return st'
      /\ (forall t, datos st' t = dato_de t done (datos st t))
      /\ errores st' = errores st ++ error_entries done
      /\ canceladas_por_auth st' = canceladas_por_auth st
      /\ cancel_llamado st' = cancel_llamado st
      /\ terminadas st' = terminadas st.
Proof.
  induction done as [|[nombre r] rest IH]; intros pendientes st Hp.
  - exists st. cbn. rewrite app_nil_r. now repeat split.
  - assert (Hrest : only_TypeError rest)
      by (intros t e H; apply (Hp t e); now right).
    destruct r as [v | e].
    + cbn [procesar_done].
      match goal with
      | |- context [procesar_done rest pendientes ?s0] =>
          destruct (IH pendientes s0 Hrest) as (st' & E & A & B & C & D & F)
      end.
      exists st'. split; [exact E|].
      split; [intro t; rewrite A; reflexivity|]. now repeat split.
    + assert (e = Py.TypeError) by (apply (Hp nombre); now left). subst e.
      cbn [procesar_done Py.is_Exception].
      match goal with
      | |- context [procesar_done rest pendientes ?s0] =>
          destruct (IH pendientes s0 Hrest) as (st' & E & A & B & C & D & F)
      end.
      exists st'. split; [exact E|].
      split; [intro t; rewrite A; reflexivity|].
      split; [|now repeat split].
      rewrite B. cbn [add_error errores]. rewrite <- app_assoc. reflexivity.
Qed.

Lemma vistas_incl (rondas : list batch) :
  forall (pendientes : list endpoint) (x : endpoint * settlement),
    In x (vistas rondas pendientes) -> In x (List.concat rondas).
Proof.
  induction rondas as [|done rest IH]; intros pendientes x H;
    destruct pendientes as [|p ps]; try now elim H.
  cbn [vistas] in H. cbn [List.concat]. apply in_app_iff.
  apply in_app_iff in H. destruct H as [H | H]; [now left|].
  right. eapply IH. exact H.
Qed.

(** The loop over rounds in which every failure is a [TypeError]: it
    processes every round it waits for, records each outcome, cancels
    nothing, and ends only once every pending task was visited. *)
Lemma esperar_TypeError (rondas : list batch) :
  forall (pendientes : list endpoint) (st st' : cascade),
    only_TypeError (List.concat rondas) ->
    canceladas_por_auth st = false ->
    esperar rondas pendientes st = Return st' ->
    let seen := vistas rondas pendientes in
    (forall t, datos st' t = dato_de t seen (datos st t))
    /\ errores st' = errores st ++ error_entries seen
    /\ canceladas_por_auth st' = false
    /\ cancel_llamado st' = cancel_llamado st
    /\ (forall t, In t pendientes -> In t (names seen)).
Proof.
  induction rondas as [|done rest IH]; intros pendientes st st' Hp Hq Hrun;
    destruct pendientes as [|p ps]; try discriminate Hrun;
    try (cbn in Hrun; injection Hrun as <-; cbn; rewrite app_nil_r;
         repeat split; auto; intros t []).
  cbn [List.concat] in Hp. apply only_TypeError_app in Hp.
  destruct Hp as [Hd Hr].
  cbn [esperar] in Hrun. cbv zeta. cbn [vistas].
  set (pend' := still_pending (p :: ps) done) in *.
  destruct (procesar_done_TypeError done pend' (mark_done done st) Hd)
    as (st1 & E & A & B & C & D & _).
  rewrite E in Hrun. cbn [mark_done canceladas_por_auth] in C.
  rewrite Hq in C. rewrite C in Hrun.
  destruct (IH pend' st1 st' Hr C Hrun) as (A' & B' & C' & D' & F').
  split; [|split; [|split; [|split]]].
  - intro t. rewrite A', A, dato_de_app. reflexivity.
  - rewrite B', B, error_entries_app, app_assoc. reflexivity.
  - exact C'.
  - rewrite D', D. reflexivity.
  - intros t Ht. rewrite names_app. apply in_app_iff.
    destruct (mem t (names done)) eqn:M.
    + left. now apply mem_In.
    + right. apply F'. unfold pend', still_pending. apply filter_In.
      split; [exact Ht | now rewrite M].
Qed.

(** What the cascade run records when it returns. *)
Lemma cargar_dashboard_records (respuestas : endpoint -> exchange)
    (rondas : list (list endpoint)) (st : cascade) :
  cargar_dashboard_con_cancelacion respuestas rondas = Return st ->
  exists seen : batch,
    (forall t r, In (t, r) seen ->
                 match fst (tarea t (respuestas t) tt) with
                 | Return v => r = Ok v
                 | Raise e => r = Err e
                 | Hang => False
                 end)
    /\ only_TypeError seen
    /\ (forall t, In t todas_las_tareas -> In t (names seen))
    /\ (forall t, datos st t = dato_de t seen None)
    /\ errores st = error_entries seen
    /\ canceladas_por_auth st = false
    /\ cancel_llamado st = [].
Proof.
  unfold cargar_dashboard_con_cancelacion. intro Hrun.
  pose proof (rondas_only_TypeError respuestas rondas) as Hp.
  destruct (esperar_TypeError _ todas_las_tareas cascade_inicial st Hp
              eq_refl Hrun) as (A & B & C & D & F).
  exists (vistas (map (done_set respuestas) rondas) todas_las_tareas).
  split; [|split; [|repeat split; assumption]].
  - intros t r H. apply vistas_incl in H. now apply in_rondas in H.
  - intros t e H. apply vistas_incl in H. now apply (Hp t e).
Qed.

End TaskFacts.



(** ** Fan-out through the throttled client *)

Section FanOutFacts.

Import TokenBucket ThrottledClient Throttle.

Lemma lag_pos_nonneg (w : World) : lag_pos w -> lag_nonneg w.
Proof. intros H n. specialize (H n). lra. Qed.

Lemma acquire_loop_config (fuel : nat) :
  forall (inicio_espera : Q) (s : World * TokenBucket.t),
    lag_nonneg (fst s) ->
    same_config s (snd (acquire_loop fuel inicio_espera s))
    /\ now (fst s) <= now (fst (snd (acquire_loop fuel inicio_espera s))).
Proof.
  induction fuel as [|fuel IH]; intros inicio [w b] Hlag.
  - split; [apply same_config_refl | cbn; lra].
  - cbn [acquire_loop time_time fst snd] in *.
    pose proof (Hlag (tick w)) as H0. pose proof (Hlag (S (tick w))) as H1.
    set (t := (now w + lag w (tick w))%Q) in *.
    destruct (Qle_bool 1 (tokens (refill t b))).
    + split; [now repeat split | cbn; unfold t; lra].
    + destruct (Qeq_bool (tokens_per_second (refill t b)) 0).
      * split; [now repeat split | cbn; unfold t; lra].
      * match goal with
        | |- context [acquire_loop fuel inicio ?s'] =>
            destruct (IH inicio s' Hlag) as [A B]
        end.
        split.
        -- eapply same_config_trans; [|exact A]. now repeat split.
        -- eapply Qle_trans; [|exact B]. cbn.
           unfold t. destruct (Py.Qltb 0 _) eqn:P; [apply Qltb_true in P|]; lra.
Qed.

(** With room for one token and a positive rate, the second pass at the
    latest grants. *)
Lemma acquire_loop_returns (k : nat) (inicio_espera : Q)
    (s : World * TokenBucket.t) :
  lag_nonneg (fst s) ->
  (1 <= max_tokens (snd s))%Z -> 0 < tokens_per_second (snd s) ->
  exists wait s', acquire_loop (S (S k)) inicio_espera s = (Return wait, s').
Proof.
  destruct s as [w b]. cbn [fst snd]. intros Hlag Hcap Hrate.
  assert (Hcap' : 1 <= inject_Z (max_tokens b)).
  { change 1 with (inject_Z 1). now rewrite <- Zle_Qle. }
  cbn [acquire_loop time_time fst snd].
  set (t := (now w + lag w (tick w))%Q).
  destruct (Qle_bool 1 (tokens (refill t b))) eqn:E; [eauto|].
  assert (Hz : Qeq_bool (tokens_per_second (refill t b)) 0 = false).
  { destruct (Qeq_bool _ 0) eqn:Z; [|reflexivity].
    apply Qeq_bool_iff in Z. cbn in Z. lra. }
  rewrite Hz.
  set (b1 := refill t b).
  set (d := (1 - tokens b1) / tokens_per_second b1).
  apply Qle_bool_false in E. fold b1 in E.
  assert (Hd : 0 < d) by (apply sleep_positive; assumption).
  assert (Hdr : d * tokens_per_second b1 == 1 - tokens b1).
  { unfold d. field. cbn. lra. }
  cbn [asyncio_sleep elapse log now lag tick trace].
  assert (Hq : Py.Qltb 0 d = true) by now apply Qltb_true.
  rewrite Hq.
  set (t2 := (t + d + lag w (S (tick w)))%Q).
  assert (Hgrant : Qle_bool 1 (tokens (refill t2 b1)) = true).
  { apply Qle_bool_iff. unfold refill at 1. cbn [tokens set_tokens
      set_last_refill]. apply min_glb; [exact Hcap'|].
    assert (Hl : last_refill b1 = t) by reflexivity. rewrite Hl.
    pose proof (Hlag (S (tick w))) as Hl1.
    assert (d * tokens_per_second b1
            <= (t2 - t) * tokens_per_second b1).
    { apply Qmult_le_compat_r; [unfold t2; lra | cbn; lra]. }
    lra. }
  rewrite Hgrant. eauto.
Qed.

Lemma acquire_returns (k : nat) (s : World * TokenBucket.t) :
  lag_nonneg (fst s) ->
  (1 <= max_tokens (snd s))%Z -> 0 < tokens_per_second (snd s) ->
  exists wait s',
    TokenBucket.acquire (S (S k)) s = (Return wait, s')
    /\ same_config s s' /\ now (fst s) <= now (fst s').
Proof.
  intros Hlag Hcap Hrate. destruct s as [w b]. unfold TokenBucket.acquire.
  cbn [time_time fst snd] in *.
  set (s1 := ({| now := now w + lag w (tick w); lag := lag w;
                 tick := S (tick w); trace := trace w |}, b)).
  destruct (acquire_loop_returns k (now w + lag w (tick w)) s1 Hlag Hcap Hrate)
    as (wait & s' & E).
  destruct (acquire_loop_config (S (S k)) (now w + lag w (tick w)) s1 Hlag)
    as [A B].
  rewrite E in A, B. cbn [snd fst] in A, B.
  exists wait, s'. split; [exact E|]. split.
  - eapply same_config_trans; [|exact A]. now repeat split.
  - eapply Qle_trans; [|exact B]. cbn. pose proof (Hlag (tick w)). lra.
Qed.

Lemma after_rate_returns (k : nat) (s : World * ThrottledClient.t) :
  client_ready s ->
  exists wait s1,
    after_rate (S (S k)) s = (Return wait, s1)
    /\ client_ready s1
    /\ now (fst s) <= now (fst s1)
    /\ metrics (snd s1) = metrics (snd s)
    /\ concurrency_limiter (snd s1) = concurrency_limiter (snd s).
Proof.
  intros (Hlag & Hcap & Hrate & Hsem). destruct s as [w c].
  cbn [fst snd] in *.
  destruct (acquire_returns k (w, RateLimiter.bucket (rate_limiter c))
              (lag_pos_nonneg w Hlag) Hcap Hrate)
    as (wait & [w1 b1] & E & (C1 & C2 & C3) & Hnow).
  cbn [fst snd] in *.
  unfold after_rate, zoom, RateLimiter.__aenter__, bind, zoom, modify, ret.
  cbn [fst snd]. rewrite E. cbn [fst snd].
  eexists. eexists. split; [reflexivity|].
  unfold client_ready. cbn [fst snd rate_limiter set_rate_limiter
    RateLimiter.bucket RateLimiter.set_bucket concurrency_limiter metrics].
  repeat split; try assumption.
  - unfold lag_pos. now rewrite C3.
  - now rewrite C1.
  - now rewrite C2.
Qed.

(** The [try] statement, by what the exchange does. *)
Lemma attempt_outcome (json_data : option string) (ex : exchange)
    (s : World * ThrottledClient.t) :
  let r := attempt json_data ex s in
  total_requests (metrics (snd (snd r)))
  = (total_requests (metrics (snd s)) + 1)%Z
  /\ now (fst s) <= now (fst (snd r))
  /\ (exchange_ok ex = true ->
      exists v, fst r = Return (Some v) /\ is_valid_producto v = true)
  /\ (exchange_ok ex = false ->
      fst r = Return None
      \/ (exists v, fst r = Return (Some v) /\ is_valid_producto v = false)
      \/ (exists e, fst r = Raise e /\ Py.is_Exception e = true)).
Proof.
  destruct s as [w c].
  assert (Hel : forall d, now w <= now (elapse d w)).
  { intro d. cbn. destruct (Py.Qltb 0 d) eqn:P;
      [apply Qltb_true in P|]; lra. }
  unfold attempt, try_except, try_body, session_request, handlers,
    update_metrics, suspend, bind, modify, raise, ret.
  cbn [fst snd].
  destruct ex as [e dur | status body dur].
  - destruct json_data as [d|]; cbn [fst snd];
      (split; [destruct e; reflexivity|]);
      (split; [destruct e; apply Hel|]);
      (split; [discriminate|]); intros _; right; right;
      destruct e; cbn; eexists; split; reflexivity.
  - cbn [exchange_ok].
    destruct json_data as [d|]; cbn [fst snd];
      destruct (500 <=? status)%Z eqn:E5;
      destruct (400 <=? status)%Z eqn:E4;
      try (exfalso; apply Z.leb_le in E5; apply Z.leb_gt in E4; lia);
      try (cbn; split; [reflexivity|]; split; [apply Hel|];
           split; [destruct body; discriminate|];
           intros _; right; right; eexists; split; [reflexivity|];
           reflexivity);
      destruct (status =? 204)%Z eqn:E2;
      try (cbn; split; [reflexivity|]; split; [apply Hel|];
           split; [destruct body; discriminate|];
           intros _; now left);
      destruct body as [v | e];
      try (cbn; split; [reflexivity|]; split; [apply Hel|]; split;
           [intro H; exists v; now split
           |intro H; right; left; exists v; now split]);
      cbn [fst snd]; (split; [destruct e; reflexivity|]);
      (split; [destruct e; apply Hel|]);
      (split; [discriminate|]); intros _; right; right;
      destruct e; cbn; eexists; split; reflexivity.
Qed.

(** One product creation on a ready client: it settles, by what its own
    exchange does, and leaves the client ready. *)
Lemma crear_producto_settles (k : nat) (p : string) (ex : exchange)
    (s : World * ThrottledClient.t) :
  client_ready s ->
  exists r s',
    crear_producto (S (S k)) p ex s = (r, s')
    /\ client_ready s'
    /\ now (fst s) <= now (fst s')
    /\ total_requests (metrics (snd s'))
       = (total_requests (metrics (snd s)) + 1)%Z
    /\ (exchange_ok ex = true -> exists v, r = Return v)
    /\ (exchange_ok ex = false ->
        exists e, r = Raise e /\ Py.is_Exception e = true).
Proof.
  intro Hready.
  destruct (after_rate_returns k s Hready)
    as (wait & s1 & E & (Hlag & Hcap & Hrate & Hsem) & Hnow & Hm & Hc).
  pose proof (request_cases (S (S k)) (Some p) ex s) as C.
  rewrite E in C.
  assert (Henter : ConcurrencyLimiter.try_aenter (concurrency_limiter (snd s1))
                   = Some (ConcurrencyLimiter.enter
                             (concurrency_limiter (snd s1)))).
  { unfold ConcurrencyLimiter.try_aenter.
    apply Z.ltb_lt in Hsem. now rewrite Hsem. }
  rewrite Henter in C. cbv zeta in C.
  set (s2 := (fst s1, set_concurrency_limiter
                        (ConcurrencyLimiter.enter
                           (concurrency_limiter (snd s1))) (snd s1))) in *.
  destruct (attempt_frame (Some p) ex s2) as (F1 & F2 & F3 & F4 & F5).
  destruct (attempt_outcome (Some p) ex s2) as (O1 & O2 & O3 & O4).
  unfold crear_producto, bind. rewrite C.
  set (r := attempt (Some p) ex s2) in *.
  set (s3 := (fst (snd r),
              set_concurrency_limiter
                (fst (ConcurrencyLimiter.aexit None
                        (concurrency_limiter (snd (snd r)))))
                (snd (snd r)))).
  assert (Hready3 : client_ready s3).
  { unfold client_ready, s3. cbn [fst snd set_concurrency_limiter
      rate_limiter concurrency_limiter ConcurrencyLimiter.aexit
      ConcurrencyLimiter.semaphore].
    rewrite F1, F2. cbn [s2 fst snd set_concurrency_limiter rate_limiter
      concurrency_limiter ConcurrencyLimiter.enter
      ConcurrencyLimiter.semaphore].
    repeat split; try assumption.
    - unfold lag_pos. rewrite F3. exact Hlag.
    - lia. }
  assert (Hnow3 : now (fst s) <= now (fst s3)).
  { eapply Qle_trans; [exact Hnow|]. exact O2. }
  assert (Htot : total_requests (metrics (snd s3))
                 = (total_requests (metrics (snd s)) + 1)%Z).
  { unfold s3. cbn [fst snd set_concurrency_limiter metrics].
    rewrite O1. cbn [s2 fst snd set_concurrency_limiter metrics].
    now rewrite Hm. }
  destruct (exchange_ok ex) eqn:Eok.
  - destruct (O3 eq_refl) as (v & Hr & Hv). rewrite Hr.
    unfold validar_producto. rewrite Hv. unfold ret.
    eexists. eexists. split; [reflexivity|].
    split; [exact Hready3|]. split; [exact Hnow3|]. split; [exact Htot|].
    split; [intros _; eauto | intro H; discriminate H].
  - destruct (O4 eq_refl) as [Hr | [(v & Hr & Hv) | (e & Hr & He)]];
      rewrite Hr; unfold validar_producto; try rewrite Hv; unfold raise;
      (eexists; eexists; split; [reflexivity|]);
      (split; [exact Hready3|]); (split; [exact Hnow3|]);
      (split; [exact Htot|]);
      (split; [intro H; discriminate H|]);
      intros _; eexists; (split; [reflexivity|]); auto.
Qed.

Lemma filter_length_split {A} (f : A -> bool) (xs : list A) :
  (List.length (filter f xs)
   + List.length (filter (fun x => negb (f x)) xs))%nat = List.length xs.
Proof.
  induction xs as [|x xs IH]; [reflexivity|].
  cbn. destruct (f x); cbn; lia.
Qed.

(** The gathered creations on a ready client: every one runs, and the results
    that are exceptions are those of the failing exchanges. *)
Lemma gather_settles (k : nat) (exs : nat -> exchange) (idx : list nat) :
  forall s : World * ThrottledClient.t,
    client_ready s ->
    exists rs s',
      gather (map (fun i => crear_producto (S (S k)) (producto i) (exs i)) idx)
             s
      = (Return rs, s')
      /\ client_ready s'
      /\ now (fst s) <= now (fst s')
      /\ total_requests (metrics (snd s'))
         = (total_requests (metrics (snd s)) + Z.of_nat (List.length idx))%Z
      /\ List.length rs = List.length idx
      /\ List.length (filter isinstance_Exception rs)
         = List.length (filter (fun i => negb (exchange_ok (exs i))) idx).
Proof.
  induction idx as [|i idx IH]; intros s Hready.
  - exists [], s. cbn [map gather List.length filter].
    split; [reflexivity|]. split; [exact Hready|]. split; [lra|].
    split; [cbn; lia|]. split; reflexivity.
  - cbn [map gather].
    destruct (crear_producto_settles k (producto i) (exs i) s Hready)
      as (r & s1 & E & Hready1 & Hnow1 & Htot1 & Hok & Hfail).
    rewrite E.
    destruct (IH s1 Hready1) as (rs & s2 & G & Hready2 & Hnow2 & Htot2
                                 & Hlen & Hcount).
    destruct (exchange_ok (exs i)) eqn:Eok.
    + destruct (Hok eq_refl) as (v & ->).
      unfold bind, ret. rewrite G.
      eexists. eexists. split; [reflexivity|].
      split; [exact Hready2|]. split; [lra|].
      split; [rewrite Htot2, Htot1; cbn [List.length]; lia|].
      split; [cbn [List.length]; now rewrite Hlen|].
      cbn [filter isinstance_Exception]. rewrite Eok. cbn [negb].
      exact Hcount.
    + destruct (Hfail eq_refl) as (e & -> & He).
      unfold bind, ret. rewrite G.
      eexists. eexists. split; [reflexivity|].
      split; [exact Hready2|]. split; [lra|].
      split; [rewrite Htot2, Htot1; cbn [List.length]; lia|].
      split; [cbn [List.length]; now rewrite Hlen|].
      cbn [filter isinstance_Exception].
      rewrite He, Eok.
      cbn [negb List.length]. now rewrite Hcount.
Qed.

End FanOutFacts.




(** * Further properties *)

(** ** The throttled request: metrics and slots *)

Section RequestMoreFacts.

Import ThrottledClient.

(** What the [try] statement does to the counters. *)
Lemma attempt_delta (json_data : option string) (ex : exchange)
    (s : World * ThrottledClient.t) :
  let m := metrics (snd s) in
  let r := attempt json_data ex s in
  let m' := metrics (snd (snd r)) in
  total_requests m' = (total_requests m + 1)%Z
  /\ ((successful_requests m' = (successful_requests m + 1)%Z
       /\ failed_requests m' = failed_requests m
       /\ exists v, fst r = Return v)
      \/ (successful_requests m' = successful_requests m
          /\ (failed_requests m' = (failed_requests m + 1)%Z
              \/ failed_requests m' = failed_requests m)
          /\ exists e, fst r = Raise e))
  /\ total_bytes_sent m'
     = (total_bytes_sent m
        + match json_data with Some d => len_str d | None => 0 end)%Z
  /\ (total_bytes_received m <= total_bytes_received m')%Z.
Proof.
  destruct s as [w c].
  assert (Hlen : forall x, (0 <= len_str x)%Z)
    by (intro x; apply Nat2Z.is_nonneg).
  unfold attempt, try_except, try_body, session_request, handlers,
    update_metrics, suspend, bind, modify, raise, ret.
  cbn [fst snd].
  assert (T : forall (P Q : Prop), Q -> P \/ Q) by tauto.
  destruct ex as [e dur | status body dur].
  - destruct json_data as [d|]; destruct e; cbn;
      (split; [reflexivity|]);
      (split; [right; split; [reflexivity|]; split; [tauto|]; eauto|]);
      split; lia.
  - destruct json_data as [d|]; cbn [fst snd];
      destruct (500 <=? status)%Z;
      try (cbn; split; [reflexivity|];
           split; [right; split; [reflexivity|]; split; [tauto|]; eauto|];
           split; lia);
      destruct (400 <=? status)%Z;
      try (cbn; split; [reflexivity|];
           split; [right; split; [reflexivity|]; split; [tauto|]; eauto|];
           split; lia);
      destruct (status =? 204)%Z;
      try (cbn; split; [reflexivity|];
           split; [left; split; [reflexivity|]; split; [reflexivity|]; eauto|];
           split; lia);
      destruct body as [v | e];
      try (cbn; split; [reflexivity|];
           split; [left; split; [reflexivity|]; split; [reflexivity|]; eauto|];
           split; [lia | pose proof (Hlen (json_str v)); lia]);
      destruct e; cbn; (split; [reflexivity|]);
      (split; [right; split; [reflexivity|]; split; [tauto|]; eauto|]);
      split; lia.
Qed.

(** The metrics after [_request]: those of the [try] statement when the
    request executes, untouched otherwise. *)
Lemma request_metrics (fuel : nat) (json_data : option string)
    (ex : exchange) (s : World * ThrottledClient.t) :
  (exists s2,
      metrics (snd s2) = metrics (snd s)
      /\ metrics (snd (snd (_request fuel json_data ex s)))
         = metrics (snd (snd (attempt json_data ex s2)))
      /\ fst (_request fuel json_data ex s) = fst (attempt json_data ex s2)
      /\ executes fuel s)
  \/ (metrics (snd (snd (_request fuel json_data ex s))) = metrics (snd s)
      /\ ~ executes fuel s
      /\ forall v, fst (_request fuel json_data ex s) <> Return v).
Proof.
  pose proof (request_cases fuel json_data ex s) as C.
  pose proof (after_rate_frame fuel s) as [Hm Hc].
  unfold executes.
  destruct (after_rate fuel s) as [[wait|e|] s1] eqn:E; cbn [fst snd] in *.
  - destruct (ConcurrencyLimiter.try_aenter (concurrency_limiter (snd s1)))
      as [l|] eqn:L.
    + left. cbv zeta in C.
      exists (fst s1, set_concurrency_limiter l (snd s1)).
      rewrite C. cbn [fst snd set_concurrency_limiter metrics].
      repeat split; try assumption. exists wait, s1, l. now split.
    + right. rewrite C. cbn [fst snd]. split; [exact Hm|]. split.
      * intros (wait' & s1' & l & H1 & H2). injection H1 as _ <-. congruence.
      * discriminate.
  - right. rewrite C. cbn [fst snd]. split; [exact Hm|]. split.
    + intros (wait' & s1' & l & H1 & _). discriminate.
    + discriminate.
  - right. rewrite C. cbn [fst snd]. split; [exact Hm|]. split.
    + intros (wait' & s1' & l & H1 & _). discriminate.
    + discriminate.
Qed.

End RequestMoreFacts.

(** X1.  Whatever a call of [_request] does, it adds at most one to
    [total_requests], no counter ever decreases, and the successes and
    failures it adds never exceed the requests it adds; a call that returns a
    value has counted one request and one success. *)
Theorem metrics_accounting (fuel : nat) (json_data : option string)
    (ex : ThrottledClient.exchange) (s : World * ThrottledClient.t) :
  let r := ThrottledClient._request fuel json_data ex s in
  let m := ThrottledClient.metrics (snd s) in
  let m' := ThrottledClient.metrics (snd (snd r)) in
  (ThrottledClient.total_requests m <= ThrottledClient.total_requests m'
   <= ThrottledClient.total_requests m + 1)%Z
  /\ (ThrottledClient.successful_requests m
      <= ThrottledClient.successful_requests m')%Z
  /\ (ThrottledClient.failed_requests m
      <= ThrottledClient.failed_requests m')%Z
  /\ (ThrottledClient.total_bytes_sent m
      <= ThrottledClient.total_bytes_sent m')%Z
  /\ (ThrottledClient.total_bytes_received m
      <= ThrottledClient.total_bytes_received m')%Z
  /\ ((ThrottledClient.successful_requests m'
       - ThrottledClient.successful_requests m)
      + (ThrottledClient.failed_requests m'
         - ThrottledClient.failed_requests m)
      <= ThrottledClient.total_requests m'
         - ThrottledClient.total_requests m)%Z
  /\ (forall v, fst r = Return v ->
        ThrottledClient.total_requests m'
        = (ThrottledClient.total_requests m + 1)%Z
        /\ ThrottledClient.successful_requests m'
           = (ThrottledClient.successful_requests m + 1)%Z
        /\ ThrottledClient.failed_requests m'
           = ThrottledClient.failed_requests m).
Proof.
  cbv zeta.
  assert (Hlen : forall x, (0 <= ThrottledClient.len_str x)%Z)
    by (intro x; apply Nat2Z.is_nonneg).
  destruct (request_metrics fuel json_data ex s)
    as [(s2 & Hm & Hm' & Hr & _) | (Hm & _ & Hr)].
  - pose proof (attempt_delta json_data ex s2) as D. cbv zeta in D.
    rewrite Hm', Hr. rewrite Hm in D.
    destruct D as (D1 & D2 & D3 & D4).
    assert (Hd : (0 <= match json_data with
                       | Some d => ThrottledClient.len_str d
                       | None => 0
                       end)%Z) by (destruct json_data; [apply Hlen | lia]).
    split; [lia|].
    split; [destruct D2 as [(A & B & _) | (A & [B | B] & _)]; lia|].
    split; [destruct D2 as [(A & B & _) | (A & [B | B] & _)]; lia|].
    split; [lia|]. split; [lia|].
    split; [destruct D2 as [(A & B & _) | (A & [B | B] & _)]; lia|].
    intros v Hv. split; [exact D1|].
    destruct D2 as [(A & B & _) | (_ & _ & e & He)]; [now split|].
    rewrite Hv in He. discriminate.
  - rewrite Hm. repeat split; try lia; now elim (Hr v).
Qed.


(** X2.  [_request] leaves the concurrency limiter as it found it, whether
    it returns, raises or never gets past a limiter: the slot taken for the
    exchange is always given back, and [in_flight] is back to its value. *)
Theorem slot_always_released (fuel : nat) (json_data : option string)
    (ex : ThrottledClient.exchange) (s : World * ThrottledClient.t) :
  let before := ThrottledClient.concurrency_limiter (snd s) in
  let after :=
    ThrottledClient.concurrency_limiter
      (snd (snd (ThrottledClient._request fuel json_data ex s))) in
  ConcurrencyLimiter.in_flight after = ConcurrencyLimiter.in_flight before
  /\ ConcurrencyLimiter.semaphore after = ConcurrencyLimiter.semaphore before
  /\ ConcurrencyLimiter.max_concurrent after
     = ConcurrencyLimiter.max_concurrent before.
Proof.
  cbv zeta.
  pose proof (request_cases fuel json_data ex s) as C.
  pose proof (after_rate_frame fuel s) as [_ Hc].
  destruct (after_rate fuel s) as [[wait|e|] s1]; cbn [fst snd] in *;
    try (rewrite C; cbn [fst snd]; rewrite Hc; now repeat split).
  unfold ConcurrencyLimiter.try_aenter in C.
  destruct (0 <? ConcurrencyLimiter.semaphore
                   (ThrottledClient.concurrency_limiter (snd s1)))%Z;
    [|rewrite C; cbn [fst snd]; rewrite Hc; now repeat split].
  cbv zeta in C. rewrite C.
  cbn [fst snd ThrottledClient.set_concurrency_limiter
    ThrottledClient.concurrency_limiter].
  match goal with
  | |- context [attempt json_data ex ?s2] =>
      destruct (attempt_frame json_data ex s2) as (_ & F & _)
  end.
  rewrite F.
  cbn [fst snd ThrottledClient.set_concurrency_limiter
    ThrottledClient.concurrency_limiter ConcurrencyLimiter.aexit
    ConcurrencyLimiter.enter ConcurrencyLimiter.in_flight
    ConcurrencyLimiter._in_flight ConcurrencyLimiter.semaphore
    ConcurrencyLimiter.max_concurrent].
  rewrite <- Hc. unfold ConcurrencyLimiter.in_flight. repeat split; lia.
Qed.

(** X3.  The bytes of the payload are counted in [total_bytes_sent] before
    the exchange takes place: a request that executes adds len(str(json_data))
    to the counter (nothing without a payload) whatever the exchange then
    does, a failure included. *)
Theorem bytes_sent_counted_before_exchange (fuel : nat)
    (json_data : option string) (ex : ThrottledClient.exchange)
    (s : World * ThrottledClient.t) :
  executes fuel s ->
  ThrottledClient.total_bytes_sent
    (ThrottledClient.metrics
       (snd (snd (ThrottledClient._request fuel json_data ex s))))
  = (ThrottledClient.total_bytes_sent (ThrottledClient.metrics (snd s))
     + match json_data with
       | Some d => ThrottledClient.len_str d
       | None => 0
       end)%Z.
Proof.
  intro Hex.
  destruct (request_metrics fuel json_data ex s)
    as [(s2 & Hm & Hm' & _ & _) | (_ & Hno & _)]; [|now elim Hno].
  pose proof (attempt_delta json_data ex s2) as D. cbv zeta in D.
  destruct D as (_ & _ & D3 & _). now rewrite Hm', D3, Hm.
Qed.

(** A fresh client whose creation request of 12 characters is answered 500. *)
Lemma bytes_sent_counted_before_exchange_witness :
  let w := {| now := 0; lag := fun _ => 0; tick := 0; trace := [] |} in
  exists c w1,
    ThrottledClient.__init__ 10 20 w = (Return c, w1)
    /\ ThrottledClient.total_bytes_sent
         (ThrottledClient.metrics
            (snd (snd (ThrottledClient._request 2 (Some "{'stock': 1}"%string)
                         (ThrottledClient.Response 500
                            (ThrottledClient.JsonFails Py.ContentTypeError)
                            (1 # 10))
                         (w1, c)))))
       = 12%Z.
Proof.
  intro w.
  destruct (ThrottledClient.__init__ 10 20 w) as [[c| |] w1] eqn:E;
    try (vm_compute in E; discriminate).
  exists c, w1. split; [reflexivity|].
  assert (Hc : (Return c, w1) = ThrottledClient.__init__ 10 20 w)
    by (now rewrite E).
  vm_compute in Hc. injection Hc as Hc Hw. subst c w1.
  apply (bytes_sent_counted_before_exchange 2 (Some "{'stock': 1}"%string)).
  eexists. eexists. eexists. split; vm_compute; reflexivity.
Defined.


(** ** The token bucket: waits, bursts and edge rates *)

Section BucketMoreFacts.

Import TokenBucket.

Lemma elapse_now (d : Q) (w : World) :
  now w + d <= now (elapse d w) /\ now w <= now (elapse d w).
Proof.
  cbn. destruct (Py.Qltb 0 d) eqn:P.
  - apply Qltb_true in P. split; lra.
  - apply Qltb_false in P. split; lra.
Qed.

(** The loop, when it returns: what it slept, how long it took. *)
Lemma acquire_loop_wait (fuel : nat) :
  forall (inicio_espera wait : Q) (w w' : World) (b b' : TokenBucket.t),
    acquire_loop fuel inicio_espera (w, b) = (Return wait, (w', b')) ->
    lag_nonneg w ->
    exists sleeps,
      sleeps_logged (trace w') = rev sleeps ++ sleeps_logged (trace w)
      /\ wait = now w' - inicio_espera
      /\ sum_Q sleeps <= now w' - now w
      /\ (List.length sleeps < fuel)%nat.
Proof.
  induction fuel as [|fuel IH]; intros inicio wait w w' b b' Hrun Hlag.
  - discriminate.
  - cbn [acquire_loop time_time fst snd] in Hrun.
    pose proof (Hlag (tick w)) as H0. pose proof (Hlag (S (tick w))) as H1.
    set (t := (now w + lag w (tick w))%Q) in *.
    destruct (Qle_bool 1 (tokens (refill t b))).
    + injection Hrun as <- <- <-. exists [].
      cbn. unfold t. repeat split; try lra; lia.
    + destruct (Qeq_bool (tokens_per_second (refill t b)) 0);
        [discriminate|].
      match type of Hrun with
      | acquire_loop fuel inicio (?w2, ?b2) = _ =>
          destruct (IH inicio wait w2 w' b2 b' Hrun Hlag)
            as (sleeps & Hlog & Hwait & Hsum & Hlen);
          pose proof (elapse_now
                        ((1 - tokens (refill t b))
                         / tokens_per_second (refill t b))
                        (log (EvTokens (tokens (refill t b)))
                           {| now := t; lag := lag w; tick := S (tick w);
                              trace := trace w |})) as [He _]
      end.
      exists ((1 - tokens (refill t b)) / tokens_per_second (refill t b)
              :: sleeps).
      split; [|split; [exact Hwait|split; [|cbn; lia]]].
      * rewrite Hlog. cbn [rev]. rewrite <- app_assoc. reflexivity.
      * cbn [sum_Q fold_right]. fold (sum_Q sleeps).
        cbn [asyncio_sleep log now] in He, Hsum. unfold t in *.
        cbn [asyncio_sleep elapse log now] in *. lra.
Qed.

End BucketMoreFacts.

(** X4.  When [acquire] returns, the wait it reports is the clock time since
    it was entered: under a clock that never runs backwards it is not
    negative and covers at least the delays the call slept, and a call
    allowed [fuel] passes has slept fewer than [fuel] times. *)
Theorem wait_covers_sleeps (fuel : nat) (wait : Q) (w w' : World)
    (b b' : TokenBucket.t) :
  TokenBucket.acquire fuel (w, b) = (Return wait, (w', b')) ->
  lag_nonneg w ->
  exists sleeps,
    sleeps_logged (trace w') = rev sleeps ++ sleeps_logged (trace w)
    /\ sum_Q sleeps <= wait
    /\ 0 <= wait
    /\ wait = now w' - (now w + lag w (tick w))
    /\ (List.length sleeps < fuel)%nat.
Proof.
  intros Hrun Hlag. unfold TokenBucket.acquire in Hrun.
  cbn [time_time fst snd] in Hrun.
  destruct (acquire_loop_wait fuel _ wait _ w' b b' Hrun Hlag)
    as (sleeps & Hlog & Hwait & Hsum & Hlen).
  destruct (acquire_loop_config fuel (now w + lag w (tick w))
              ({| now := now w + lag w (tick w); lag := lag w;
                  tick := S (tick w); trace := trace w |}, b) Hlag)
    as [_ Hmono].
  rewrite Hrun in Hmono. cbn [fst snd now] in Hmono, Hsum.
  exists sleeps. subst wait.
  repeat split; try assumption; try reflexivity; lra.
Qed.

(** An empty bucket refilled at two tokens per second: one sleep of half a
    second. *)
Lemma wait_covers_sleeps_witness :
  let w := {| now := 0; lag := fun _ => 1 # 100; tick := 0; trace := [] |} in
  let b := {| TokenBucket.max_tokens := 2; TokenBucket.tokens_per_second := 2;
              TokenBucket.tokens := 0; TokenBucket.last_refill := 0 |} in
  exists wait w' b' sleeps,
    TokenBucket.acquire 2 (w, b) = (Return wait, (w', b'))
    /\ sleeps_logged (trace w') = rev sleeps
    /\ sum_Q sleeps <= wait.
Proof.
  intros w b.
  destruct (TokenBucket.acquire 2 (w, b)) as [[wait| |] [w' b']] eqn:E;
    try (vm_compute in E; discriminate).
  assert (Hlag : lag_nonneg w) by (intro n; cbn; lra).
  destruct (wait_covers_sleeps 2 wait w w' b b' E Hlag)
    as (sleeps & Hlog & Hsum & _).
  exists wait, w', b', sleeps. split; [reflexivity|].
  split; [now rewrite Hlog, app_nil_r | exact Hsum].
Defined.


Section BurstFacts.

Import TokenBucket.

Lemma inject_Z_succ (n : nat) :
  inject_Z (Z.of_nat (S n)) == inject_Z (Z.of_nat n) + 1.
Proof.
  rewrite Nat2Z.inj_succ. unfold Z.succ. now rewrite inject_Z_plus.
Qed.

(** While the bucket holds [n] tokens, [n] calls in a row are granted on
    their first pass. *)
Lemma grants_at_once_ok (n : nat) :
  forall s : World * TokenBucket.t,
    lag_nonneg (fst s) -> 0 <= tokens_per_second (snd s) ->
    inject_Z (Z.of_nat n) <= tokens (snd s) ->
    inject_Z (Z.of_nat n) <= inject_Z (max_tokens (snd s)) ->
    last_refill (snd s) <= now (fst s) ->
    grants_at_once n s = true.
Proof.
  induction n as [|n IH]; intros [w b] Hlag Hrate Htok Hcap Hlast;
    [reflexivity|].
  cbn [fst snd] in *. cbn [grants_at_once].
  unfold TokenBucket.acquire. cbn [time_time fst snd acquire_loop].
  cbn [now lag tick trace].
  pose proof (Hlag (tick w)) as H0. pose proof (Hlag (S (tick w))) as H1.
  pose proof (Hlag (S (S (tick w)))) as H2.
  pose proof (inject_Z_succ n) as Hs.
  assert (0 <= inject_Z (Z.of_nat n)) as Hn.
  { change 0 with (inject_Z 0). rewrite <- Zle_Qle. lia. }
  set (t := (now w + lag w (tick w) + lag w (S (tick w)))%Q).
  assert (Hmin : inject_Z (Z.of_nat n) + 1 <= tokens (refill t b)).
  { cbn. apply min_glb; [lra|].
    assert (0 <= (t - last_refill b) * tokens_per_second b)
      by (apply Qmult_le_0_compat; [unfold t; lra | exact Hrate]).
    lra. }
  assert (Hge : Qle_bool 1 (tokens (refill t b)) = true)
    by (apply Qle_bool_iff; lra).
  rewrite Hge. apply IH; cbn [fst snd].
  - exact Hlag.
  - exact Hrate.
  - cbn in *. lra.
  - cbn. lra.
  - cbn. unfold t. lra.
Qed.

(** Under a clock that stands still nothing is refilled: a bucket holding
    exactly [n] tokens cannot grant [n + 1] calls without a sleep. *)
Lemma grants_at_once_limit (n : nat) :
  forall s : World * TokenBucket.t,
    (forall k, lag (fst s) k == 0) ->
    tokens (snd s) == inject_Z (Z.of_nat n) ->
    inject_Z (Z.of_nat n) <= inject_Z (max_tokens (snd s)) ->
    last_refill (snd s) == now (fst s) ->
    grants_at_once (S n) s = false.
Proof.
  induction n as [|n IH]; intros [w b] Hlag Htok Hcap Hlast;
    cbn [fst snd] in *.
  - cbn [grants_at_once].
    unfold TokenBucket.acquire. cbn [time_time fst snd acquire_loop].
    cbn [now lag tick trace].
    pose proof (Hlag (tick w)) as H0. pose proof (Hlag (S (tick w))) as H1.
    set (t := (now w + lag w (tick w) + lag w (S (tick w)))%Q).
    assert (Hlt : tokens (refill t b) < 1).
    { pose proof (min_le_r (inject_Z (max_tokens b))
                    (tokens b + (t - last_refill b) * tokens_per_second b))
        as Hr.
      assert ((t - last_refill b) * tokens_per_second b == 0)
        by (unfold t; rewrite H0, H1, Hlast; ring).
      change (tokens b == 0) in Htok.
      unfold refill. cbn [tokens set_tokens set_last_refill].
      clearbody t. lra. }
    apply Qle_bool_false in Hlt. rewrite Hlt.
    now destruct (Qeq_bool (tokens_per_second (refill t b)) 0).
  - cbn [grants_at_once].
    unfold TokenBucket.acquire. cbn [time_time fst snd acquire_loop].
    cbn [now lag tick trace].
    pose proof (Hlag (tick w)) as H0. pose proof (Hlag (S (tick w))) as H1.
    pose proof (Hlag (S (S (tick w)))) as H2.
    pose proof (inject_Z_succ n) as Hs.
    assert (0 <= inject_Z (Z.of_nat n)) as Hn.
    { change 0 with (inject_Z 0). rewrite <- Zle_Qle. lia. }
    set (t := (now w + lag w (tick w) + lag w (S (tick w)))%Q).
    assert (Hz : (t - last_refill b) * tokens_per_second b == 0)
      by (unfold t; rewrite H0, H1, Hlast; ring).
    assert (Heq : tokens (refill t b) == inject_Z (Z.of_nat n) + 1).
    { pose proof (min_le_r (inject_Z (max_tokens b))
                    (tokens b + (t - last_refill b) * tokens_per_second b))
        as Hr.
      pose proof (min_glb (inject_Z (max_tokens b))
                    (tokens b + (t - last_refill b) * tokens_per_second b)
                    (inject_Z (Z.of_nat n) + 1)) as Hg.
      unfold refill. cbn [tokens set_tokens set_last_refill].
      clearbody t. apply Qle_antisym; [lra | apply Hg; lra]. }
    assert (Hge : Qle_bool 1 (tokens (refill t b)) = true)
      by (apply Qle_bool_iff; lra).
    rewrite Hge.
    change (grants_at_once (S n)
              ({| now := t + lag w (S (S (tick w))); lag := lag w;
                  tick := S (S (S (tick w)));
                  trace := EvTokens (tokens (consume (refill t b)))
                           :: EvTokens (tokens (refill t b)) :: trace w |},
               consume (refill t b)) = false).
    apply IH; cbn [fst snd].
    + exact Hlag.
    + cbn in *. lra.
    + cbn. lra.
    + cbn. lra.
Qed.

End BurstFacts.

(** X5.  Burst: a freshly built bucket of capacity [max_tokens] grants any
    [n <= max_tokens] calls of [acquire] in a row, each on its first pass,
    that is without sleeping, whatever the (non-negative) refill rate, under
    a clock that never runs backwards. *)
Theorem burst_up_to_capacity (n : nat) (max_tokens : Z)
    (tokens_per_second : Q) (w : World) :
  (Z.of_nat n <= max_tokens)%Z ->
  0 <= tokens_per_second ->
  lag_nonneg w ->
  grants_at_once n
    (snd (TokenBucket.__post_init__ max_tokens tokens_per_second w),
     fst (TokenBucket.__post_init__ max_tokens tokens_per_second w)) = true.
Proof.
  intros Hn Hrate Hlag. apply grants_at_once_ok; cbn.
  - exact Hlag.
  - exact Hrate.
  - now rewrite <- Zle_Qle.
  - now rewrite <- Zle_Qle.
  - lra.
Qed.

Lemma burst_up_to_capacity_witness :
  grants_at_once 20
    (snd (TokenBucket.__post_init__ 20 20
            {| now := 0; lag := fun _ => 1 # 1000; tick := 0; trace := [] |}),
     fst (TokenBucket.__post_init__ 20 20
            {| now := 0; lag := fun _ => 1 # 1000; tick := 0; trace := [] |}))
  = true.
Proof.
  apply (burst_up_to_capacity 20 20 20); [lia | lra | intro k; cbn; lra].
Defined.

(** X6.  The burst stops at the capacity: while the clock stands still a
    fresh bucket of capacity [max_tokens >= 0] cannot grant
    [max_tokens + 1] calls on their first pass; the call after the burst has
    to sleep (or, at rate 0, fails). *)
Theorem burst_stops_at_capacity (max_tokens : Z) (tokens_per_second : Q)
    (w : World) :
  (0 <= max_tokens)%Z ->
  (forall k, lag w k == 0) ->
  grants_at_once (S (Z.to_nat max_tokens))
    (snd (TokenBucket.__post_init__ max_tokens tokens_per_second w),
     fst (TokenBucket.__post_init__ max_tokens tokens_per_second w)) = false.
Proof.
  intros Hcap Hlag. apply grants_at_once_limit; cbn.
  - exact Hlag.
  - now rewrite Z2Nat.id.
  - rewrite Z2Nat.id by exact Hcap. lra.
  - lra.
Qed.

Lemma burst_stops_at_capacity_witness :
  grants_at_once 21
    (snd (TokenBucket.__post_init__ 20 20
            {| now := 0; lag := fun _ => 0; tick := 0; trace := [] |}),
     fst (TokenBucket.__post_init__ 20 20
            {| now := 0; lag := fun _ => 0; tick := 0; trace := [] |}))
  = false.
Proof.
  apply (burst_stops_at_capacity 20 20); [lia | intro k; cbn; lra].
Defined.

(** X7.  A refill rate of zero is not guarded: once the bucket holds less
    than one token, [acquire] fails with [ZeroDivisionError] on its first
    pass, before any sleep, instead of waiting. *)
Theorem zero_rate_raises (fuel : nat) (w : World) (b : TokenBucket.t) :
  TokenBucket.tokens_per_second b == 0 ->
  TokenBucket.tokens b < 1 ->
  fst (TokenBucket.acquire (S fuel) (w, b)) = Raise Py.ZeroDivisionError
  /\ sleeps_logged (trace (fst (snd (TokenBucket.acquire (S fuel) (w, b)))))
     = sleeps_logged (trace w).
Proof.
  intros Hrate Htok. unfold TokenBucket.acquire.
  cbn [time_time fst snd TokenBucket.acquire_loop].
  set (t := (now w + lag w (tick w) + lag w (S (tick w)))%Q).
  cbn [now lag tick trace].
  assert (Hlt : TokenBucket.tokens (TokenBucket.refill t b) < 1).
  { pose proof (min_le_r (inject_Z (TokenBucket.max_tokens b))
                  (TokenBucket.tokens b
                   + (t - TokenBucket.last_refill b)
                     * TokenBucket.tokens_per_second b)) as Hr.
    assert ((t - TokenBucket.last_refill b)
            * TokenBucket.tokens_per_second b == 0)
      by (rewrite Hrate; ring).
    cbn in *. lra. }
  apply Qle_bool_false in Hlt. fold t. rewrite Hlt.
  assert (Hz : Qeq_bool (TokenBucket.tokens_per_second
                           (TokenBucket.refill t b)) 0 = true)
    by (apply Qeq_bool_iff; exact Hrate).
  rewrite Hz. split; reflexivity.
Qed.

(** [RateLimiter(0)]: the bucket is built with [int(0) = 0] tokens. *)
Lemma zero_rate_raises_witness :
  let w := {| now := 0; lag := fun _ => 1 # 1000; tick := 0; trace := [] |} in
  let r := fst (RateLimiter.__init__ 0 w) in
  fst (TokenBucket.acquire 5 (snd (RateLimiter.__init__ 0 w),
                              RateLimiter.bucket r))
  = Raise Py.ZeroDivisionError.
Proof.
  intros w r.
  apply (zero_rate_raises 4 (snd (RateLimiter.__init__ 0 w))
           (RateLimiter.bucket r)); vm_compute; reflexivity.
Defined.


(** ** The rate limiter's statistics *)

Section RateLimiterFacts.

Import TokenBucket RateLimiter.

Lemma acquire_lag (fuel : nat) (s : World * TokenBucket.t) :
  lag_nonneg (fst s) ->
  lag (fst (snd (TokenBucket.acquire fuel s))) = lag (fst s).
Proof.
  intro Hlag. destruct s as [w b]. unfold TokenBucket.acquire.
  cbn [time_time fst snd].
  destruct (acquire_loop_config fuel (now w + lag w (tick w))
              ({| now := now w + lag w (tick w); lag := lag w;
                  tick := S (tick w); trace := trace w |}, b) Hlag)
    as [(_ & _ & H) _].
  exact H.
Qed.

Lemma acquire_wait_nonneg (fuel : nat) (wait : Q)
    (s s' : World * TokenBucket.t) :
  TokenBucket.acquire fuel s = (Return wait, s') ->
  lag_nonneg (fst s) -> 0 <= wait.
Proof.
  destruct s as [w b], s' as [w' b']. intros Hrun Hlag.
  unfold TokenBucket.acquire in Hrun. cbn [time_time fst snd] in Hrun.
  destruct (acquire_loop_wait fuel _ wait _ w' b b' Hrun Hlag)
    as (sleeps & _ & Hwait & _ & _).
  destruct (acquire_loop_config fuel (now w + lag w (tick w))
              ({| now := now w + lag w (tick w); lag := lag w;
                  tick := S (tick w); trace := trace w |}, b) Hlag)
    as [_ Hmono].
  rewrite Hrun in Hmono. cbn [fst snd now] in Hmono.
  subst wait. lra.
Qed.

(** One entry: the counters move only when the bucket granted. *)
Lemma aenter_step (fuel : nat) (s : World * RateLimiter.t) :
  lag_nonneg (fst s) ->
  let r := RateLimiter.__aenter__ fuel s in
  lag (fst (snd r)) = lag (fst s)
  /\ max_per_second (snd (snd r)) = max_per_second (snd s)
  /\ match fst r with
     | Return wait =>
         0 <= wait
         /\ _requests_made (snd (snd r)) = (_requests_made (snd s) + 1)%Z
         /\ _total_wait_time (snd (snd r)) = _total_wait_time (snd s) + wait
     | _ =>
         _requests_made (snd (snd r)) = _requests_made (snd s)
         /\ _total_wait_time (snd (snd r)) = _total_wait_time (snd s)
     end.
Proof.
  intro Hlag. destruct s as [w r0]. cbn [fst snd] in Hlag. cbv zeta.
  pose proof (acquire_lag fuel (w, bucket r0) Hlag) as HL.
  pose proof (fun wait s' H =>
                acquire_wait_nonneg fuel wait (w, bucket r0) s' H Hlag)
    as HW.
  unfold RateLimiter.__aenter__, bind, zoom, modify, ret.
  cbn [fst snd] in *.
  destruct (TokenBucket.acquire fuel (w, bucket r0))
    as [[wait|e|] [w1 b1]]; cbn [fst snd] in *.
  - repeat split; try assumption; try reflexivity.
    exact (HW wait (w1, b1) eq_refl).
  - repeat split; assumption.
  - repeat split; assumption.
Qed.

Lemma aenter_many_stats (fuels : list nat) :
  forall s : World * RateLimiter.t,
    lag_nonneg (fst s) ->
    let r := aenter_many fuels s in
    max_per_second (snd (snd r)) = max_per_second (snd s)
    /\ _requests_made (snd (snd r))
       = (_requests_made (snd s) + Z.of_nat (List.length (fst r)))%Z
    /\ _total_wait_time (snd (snd r))
       == _total_wait_time (snd s) + sum_Q (fst r)
    /\ 0 <= sum_Q (fst r)
    /\ (List.length (fst r) <= List.length fuels)%nat.
Proof.
  induction fuels as [|fuel rest IH]; intros s Hlag; cbv zeta.
  - cbn. repeat split; try lia; lra.
  - cbn [aenter_many].
    pose proof (aenter_step fuel s Hlag) as St. cbv zeta in St.
    destruct (RateLimiter.__aenter__ fuel s) as [[wait|e|] s1];
      cbn [fst snd] in St; destruct St as (HL & HM & St).
    + destruct St as (Hw & Hn & Ht).
      assert (Hlag1 : lag_nonneg (fst s1)) by (intro k; rewrite HL; apply Hlag).
      specialize (IH s1 Hlag1). cbv zeta in IH.
      destruct (aenter_many rest s1) as [waits s2]. cbn [fst snd] in *.
      destruct IH as (I1 & I2 & I3 & I4 & I5).
      cbn [List.length sum_Q fold_right]. fold (sum_Q waits).
      rewrite I1, I2, I3, HM, Hn, Ht.
      repeat split; try lia; lra.
    + destruct St as (Hn & Ht).
      assert (Hlag1 : lag_nonneg (fst s1)) by (intro k; rewrite HL; apply Hlag).
      specialize (IH s1 Hlag1). cbv zeta in IH.
      destruct IH as (I1 & I2 & I3 & I4 & I5).
      rewrite I1, I2, I3, HM, Hn, Ht. cbn [List.length].
      repeat split; try lia; lra.
    + destruct St as (Hn & Ht).
      assert (Hlag1 : lag_nonneg (fst s1)) by (intro k; rewrite HL; apply Hlag).
      specialize (IH s1 Hlag1). cbv zeta in IH.
      destruct IH as (I1 & I2 & I3 & I4 & I5).
      rewrite I1, I2, I3, HM, Hn, Ht. cbn [List.length].
      repeat split; try lia; lra.
Qed.

End RateLimiterFacts.

(** X8.  The statistics of a rate limiter, from its construction and after
    any number of entries: [_requests_made] is the number of entries the
    bucket granted (an entry that raises or is still waiting is not
    counted), [_total_wait_time] is the sum of the waits they reported, and
    [average_wait_time] is their mean, never negative under a clock that
    does not run backwards, and 0 while nothing was granted. *)
Theorem average_wait_is_mean_of_grants (max_per_second : Q)
    (fuels : list nat) (w : World) :
  lag_nonneg w ->
  let s0 := (snd (RateLimiter.__init__ max_per_second w),
             fst (RateLimiter.__init__ max_per_second w)) in
  let waits := fst (aenter_many fuels s0) in
  let r := snd (snd (aenter_many fuels s0)) in
  RateLimiter._requests_made r = Z.of_nat (List.length waits)
  /\ (List.length waits <= List.length fuels)%nat
  /\ RateLimiter._total_wait_time r == sum_Q waits
  /\ RateLimiter.average_wait_time r * inject_Z (Z.of_nat (List.length waits))
     == sum_Q waits
  /\ 0 <= RateLimiter.average_wait_time r
  /\ (waits = [] -> RateLimiter.average_wait_time r = 0).
Proof.
  intro Hlag. cbv zeta.
  set (s0 := (snd (RateLimiter.__init__ max_per_second w),
              fst (RateLimiter.__init__ max_per_second w))).
  assert (Hlag0 : lag_nonneg (fst s0)) by exact Hlag.
  pose proof (aenter_many_stats fuels s0 Hlag0) as H. cbv zeta in H.
  destruct H as (_ & Hn & Ht & Hs & Hl).
  change (RateLimiter._requests_made (snd s0)) with 0%Z in Hn.
  change (RateLimiter._total_wait_time (snd s0)) with 0 in Ht.
  rewrite Z.add_0_l in Hn.
  set (r := snd (snd (aenter_many fuels s0))) in *.
  set (waits := fst (aenter_many fuels s0)) in *.
  assert (Ht' : RateLimiter._total_wait_time r == sum_Q waits)
    by (rewrite Ht; ring).
  split; [exact Hn|]. split; [exact Hl|]. split; [exact Ht'|].
  unfold RateLimiter.average_wait_time. rewrite Hn.
  destruct waits as [|x xs].
  - cbn. repeat split; try reflexivity; lra.
  - set (n := Z.of_nat (List.length (x :: xs))).
    assert (Hpos : (0 < n)%Z) by (unfold n; cbn [List.length]; lia).
    assert (Hq : 0 < inject_Z n).
    { change 0 with (inject_Z 0). now rewrite <- Zlt_Qlt. }
    assert (Hne : (n =? 0)%Z = false) by (apply Z.eqb_neq; lia).
    rewrite Hne. split; [|split].
    + rewrite Ht'. field. lra.
    + apply Qle_shift_div_l; [exact Hq|]. rewrite Ht'. lra.
    + discriminate.
Qed.

Lemma average_wait_is_mean_of_grants_witness :
  let w := {| now := 0; lag := fun _ => 1 # 100; tick := 0; trace := [] |} in
  let s0 := (snd (RateLimiter.__init__ 2 w), fst (RateLimiter.__init__ 2 w)) in
  RateLimiter._requests_made (snd (snd (aenter_many [2; 2; 2; 1]%nat s0)))
  = Z.of_nat (List.length (fst (aenter_many [2; 2; 2; 1]%nat s0))).
Proof.
  intros w s0.
  apply (average_wait_is_mean_of_grants 2 [2; 2; 2; 1]%nat w).
  intro k. cbn. lra.
Defined.

(** A limiter built with [max_concurrent = 0] never has a permit to give:
    no coroutine holds one and none can take one. *)
Lemma no_slots_no_step (n : nat) (l : ConcurrencyLimiter.t)
    (ps : list ConcurrencyLimiter.phase) :
  ConcurrencyLimiter.reachable 0 n (l, ps) ->
  ConcurrencyLimiter.semaphore l = 0%Z
  /\ forall s', ~ ConcurrencyLimiter.step (l, ps) s'.
Proof.
  intro Hr. destruct (reachable_inv 0 n (l, ps) Hr) as (_ & H0 & Hsum & Hcount).
  cbn [fst snd] in *.
  assert (Hsem : ConcurrencyLimiter.semaphore l = 0%Z) by lia.
  assert (Hnone : count_inside ps = 0%nat) by lia.
  split; [exact Hsem|].
  intros s' Hstep. inversion Hstep as [? l' ? i Hnth He | ? ? i exc Hnth]; subst.
  - unfold ConcurrencyLimiter.try_aenter in He. rewrite Hsem in He.
    discriminate He.
  - apply nth_error_In in Hnth.
    assert (K : In ConcurrencyLimiter.Inside (filter is_inside ps))
      by (apply filter_In; split; [exact Hnth | reflexivity]).
    unfold count_inside in Hnone.
    destruct (filter is_inside ps); [now elim K | discriminate Hnone].
Qed.

(** X9.  The token is taken before the slot is waited for.  A client built
    with [max_concurrent = 0] has no slot to give, in any state its limiter
    can reach and whatever the coroutines sharing it do: none of them holds
    a permit and none can take one, so none is ever released.  A request
    through such a client counts nothing in the metrics and never returns,
    and when the rate limiter granted it, it is left waiting for a slot with
    its token already spent and counted by the rate limiter. *)
Theorem no_free_slot_blocks (fuel : nat) (json_data : option string)
    (ex : ThrottledClient.exchange) (s : World * ThrottledClient.t)
    (n : nat) (ps : list ConcurrencyLimiter.phase) :
  ConcurrencyLimiter.reachable 0 n
    (ThrottledClient.concurrency_limiter (snd s), ps) ->
  let r := ThrottledClient._request fuel json_data ex s in
  (forall s', ~ ConcurrencyLimiter.step
                  (ThrottledClient.concurrency_limiter (snd s), ps) s')
  /\ ThrottledClient.metrics (snd (snd r)) = ThrottledClient.metrics (snd s)
  /\ (forall v, fst r <> Return v)
  /\ (forall wait s1,
        after_rate fuel s = (Return wait, s1) ->
        r = (Hang, s1)
        /\ RateLimiter._requests_made
             (ThrottledClient.rate_limiter (snd s1))
           = (RateLimiter._requests_made
                (ThrottledClient.rate_limiter (snd s)) + 1)%Z).
Proof.
  intro Hreach. cbv zeta.
  destruct (no_slots_no_step n _ ps Hreach) as [Hsem Hstuck].
  split; [exact Hstuck|].
  pose proof (request_cases fuel json_data ex s) as C.
  pose proof (after_rate_frame fuel s) as [Hm Hc].
  assert (Hrate : forall wait s1,
             after_rate fuel s = (Return wait, s1) ->
             RateLimiter._requests_made
               (ThrottledClient.rate_limiter (snd s1))
             = (RateLimiter._requests_made
                  (ThrottledClient.rate_limiter (snd s)) + 1)%Z).
  { intros wait s1. unfold after_rate, zoom, RateLimiter.__aenter__, bind,
      zoom, modify, ret. cbn [fst snd].
    destruct (TokenBucket.acquire fuel
                (fst s, RateLimiter.bucket
                          (ThrottledClient.rate_limiter (snd s))))
      as [[x|e|] [w1 b1]]; cbn [fst snd]; intro H; try discriminate.
    injection H as _ <-. reflexivity. }
  destruct (after_rate fuel s) as [[wait|e|] s1]; cbn [fst snd] in *.
  - unfold ConcurrencyLimiter.try_aenter in C. rewrite Hc, Hsem in C.
    cbn in C. rewrite C. cbn [fst snd].
    split; [exact Hm|]. split; [discriminate|].
    intros wait' s1' H. injection H as <- <-.
    split; [reflexivity | now apply (Hrate wait)].
  - rewrite C. cbn [fst snd].
    split; [exact Hm|]. split; [discriminate|]. intros ? ? H. discriminate H.
  - rewrite C. cbn [fst snd].
    split; [exact Hm|]. split; [discriminate|]. intros ? ? H. discriminate H.
Qed.

(** [ThrottledClient(max_concurrent=0, max_per_second=20)], three coroutines
    waiting for a slot. *)
Lemma no_free_slot_blocks_witness :
  let w := {| now := 0; lag := fun _ => 1 # 100; tick := 0; trace := [] |} in
  let c := {| ThrottledClient.concurrency_limiter :=
                {| ConcurrencyLimiter.max_concurrent := 0;
                   ConcurrencyLimiter.semaphore := 0;
                   ConcurrencyLimiter._in_flight := 0 |};
              ThrottledClient.rate_limiter := fst (RateLimiter.__init__ 20 w);
              ThrottledClient.metrics :=
                {| ThrottledClient.total_requests := 0;
                   ThrottledClient.successful_requests := 0;
                   ThrottledClient.failed_requests := 0;
                   ThrottledClient.total_bytes_sent := 0;
                   ThrottledClient.total_bytes_received := 0 |} |} in
  let r := ThrottledClient._request 2 None
             (ThrottledClient.Response 200
                (ThrottledClient.JsonFails Py.ValueError) 0)
             (snd (RateLimiter.__init__ 20 w), c) in
  fst r = Hang
  /\ ThrottledClient.total_requests (ThrottledClient.metrics (snd (snd r)))
     = 0%Z
  /\ RateLimiter._requests_made (ThrottledClient.rate_limiter (snd (snd r)))
     = 1%Z.
Proof.
  intros w c r.
  pose proof (no_free_slot_blocks 2 None
                (ThrottledClient.Response 200
                   (ThrottledClient.JsonFails Py.ValueError) 0)
                (snd (RateLimiter.__init__ 20 w), c) 3
                (repeat ConcurrencyLimiter.Waiting 3)) as H.
  cbv zeta in H. destruct H as (_ & Hm & _ & Hw).
  - apply ConcurrencyLimiter.reach_init. reflexivity.
  - fold r in Hm, Hw.
    destruct (after_rate 2 (snd (RateLimiter.__init__ 20 w), c))
      as [[wait|e|] s1] eqn:E; try (vm_compute in E; discriminate).
    destruct (Hw wait s1 eq_refl) as [Hr Hn].
    rewrite Hm, Hr. cbn [fst snd]. rewrite Hn.
    repeat split; reflexivity.
Defined.


(** ** The coordinator: cancellations and reports *)

Section CascadeMoreFacts.

Import Coordinador.

(** [cancel_remaining] on any set of tasks. *)
Lemma cancel_remaining_spec (tareas : list endpoint) :
  forall st : cascade,
    let r := cancel_remaining tareas st in
    fst r = Z.of_nat (List.length (not_done_tasks tareas st))
    /\ cancel_llamado (snd r) = cancel_llamado st ++ not_done_tasks tareas st
    /\ errores (snd r) = errores st
    /\ datos (snd r) = datos st
    /\ canceladas_por_auth (snd r) = canceladas_por_auth st
    /\ terminadas (snd r) = terminadas st.
Proof.
  unfold not_done_tasks.
  induction tareas as [|t rest IH]; intro st; cbv zeta.
  - cbn. rewrite app_nil_r. now repeat split.
  - cbn [cancel_remaining filter].
    destruct (negb (mem t (terminadas st))) eqn:E.
    + specialize (IH (cancel t st)). cbv zeta in IH.
      destruct (cancel_remaining rest (cancel t st)) as [n st1].
      cbn [fst snd] in *. destruct IH as (A & B & C & D & F & G).
      cbn [cancel terminadas cancel_llamado errores datos
             canceladas_por_auth] in *.
      rewrite B, <- app_assoc. cbn [app List.length].
      repeat split; try assumption. lia.
    + apply IH.
Qed.

End CascadeMoreFacts.

(** X10.  [cancel_remaining] calls [cancel()] on exactly the tasks of the set
    that are not done, in the order it visits them, and returns how many it
    cancelled; a task that is done is never cancelled, and nothing else of
    the state changes. *)
Theorem cancel_remaining_counts (tareas : list Coordinador.endpoint)
    (st : Coordinador.cascade) :
  let r := Coordinador.cancel_remaining tareas st in
  fst r = Z.of_nat (List.length (not_done_tasks tareas st))
  /\ Coordinador.cancel_llamado (snd r)
     = Coordinador.cancel_llamado st ++ not_done_tasks tareas st
  /\ (forall t, In t (not_done_tasks tareas st) <->
                In t tareas
                /\ Coordinador.mem t (Coordinador.terminadas st) = false)
  /\ Coordinador.terminadas (snd r) = Coordinador.terminadas st
  /\ Coordinador.errores (snd r) = Coordinador.errores st
  /\ Coordinador.datos (snd r) = Coordinador.datos st.
Proof.
  cbv zeta.
  destruct (cancel_remaining_spec tareas st) as (A & B & C & D & _ & F).
  split; [exact A|]. split; [exact B|]. split; [|now repeat split].
  intro t. unfold not_done_tasks. rewrite filter_In.
  now rewrite negb_true_iff.
Qed.

(** X11.  When [cargar_dashboard_con_cancelacion] returns, each of its three
    tasks has settled and shows in the result as it settled.  For a task that
    returned, [datos] holds what it returned, [None] when that is what it
    returned (a JSON body [null]), and [errores] has no entry for it.  For a
    task that raised, [datos] is [None] and [errores] has its entry, with
    [str(e)] and [cancelada = False]. *)
Theorem dashboard_accounts_for_every_task
    (respuestas : Coordinador.endpoint -> Coordinador.exchange)
    (rondas : list (list Coordinador.endpoint)) (st : Coordinador.cascade) :
  Coordinador.cargar_dashboard_con_cancelacion respuestas rondas = Return st ->
  forall t, In t Coordinador.todas_las_tareas ->
    match fst (Coordinador.tarea t (respuestas t) tt) with
    | Return v =>
        Coordinador.datos st t = v
        /\ forall x, In x (Coordinador.errores st) ->
                     Coordinador.err_endpoint x <> t
    | Raise e =>
        Coordinador.datos st t = None
        /\ In {| Coordinador.err_endpoint := t;
                 Coordinador.err_error := Coordinador.str_of e;
                 Coordinador.err_cancelada := false |}
              (Coordinador.errores st)
    | Hang => False
    end.
Proof.
  intros Hrun t Ht.
  destruct (cargar_dashboard_records respuestas rondas st Hrun)
    as (seen & Hs & _ & Hin & Hd & He & _).
  specialize (Hin t Ht). rewrite Hd, He.
  assert (Hr : exists r, In (t, r) seen).
  { unfold Coordinador.names in Hin. apply in_map_iff in Hin.
    destruct Hin as ([n r] & Hn & Hx). cbn in Hn. subst n. now exists r. }
  destruct Hr as (r & Hr). pose proof (Hs t r Hr) as Hone.
  destruct (fst (Coordinador.tarea t (respuestas t) tt)) as [v | e |] eqn:E.
  - split.
    + apply dato_de_returned; [|exact Hin].
      intros r' Hr'. apply Hs in Hr'. now rewrite E in Hr'.
    + intros x Hx Heq. apply in_error_entries in Hx.
      destruct Hx as (t' & e & Hx & ->). cbn in Heq. subst t'.
      apply Hs in Hx. rewrite E in Hx. discriminate Hx.
  - subst r. split.
    + apply dato_de_unchanged. intros v Hv.
      apply Hs in Hv. rewrite E in Hv. discriminate Hv.
    + apply in_error_entries. now exists t, e.
  - exact Hone.
Qed.

(** [categorias] is answered with the JSON body [null] and [perfil] with a
    500: the first shows with [None] and no error, the second with its
    entry in [errores]. *)
Lemma dashboard_accounts_for_every_task_witness :
  let json_ct := Some "application/json"%string in
  let ok := {| Verificacion.status := 200;
               Verificacion.content_type_header := json_ct |} in
  let respuestas := fun t =>
    match t with
    | Coordinador.categorias =>
        Coordinador.Response ok (Coordinador.JsonBody Coordinador.JNull)
    | Coordinador.perfil =>
        Coordinador.Response
          {| Verificacion.status := 500;
             Verificacion.content_type_header := json_ct |}
          (Coordinador.JsonFails Py.ContentTypeError)
    | _ =>
        Coordinador.Response ok
          (Coordinador.JsonBody (Coordinador.JValue "[]"%string true))
    end in
  let rondas := [ [Coordinador.productos; Coordinador.categorias];
                  [Coordinador.perfil] ] in
  exists st,
    Coordinador.cargar_dashboard_con_cancelacion respuestas rondas = Return st
    /\ Coordinador.datos st Coordinador.productos = Some "[]"%string
    /\ Coordinador.datos st Coordinador.categorias = None
    /\ (forall x, In x (Coordinador.errores st) ->
                  Coordinador.err_endpoint x <> Coordinador.categorias)
    /\ In {| Coordinador.err_endpoint := Coordinador.perfil;
             Coordinador.err_error := Coordinador.str_of Py.TypeError;
             Coordinador.err_cancelada := false |}
          (Coordinador.errores st).
Proof.
  intros json_ct ok respuestas rondas.
  destruct (Coordinador.cargar_dashboard_con_cancelacion respuestas rondas)
    as [st| |] eqn:E; try (vm_compute in E; discriminate).
  exists st. split; [reflexivity|].
  pose proof (dashboard_accounts_for_every_task respuestas rondas st E) as H.
  pose proof (H Coordinador.productos (or_introl eq_refl)) as [P _].
  pose proof (H Coordinador.categorias (or_intror (or_introl eq_refl)))
    as [C1 C2].
  pose proof (H Coordinador.perfil
                (or_intror (or_intror (or_introl eq_refl)))) as [_ F].
  repeat split; assumption.
Defined.


Section PriorityMoreFacts.

Import Coordinador.

Lemma NoDup_set_add (x : endpoint) (xs : list endpoint) :
  NoDup xs -> NoDup (set_add x xs).
Proof.
  intro H. unfold set_add. destruct (mem x xs) eqn:E; [exact H|].
  apply NoDup_app; [exact H | repeat constructor; intros [] |].
  intros y Hy [<- | []]. apply mem_In in Hy. congruence.
Qed.

(** What one pass of the body of [for tarea in done] writes. *)
Lemma procesar_tarea_fields (inicio : Q) (nombre : endpoint) (r : settlement)
    (s s' : World * prioridad) :
  procesar_tarea inicio nombre r s = (Return tt, s') ->
  orden_llegada (snd s') = orden_llegada (snd s) ++ [nombre]
  /\ p_errores (snd s')
     = p_errores (snd s) ++ failed_settlements [(nombre, r)]
  /\ p_datos (snd s')
     = match r with
       | Ok v => set_dato nombre v (p_datos (snd s))
       | Err _ => p_datos (snd s)
       end
  /\ (criticas_completadas (snd s') = criticas_completadas (snd s)
      \/ criticas_completadas (snd s')
         = set_add nombre (criticas_completadas (snd s))).
Proof.
  destruct s as [w st]. unfold procesar_tarea. cbn [fst snd].
  destruct r as [v | e].
  - destruct (mem nombre tareas_criticas).
    + destruct (set_eqb (set_add nombre (criticas_completadas st))
                        tareas_criticas
                && is_None (tiempo_dashboard_parcial st));
        intro H; injection H as <-; cbn; rewrite app_nil_r; auto.
    + intro H; injection H as <-; cbn; rewrite app_nil_r; auto.
  - destruct (Py.is_Exception e); intro H; [|discriminate].
    injection H as <-. cbn. auto.
Qed.

Lemma procesar_tarea_report (inicio : Q) (nombre : endpoint) (r : settlement)
    (seen : batch) (s s' : World * prioridad) :
  procesar_tarea inicio nombre r s = (Return tt, s') ->
  report_inv seen (snd s) ->
  report_inv (seen ++ [(nombre, r)]) (snd s').
Proof.
  intros Hrun (R1 & R2 & R3 & R4).
  destruct (procesar_tarea_fields inicio nombre r s s' Hrun)
    as (F1 & F2 & F3 & F4).
  split; [|split; [|split]].
  - rewrite F1, R1, names_app. reflexivity.
  - rewrite F2, R2, failed_settlements_app. reflexivity.
  - intro t. rewrite F3, dato_de_app. unfold dato_de at 1.
    cbn [fold_left fst snd]. destruct r as [v | e].
    + unfold set_dato. now rewrite R3.
    + apply R3.
  - destruct F4 as [-> | ->]; [exact R4 | now apply NoDup_set_add].
Qed.

Lemma procesar_hechas_report (inicio : Q) (done : batch) :
  forall (seen : batch) (s s' : World * prioridad),
    procesar_hechas inicio done s = (Return tt, s') ->
    report_inv seen (snd s) ->
    report_inv (seen ++ done) (snd s').
Proof.
  induction done as [|[nombre r] rest IH]; intros seen s s' Hrun J.
  - cbn in Hrun. injection Hrun as <-. now rewrite app_nil_r.
  - cbn [procesar_hechas] in Hrun. unfold bind in Hrun.
    destruct (procesar_tarea inicio nombre r s) as [[[]|e|] s1] eqn:E;
      try discriminate.
    pose proof (procesar_tarea_report inicio nombre r seen s s1 E J) as J1.
    specialize (IH _ _ _ Hrun J1). now rewrite <- app_assoc in IH.
Qed.

Lemma drenar_report (inicio : Q) (rondas : list ronda) :
  forall (pendientes : list endpoint) (seen : batch)
         (s s' : World * prioridad),
    drenar inicio rondas pendientes s = (Return tt, s') ->
    report_inv seen (snd s) ->
    report_inv (seen ++ procesadas rondas pendientes) (snd s').
Proof.
  induction rondas as [|r rest IH]; intros pendientes seen s s' Hrun J;
    destruct pendientes as [|p pendientes].
  - cbn in Hrun. injection Hrun as <-. cbn. now rewrite app_nil_r.
  - discriminate.
  - cbn in Hrun. injection Hrun as <-. cbn. now rewrite app_nil_r.
  - cbn [drenar procesadas] in *. unfold bind at 1 in Hrun.
    unfold modify in Hrun. unfold bind in Hrun.
    destruct (procesar_hechas inicio (hechas r)
                (elapse (espera r) (fst s), snd s))
      as [[[]|e|] s1] eqn:E; try discriminate.
    pose proof (procesar_hechas_report inicio (hechas r) seen _ s1 E J) as J1.
    specialize (IH _ _ _ _ Hrun J1). now rewrite <- app_assoc in IH.
Qed.

Lemma report_inv_inicial : report_inv [] prioridad_inicial.
Proof.
  split; [reflexivity|]. split; [reflexivity|]. split; [|constructor].
  intro t. reflexivity.
Qed.

(** The loop only ends once every pending task was visited. *)
Lemma drenar_covers (inicio : Q) (rondas : list ronda) :
  forall (pendientes : list endpoint) (s s' : World * prioridad),
    drenar inicio rondas pendientes s = (Return tt, s') ->
    forall t, In t pendientes ->
              In t (names (procesadas rondas pendientes)).
Proof.
  induction rondas as [|r rest IH]; intros pendientes s s' Hrun t Ht;
    destruct pendientes as [|p pendientes];
    try (now elim Ht); try discriminate Hrun.
  cbn [drenar procesadas] in *. unfold bind at 1 in Hrun.
  unfold modify in Hrun. unfold bind in Hrun.
  destruct (procesar_hechas inicio (hechas r)
              (elapse (espera r) (fst s), snd s))
    as [[[]|e|] s1] eqn:E; try discriminate.
  rewrite names_app. apply in_app_iff.
  destruct (mem t (names (hechas r))) eqn:M.
  - left. now apply mem_In.
  - right. apply (IH _ _ _ Hrun). unfold still_pending.
    apply filter_In. split; [exact Ht | now rewrite M].
Qed.

(** A duplicate-free set of critical tasks has two elements exactly when it
    is the set of critical tasks. *)
Lemma length_criticas (xs : list endpoint) :
  NoDup xs ->
  (forall t, mem t xs = true -> mem t tareas_criticas = true) ->
  Nat.eqb (List.length xs) (List.length tareas_criticas)
  = set_eqb xs tareas_criticas.
Proof.
  intros Hnd Hsub. rewrite (set_eqb_criticas xs Hsub).
  destruct xs as [|a [|b [|c xs]]].
  - reflexivity.
  - destruct a; reflexivity.
  - destruct a, b; try reflexivity; exfalso;
      first [ discriminate (Hsub categorias eq_refl)
            | discriminate (Hsub notificaciones eq_refl)
            | inversion Hnd as [|? ? Hn1 Hn2]; apply Hn1; cbn; now auto ].
  - exfalso.
    destruct a, b, c;
      first [ discriminate (Hsub categorias eq_refl)
            | discriminate (Hsub notificaciones eq_refl)
            | inversion Hnd as [|? ? Hn1 Hn2];
              first [ apply Hn1; cbn; now auto
                    | inversion Hn2 as [|? ? Hn3 Hn4]; apply Hn3; cbn;
                      now auto ] ].
Qed.

(** The clock and the partial-dashboard time along the loop. *)
Lemma procesar_tarea_timing (inicio : Q) (nombre : endpoint) (r : settlement)
    (s s' : World * prioridad) :
  procesar_tarea inicio nombre r s = (Return tt, s') ->
  timing_inv inicio s -> timing_inv inicio s'.
Proof.
  destruct s as [w st]. unfold procesar_tarea, timing_inv. cbn [fst snd].
  intros Hrun (Hlag & Hini & Ht).
  destruct r as [v | e].
  - destruct (mem nombre tareas_criticas).
    + destruct (set_eqb (set_add nombre (criticas_completadas st))
                        tareas_criticas
                && is_None (tiempo_dashboard_parcial st)).
      * cbn [time_time] in Hrun. injection Hrun as <-.
        cbn [fst snd now lag tiempo_dashboard_parcial].
        pose proof (Hlag (tick w)) as H0.
        split; [exact Hlag|]. split; [lra|].
        intros t H. injection H as <-. split; lra.
      * injection Hrun as <-. cbn. auto.
    + injection Hrun as <-. cbn. auto.
  - destruct (Py.is_Exception e); [|discriminate].
    injection Hrun as <-. cbn. auto.
Qed.

Lemma procesar_hechas_timing (inicio : Q) (done : batch) :
  forall s s' : World * prioridad,
    procesar_hechas inicio done s = (Return tt, s') ->
    timing_inv inicio s -> timing_inv inicio s'.
Proof.
  induction done as [|[nombre r] rest IH]; intros s s' Hrun J.
  - cbn in Hrun. now injection Hrun as <-.
  - cbn [procesar_hechas] in Hrun. unfold bind in Hrun.
    destruct (procesar_tarea inicio nombre r s) as [[[]|e|] s1] eqn:E;
      try discriminate.
    apply (IH _ _ Hrun). exact (procesar_tarea_timing _ _ _ _ _ E J).
Qed.

Lemma drenar_timing (inicio : Q) (rondas : list ronda) :
  forall (pendientes : list endpoint) (s s' : World * prioridad),
    drenar inicio rondas pendientes s = (Return tt, s') ->
    timing_inv inicio s -> timing_inv inicio s'.
Proof.
  induction rondas as [|r rest IH]; intros pendientes s s' Hrun J;
    destruct pendientes as [|p pendientes].
  - cbn in Hrun. now injection Hrun as <-.
  - discriminate.
  - cbn in Hrun. now injection Hrun as <-.
  - cbn [drenar] in *. unfold bind at 1 in Hrun.
    unfold modify in Hrun. unfold bind in Hrun.
    destruct (procesar_hechas inicio (hechas r)
                (elapse (espera r) (fst s), snd s))
      as [[[]|e|] s1] eqn:E; try discriminate.
    apply (IH _ _ _ Hrun).
    apply (procesar_hechas_timing _ _ _ _ E).
    destruct J as (Hlag & Hini & Ht). destruct s as [w st].
    cbn [fst snd] in *.
    destruct (elapse_now (espera r) w) as [_ Hmono].
    unfold timing_inv. cbn [fst snd].
    split; [exact Hlag|]. split; [lra|].
    intros t H. destruct (Ht t H) as [A B]. split; [exact A | lra].
Qed.

End PriorityMoreFacts.

(** X12.  What [cargar_con_prioridad] reports when it returns:
    [orden_llegada] lists the tasks in the order the loop visited them and
    contains each of the four tasks; [errores] holds exactly the failures, in
    that order; and [datos] holds for each task what that task returned the
    last time it was visited, [None] if it never returned or returned
    [None], so that data is always that of a task that returned it. *)
Theorem priority_report (rondas : list Coordinador.ronda) (w w' : World)
    (r : Coordinador.resultado_prioridad) (st : Coordinador.prioridad) :
  Coordinador.cargar_con_prioridad rondas w = (Return (r, st), w') ->
  let seen := procesadas rondas Coordinador.todas_las_tareas4 in
  Coordinador.r_orden_llegada r = Coordinador.names seen
  /\ (forall t, In t Coordinador.todas_las_tareas4 ->
                In t (Coordinador.r_orden_llegada r))
  /\ Coordinador.r_errores r = failed_settlements seen
  /\ (forall t, Coordinador.r_datos r t = dato_de t seen None)
  /\ (forall t v, Coordinador.r_datos r t = Some v ->
                  In (t, Coordinador.Ok (Some v)) seen).
Proof.
  intros Hrun seen. unfold Coordinador.cargar_con_prioridad in Hrun.
  cbn [time_time] in Hrun.
  match type of Hrun with
  | context [Coordinador.drenar ?i rondas _ ?s0] =>
      destruct (Coordinador.drenar i rondas Coordinador.todas_las_tareas4 s0)
        as [[[]|e|] [w2 st2]] eqn:E; try discriminate;
      pose proof (drenar_report i rondas Coordinador.todas_las_tareas4 []
                    s0 (w2, st2) E report_inv_inicial) as J;
      pose proof (drenar_covers i rondas Coordinador.todas_las_tareas4
                    s0 (w2, st2) E) as C
  end.
  injection Hrun as <- <- <-. cbn [app snd] in J.
  destruct J as (R1 & R2 & R3 & _). fold seen in R1, R2, R3, C.
  cbn [Coordinador.to_resultado Coordinador.r_orden_llegada
         Coordinador.r_errores Coordinador.r_datos].
  split; [exact R1|].
  split; [intros t Ht; rewrite R1; now apply C|].
  split; [exact R2|]. split; [exact R3|].
  intros t v H. rewrite R3 in H.
  destruct (dato_de_some t seen None v H) as [K | K];
    [discriminate K | exact K].
Qed.

(** [categorias] answered with a JSON [null], [productos] failing. *)
Lemma priority_report_witness :
  let w := {| now := 0; lag := fun _ => 0; tick := 0; trace := [] |} in
  let rondas :=
    [ {| Coordinador.espera := 1;
         Coordinador.hechas :=
           [(Coordinador.perfil, Coordinador.Ok (Some "u"%string));
            (Coordinador.categorias, Coordinador.Ok None)] |};
      {| Coordinador.espera := 1;
         Coordinador.hechas :=
           [(Coordinador.notificaciones, Coordinador.Ok (Some "n"%string));
            (Coordinador.productos, Coordinador.Err Py.TypeError)] |} ] in
  exists r st w',
    Coordinador.cargar_con_prioridad rondas w = (Return (r, st), w')
    /\ Coordinador.r_orden_llegada r
       = [Coordinador.perfil; Coordinador.categorias;
          Coordinador.notificaciones; Coordinador.productos]
    /\ Coordinador.r_errores r = [(Coordinador.productos, Py.TypeError)]
    /\ Coordinador.r_datos r Coordinador.perfil = Some "u"%string
    /\ Coordinador.r_datos r Coordinador.categorias = None.
Proof.
  intros w rondas.
  destruct (Coordinador.cargar_con_prioridad rondas w)
    as [[[r st]|e|] w'] eqn:E; try (vm_compute in E; discriminate).
  exists r, st, w'. split; [reflexivity|].
  destruct (priority_report rondas w w' r st E) as (A & _ & B & C & _).
  split; [rewrite A; reflexivity|]. split; [rewrite B; reflexivity|].
  split; rewrite C; reflexivity.
Defined.

(** X13.  The flag and the timestamp agree: in what [cargar_con_prioridad]
    returns, [criticas_completas] is true exactly when
    [tiempo_dashboard_parcial] is set. *)
Theorem criticas_completas_iff_timestamp (rondas : list Coordinador.ronda)
    (w w' : World) (r : Coordinador.resultado_prioridad)
    (st : Coordinador.prioridad) :
  Coordinador.cargar_con_prioridad rondas w = (Return (r, st), w') ->
  Coordinador.criticas_completas r = true
  <-> Coordinador.r_tiempo_dashboard_parcial r <> None.
Proof.
  intro Hrun. unfold Coordinador.cargar_con_prioridad in Hrun.
  cbn [time_time] in Hrun.
  match type of Hrun with
  | context [Coordinador.drenar ?i rondas _ ?s0] =>
      destruct (Coordinador.drenar i rondas Coordinador.todas_las_tareas4 s0)
        as [[[]|e|] [w2 st2]] eqn:E; try discriminate;
      pose proof (drenar_report i rondas Coordinador.todas_las_tareas4 []
                    s0 (w2, st2) E report_inv_inicial) as (_ & _ & _ & Hnd);
      pose proof (drenar_inv i rondas Coordinador.todas_las_tareas4 []
                    s0 (w2, st2) E priority_inv_inicial) as (J1 & _ & J3 & _)
  end.
  injection Hrun as <- <- <-. cbn [snd] in *.
  cbn [Coordinador.to_resultado Coordinador.criticas_completas
         Coordinador.r_tiempo_dashboard_parcial].
  rewrite (length_criticas _ Hnd (fun t Ht => proj1 (J1 t Ht))), <- J3.
  unfold is_Some, Coordinador.is_None.
  destruct (Coordinador.tiempo_dashboard_parcial st2); cbn.
  - split; [discriminate | reflexivity].
  - split; [discriminate | intro H; now elim H].
Qed.

Lemma criticas_completas_iff_timestamp_witness :
  let w := {| now := 0; lag := fun _ => 0; tick := 0; trace := [] |} in
  let rondas :=
    [ {| Coordinador.espera := 1;
         Coordinador.hechas :=
           [(Coordinador.perfil, Coordinador.Ok (Some "u"%string));
            (Coordinador.categorias, Coordinador.Err Py.TypeError)] |};
      {| Coordinador.espera := 1;
         Coordinador.hechas :=
           [(Coordinador.notificaciones, Coordinador.Ok (Some "n"%string));
            (Coordinador.productos, Coordinador.Ok (Some "p"%string))] |} ] in
  exists r st w',
    Coordinador.cargar_con_prioridad rondas w = (Return (r, st), w')
    /\ (Coordinador.criticas_completas r = true
        <-> Coordinador.r_tiempo_dashboard_parcial r <> None).
Proof.
  intros w rondas.
  destruct (Coordinador.cargar_con_prioridad rondas w)
    as [[[r st]|e|] w'] eqn:E; try (vm_compute in E; discriminate).
  exists r, st, w'. split; [reflexivity|].
  exact (criticas_completas_iff_timestamp rondas w w' r st E).
Defined.

(** X14.  Under a clock that never runs backwards, the time to the partial
    dashboard reported by [cargar_con_prioridad] is never negative and never
    exceeds the time the whole call took. *)
Theorem partial_time_within_total (rondas : list Coordinador.ronda)
    (w w' : World) (r : Coordinador.resultado_prioridad)
    (st : Coordinador.prioridad) (t : Q) :
  Coordinador.cargar_con_prioridad rondas w = (Return (r, st), w') ->
  lag_nonneg w ->
  Coordinador.r_tiempo_dashboard_parcial r = Some t ->
  0 <= t /\ t <= now w' - now w.
Proof.
  intros Hrun Hlag Ht. unfold Coordinador.cargar_con_prioridad in Hrun.
  cbn [time_time] in Hrun.
  match type of Hrun with
  | context [Coordinador.drenar ?i rondas _ ?s0] =>
      destruct (Coordinador.drenar i rondas Coordinador.todas_las_tareas4 s0)
        as [[[]|e|] [w2 st2]] eqn:E; try discriminate;
      assert (J0 : timing_inv i s0);
      [ | pose proof (drenar_timing i rondas Coordinador.todas_las_tareas4
                        s0 (w2, st2) E J0) as (_ & _ & J) ]
  end.
  { split; [exact Hlag|]. split; [cbn; lra|]. intros x H. discriminate H. }
  injection Hrun as <- <- <-. cbn [snd fst] in *.
  cbn [Coordinador.to_resultado Coordinador.r_tiempo_dashboard_parcial] in Ht.
  destruct (J t Ht) as [A B]. pose proof (Hlag (tick w)) as H0.
  split; [exact A | lra].
Qed.

Lemma partial_time_within_total_witness :
  let w := {| now := 0; lag := fun _ => 1 # 10; tick := 0; trace := [] |} in
  let rondas :=
    [ {| Coordinador.espera := 1;
         Coordinador.hechas :=
           [(Coordinador.perfil, Coordinador.Ok (Some "u"%string));
            (Coordinador.productos, Coordinador.Ok (Some "p"%string))] |};
      {| Coordinador.espera := 2;
         Coordinador.hechas :=
           [(Coordinador.notificaciones, Coordinador.Ok (Some "n"%string));
            (Coordinador.categorias, Coordinador.Ok (Some "c"%string))] |} ] in
  exists r st w' t,
    Coordinador.cargar_con_prioridad rondas w = (Return (r, st), w')
    /\ Coordinador.r_tiempo_dashboard_parcial r = Some t
    /\ 0 <= t /\ t <= now w' - now w.
Proof.
  intros w rondas.
  destruct (Coordinador.cargar_con_prioridad rondas w)
    as [[[r st]|e|] w'] eqn:E; try (vm_compute in E; discriminate).
  destruct (Coordinador.r_tiempo_dashboard_parcial r) as [t|] eqn:T;
    [|vm_compute in E; injection E as <- _ _; discriminate T].
  exists r, st, w', t. split; [reflexivity|]. split; [exact T|].
  apply (partial_time_within_total rondas w w' r st t E);
    [intro k; cbn; lra | exact T].
Defined.


(** ** Checking a response *)

(** X15.  [_verificar_respuesta] sorts a response by its status first and by
    its content type second: it hands the response back exactly when the
    status is below 400 and the body is declared JSON or the status is 204;
    it raises [NoAutorizado] exactly for 401, [ServicioNoDisponible] exactly
    for 503, [ServerError] for every other status from 500 up, and
    [HTTPValidationError] for the other statuses from 400 up and for a
    response below 400 that is neither JSON nor a 204. *)
Theorem verificar_respuesta_cases (r : Verificacion.response_t) :
  let out := Verificacion._verificar_respuesta r in
  let status := Verificacion.status r in
  (out = Return r
   <-> (status < 400)%Z /\ (says_json r = true \/ status = 204%Z))
  /\ (out = Raise Py.NoAutorizado <-> status = 401%Z)
  /\ (out = Raise Py.ServicioNoDisponible <-> status = 503%Z)
  /\ (out = Raise Py.ServerError <-> (500 <= status)%Z /\ status <> 503%Z)
  /\ (out = Raise Py.HTTPValidationError
      <-> ((400 <= status < 500)%Z /\ status <> 401%Z)
          \/ ((status < 400)%Z /\ says_json r = false /\ status <> 204%Z))
  /\ (forall r', out = Return r' -> r' = r)
  /\ out <> Hang.
Proof.
  cbv zeta. unfold Verificacion._verificar_respuesta.
  change (Verificacion.contains "application/json"%string
            (Verificacion.headers_get_content_type r))
    with (says_json r).
  destruct (Z.eqb_spec (Verificacion.status r) 503);
    destruct (Z.leb_spec 500 (Verificacion.status r));
    destruct (Z.eqb_spec (Verificacion.status r) 401);
    destruct (Z.leb_spec 400 (Verificacion.status r));
    destruct (says_json r);
    destruct (Z.eqb_spec (Verificacion.status r) 204);
    cbn [negb];
    try lia;
    repeat match goal with
           | |- _ /\ _ => split
           | |- _ <-> _ => split
           | |- forall _, _ => intro
           end;
    solve [congruence | lia | intuition (congruence || lia)].
Qed.

(** ** The session's statistics *)

Section SessionFacts.

Import SmartSession.

Lemma sum_acc_nonneg (xs : list Q) :
  forall acc, 0 <= acc -> Forall (fun a => 0 <= a) xs ->
              0 <= fold_left Qplus xs acc.
Proof.
  induction xs as [|x xs IH]; intros acc Hacc Hxs; [exact Hacc|].
  inversion Hxs as [|? ? Hx Hrest]; subst. cbn [fold_left].
  apply IH; [lra | exact Hrest].
Qed.

Lemma average_nonneg (st : ConnectionPoolStats.t) :
  Forall (fun a => 0 <= a) (ConnectionPoolStats.acquisition_times st) ->
  0 <= ConnectionPoolStats.get_average_acquisition_time st.
Proof.
  intro H. unfold ConnectionPoolStats.get_average_acquisition_time.
  destruct (ConnectionPoolStats.acquisition_times st) as [|x xs] eqn:E;
    [lra|].
  assert (Hs : 0 <= ConnectionPoolStats.sum (x :: xs))
    by (apply sum_acc_nonneg; [lra | exact H]).
  assert (Hn : 0 < inject_Z (Z.of_nat (List.length (x :: xs)))).
  { change 0 with (inject_Z 0). rewrite <- Zlt_Qlt. cbn [List.length]. lia. }
  apply Qle_shift_div_l; [exact Hn | lra].
Qed.

(** The time [monitored_request] measures for a request that answers after
    [duration]. *)
Lemma monitored_request_responds (duration : Q) (s : World * SmartSession.t) :
  let w := fst s in
  let a := now w + lag w (tick w)
           + (if Py.Qltb 0 duration then duration else 0)
           + lag w (S (tick w)) - (now w + lag w (tick w)) in
  let st1 := record_acquisition_time a (_stats (snd s)) in
  monitored_request (Responds duration) s
  = (Return tt,
     ({| now := now w + lag w (tick w)
                + (if Py.Qltb 0 duration then duration else 0)
                + lag w (S (tick w));
         lag := lag w; tick := S (S (tick w)); trace := trace w |},
      set_stats (if Py.Qltb a (1 # 100)
                 then record_reused_connection st1
                 else record_new_connection st1) (snd s))).
Proof. reflexivity. Qed.

Lemma measured_time_bounds (duration : Q) (w : World) :
  lag_nonneg w ->
  let a := now w + lag w (tick w)
           + (if Py.Qltb 0 duration then duration else 0)
           + lag w (S (tick w)) - (now w + lag w (tick w)) in
  0 <= a /\ duration <= a
  /\ a == (if Py.Qltb 0 duration then duration else 0) + lag w (S (tick w)).
Proof.
  intro Hlag. cbv zeta.
  pose proof (Hlag (tick w)) as H0. pose proof (Hlag (S (tick w))) as H1.
  destruct (Py.Qltb 0 duration) eqn:E.
  - apply Qltb_true in E. repeat split; lra.
  - apply Qltb_false in E. repeat split; lra.
Qed.

Lemma monitored_request_inv (o : request_outcome)
    (s : World * SmartSession.t) :
  lag_nonneg (fst s) -> stats_inv (_stats (snd s)) ->
  let s' := snd (monitored_request o s) in
  lag_nonneg (fst s')
  /\ stats_inv (_stats (snd s'))
  /\ List.length (ConnectionPoolStats.acquisition_times (_stats (snd s')))
     = (List.length (ConnectionPoolStats.acquisition_times (_stats (snd s)))
        + (if responds o then 1 else 0))%nat.
Proof.
  intros Hlag (I1 & I2 & I3 & I4 & I5). cbv zeta.
  destruct o as [duration | e duration].
  - rewrite monitored_request_responds. cbn [snd fst].
    destruct (measured_time_bounds duration (fst s) Hlag) as (Ha & _ & _).
    cbv zeta in Ha.
    set (a := now (fst s) + lag (fst s) (tick (fst s))
              + (if Py.Qltb 0 duration then duration else 0)
              + lag (fst s) (S (tick (fst s)))
              - (now (fst s) + lag (fst s) (tick (fst s)))) in *.
    split; [exact Hlag|].
    assert (Hall : Forall (fun x => 0 <= x)
                     (ConnectionPoolStats.acquisition_times (_stats (snd s))
                      ++ [a]))
      by (apply Forall_app; split; [exact I5 | now constructor]).
    unfold len in *.
    destruct (Py.Qltb a (1 # 100)); cbn; unfold stats_inv, len; cbn;
      rewrite length_app; cbn [List.length];
      (split; [|lia]); repeat split; try assumption; lia.
  - cbn. split; [exact Hlag|]. split; [now repeat split | lia].
Qed.

Lemma monitored_many_inv (os : list request_outcome) :
  forall s : World * SmartSession.t,
    lag_nonneg (fst s) -> stats_inv (_stats (snd s)) ->
    let s' := monitored_many os s in
    stats_inv (_stats (snd s'))
    /\ List.length (ConnectionPoolStats.acquisition_times (_stats (snd s')))
       = (List.length (ConnectionPoolStats.acquisition_times (_stats (snd s)))
          + List.length (filter responds os))%nat.
Proof.
  induction os as [|o rest IH]; intros s Hlag Hinv; cbv zeta.
  - cbn. split; [exact Hinv | lia].
  - cbn [monitored_many filter].
    destruct (monitored_request_inv o s Hlag Hinv) as (A & B & C).
    destruct (IH _ A B) as (D & E). split; [exact D|].
    rewrite E, C. destruct (responds o); cbn [List.length]; lia.
Qed.

Lemma idle_is_length (conns : list (string * list nat)) :
  forall acc : Z,
    fold_left (fun idle c => (idle + len (snd c))%Z) conns acc
    = (acc + len (List.concat (map snd conns)))%Z.
Proof.
  unfold len.
  induction conns as [|c rest IH]; intro acc; cbn [fold_left map List.concat].
  - cbn. lia.
  - rewrite IH, length_app. lia.
Qed.

End SessionFacts.

(** X16.  The statistics of a session, from its construction and after any
    number of monitored requests: every request that got a response is
    recorded once, as either a new or a reused connection
    (created + reused = number of recorded times = number of responses), a
    request that failed records nothing, [connections_closed] stays 0, and
    under a clock that never runs backwards no recorded time and no average
    is negative. *)
Theorem session_records_each_response
    (max_connections max_connections_per_host : Z) (keepalive_timeout : Q)
    (enable_monitoring : bool) (health_check_interval : Q)
    (os : list SmartSession.request_outcome) (w : World) :
  lag_nonneg w ->
  let s0 := SmartSession.__init__ max_connections max_connections_per_host
              keepalive_timeout enable_monitoring health_check_interval w in
  let st := SmartSession._stats (snd (monitored_many os (snd s0, fst s0))) in
  (ConnectionPoolStats.connections_created st
   + ConnectionPoolStats.connections_reused st
   = Z.of_nat (List.length (ConnectionPoolStats.acquisition_times st)))%Z
  /\ List.length (ConnectionPoolStats.acquisition_times st)
     = List.length (filter responds os)
  /\ ConnectionPoolStats.connections_closed st = 0%Z
  /\ Forall (fun a => 0 <= a) (ConnectionPoolStats.acquisition_times st)
  /\ 0 <= ConnectionPoolStats.get_average_acquisition_time st.
Proof.
  intro Hlag. cbv zeta.
  set (s0 := SmartSession.__init__ max_connections max_connections_per_host
               keepalive_timeout enable_monitoring health_check_interval w).
  assert (Hlag0 : lag_nonneg (fst (snd s0, fst s0))) by exact Hlag.
  assert (Hinv0 : stats_inv (SmartSession._stats (snd (snd s0, fst s0)))).
  { cbn. unfold stats_inv, SmartSession.len. cbn.
    repeat split; try lia. constructor. }
  destruct (monitored_many_inv os _ Hlag0 Hinv0) as ((A & B & C & D & E) & F).
  cbn [List.length ConnectionPoolStats.acquisition_times SmartSession._stats
         snd fst s0 SmartSession.__init__ ConnectionPoolStats.__init__
         time_time Nat.add] in F.
  split; [exact A|]. split; [exact F|]. split; [exact D|].
  split; [exact E | now apply average_nonneg].
Qed.

Lemma session_records_each_response_witness :
  let w := {| now := 0; lag := fun _ => 1 # 1000; tick := 0; trace := [] |} in
  let os := [SmartSession.Responds (1 # 2);
             SmartSession.RequestFails Py.ClientConnectorError 1;
             SmartSession.Responds 0] in
  let s0 := SmartSession.__init__ 100 10 15 true 5 w in
  List.length (ConnectionPoolStats.acquisition_times
                 (SmartSession._stats
                    (snd (monitored_many os (snd s0, fst s0)))))
  = 2%nat.
Proof.
  intros w os s0.
  destruct (session_records_each_response 100 10 15 true 5 os w)
    as (_ & H & _); [intro k; cbn; lra|].
  exact H.
Defined.

(** X17.  A response that takes 10 ms or more is always recorded as a new
    connection, whatever the connection really was; while the clock adds
    nothing of its own, one that takes less is recorded as reused. *)
Theorem slow_response_counts_as_new (duration : Q)
    (s : World * SmartSession.t) :
  lag_nonneg (fst s) ->
  let st := SmartSession._stats (snd s) in
  let st' :=
    SmartSession._stats
      (snd (snd (SmartSession.monitored_request
                   (SmartSession.Responds duration) s))) in
  ((1 # 100) <= duration ->
   ConnectionPoolStats.connections_created st'
   = (ConnectionPoolStats.connections_created st + 1)%Z
   /\ ConnectionPoolStats.connections_reused st'
      = ConnectionPoolStats.connections_reused st)
  /\ ((forall k, lag (fst s) k == 0) -> duration < (1 # 100) ->
      ConnectionPoolStats.connections_reused st'
      = (ConnectionPoolStats.connections_reused st + 1)%Z
      /\ ConnectionPoolStats.connections_created st'
         = ConnectionPoolStats.connections_created st).
Proof.
  intro Hlag. cbv zeta. rewrite monitored_request_responds. cbn [snd fst].
  destruct (measured_time_bounds duration (fst s) Hlag) as (Ha & Hd & He).
  cbv zeta in Ha, Hd, He.
  set (a := now (fst s) + lag (fst s) (tick (fst s))
            + (if Py.Qltb 0 duration then duration else 0)
            + lag (fst s) (S (tick (fst s)))
            - (now (fst s) + lag (fst s) (tick (fst s)))) in *.
  split.
  - intro Hslow.
    assert (E : Py.Qltb a (1 # 100) = false) by (apply Qltb_false; lra).
    rewrite E. cbn. split; reflexivity.
  - intros Hstill Hfast.
    assert (E : Py.Qltb a (1 # 100) = true).
    { apply Qltb_true. rewrite He, (Hstill (S (tick (fst s)))).
      destruct (Py.Qltb 0 duration); lra. }
    rewrite E. cbn. split; reflexivity.
Qed.

Lemma slow_response_counts_as_new_witness :
  let w := {| now := 0; lag := fun _ => 0; tick := 0; trace := [] |} in
  let s0 := SmartSession.__init__ 100 10 15 true 5 w in
  ConnectionPoolStats.connections_created
    (SmartSession._stats
       (snd (snd (SmartSession.monitored_request
                    (SmartSession.Responds (1 # 50)) (snd s0, fst s0)))))
  = 1%Z.
Proof.
  intros w s0.
  destruct (slow_response_counts_as_new (1 # 50) (snd s0, fst s0))
    as (H & _); [intro k; cbn; lra|].
  destruct H as (H & _); [lra|]. exact H.
Defined.

(** X18.  The snapshot of [get_pool_stats] is consistent: with a
    [TCPConnector], [active] counts the connections in use, [idle] all the
    idle connections of all hosts, [total] is their sum, and [waiting] is
    never negative and is 0 exactly while [active] is within
    [max_connections]; without one, only the error is reported.  The
    statistics are not changed by the read. *)
Theorem pool_snapshot_consistent (s : World * SmartSession.t) :
  let r := SmartSession.get_pool_stats s in
  SmartSession._stats (snd (snd r)) = SmartSession._stats (snd s)
  /\ match SmartSession.connector (snd s) with
     | None => fst r = Return None
     | Some c =>
         exists ps,
           fst r = Return (Some ps)
           /\ SmartSession.active ps
              = Z.of_nat (List.length (SmartSession._acquired c))
           /\ SmartSession.idle ps
              = Z.of_nat (List.length (idle_connections c))
           /\ SmartSession.total ps
              = (SmartSession.active ps + SmartSession.idle ps)%Z
           /\ (0 <= SmartSession.waiting ps)%Z
           /\ (SmartSession.waiting ps = 0%Z
               <-> (SmartSession.active ps
                    <= SmartSession._max_connections (snd s))%Z)
     end.
Proof.
  cbv zeta. destruct s as [w [[c|] mon hci maxc mph kat st cl]].
  - cbn. split; [reflexivity|]. eexists. split; [reflexivity|]. cbn.
    rewrite idle_is_length. unfold SmartSession.len, idle_connections.
    repeat split; try lia.
  - cbn. split; reflexivity.
Qed.

(** X19.  One pass of the health check, which leaves the statistics as they
    are: with a positive [max_connections] it never prints both the
    near-exhaustion warning and the idle-connections notice; with
    [max_connections] at 0 or below it prints the near-exhaustion warning at
    every pass, even with no connection in use; and without a
    [TCPConnector] it ends in the error branch. *)
Theorem health_check_advisories (s : World * SmartSession.t) :
  let r := SmartSession.health_check_pass s in
  SmartSession._stats (snd (snd r)) = SmartSession._stats (snd s)
  /\ exists avisos,
       fst r = Return avisos
       /\ match SmartSession.connector (snd s) with
          | None => avisos = [SmartSession.ErrorInHealthCheck]
          | Some _ =>
              ~ In SmartSession.ErrorInHealthCheck avisos
              /\ ((0 < SmartSession._max_connections (snd s))%Z ->
                  ~ (In SmartSession.PoolNearExhaustion avisos
                     /\ In SmartSession.ManyIdleConnections avisos))
              /\ ((SmartSession._max_connections (snd s) <= 0)%Z ->
                  In SmartSession.PoolNearExhaustion avisos)
          end.
Proof.
  cbv zeta. destruct s as [w [[c|] mon hci maxc mph kat st cl]].
  - cbn. split; [reflexivity|]. eexists. split; [reflexivity|].
    set (act := SmartSession.len (SmartSession._acquired c)).
    assert (Hact : (0 <= act)%Z) by (unfold act, SmartSession.len; lia).
    assert (Hq : 0 <= inject_Z act).
    { change 0 with (inject_Z 0). now rewrite <- Zle_Qle. }
    destruct (Qle_bool (inject_Z maxc * (9 # 10)) (inject_Z act)) eqn:E1;
      destruct (Py.Qltb 100 _) eqn:E2;
      destruct (Py.Qltb (inject_Z maxc * (1 # 2)) _ && (act =? 0)%Z) eqn:E3;
      cbn [app In];
      (split; [intuition discriminate|]);
      (split; [intro Hpos | intro Hneg]);
      try (intuition discriminate);
      try (now auto).
    + exfalso. apply andb_true_iff in E3. destruct E3 as [_ E3].
      apply Z.eqb_eq in E3. apply Qle_bool_iff in E1.
      assert (0 < inject_Z maxc).
      { change 0 with (inject_Z 0). now rewrite <- Zlt_Qlt. }
      rewrite E3 in E1. change (inject_Z 0) with 0 in E1. lra.
    + exfalso. apply andb_true_iff in E3. destruct E3 as [_ E3].
      apply Z.eqb_eq in E3. apply Qle_bool_iff in E1.
      assert (0 < inject_Z maxc).
      { change 0 with (inject_Z 0). now rewrite <- Zlt_Qlt. }
      rewrite E3 in E1. change (inject_Z 0) with 0 in E1. lra.
    + exfalso. apply Qle_bool_false in E1.
      assert (inject_Z maxc <= 0).
      { change 0 with (inject_Z 0). now rewrite <- Zle_Qle. }
      lra.
    + exfalso. apply Qle_bool_false in E1.
      assert (inject_Z maxc <= 0).
      { change 0 with (inject_Z 0). now rewrite <- Zle_Qle. }
      lra.
    + exfalso. apply Qle_bool_false in E1.
      assert (inject_Z maxc <= 0).
      { change 0 with (inject_Z 0). now rewrite <- Zle_Qle. }
      lra.
    + exfalso. apply Qle_bool_false in E1.
      assert (inject_Z maxc <= 0).
      { change 0 with (inject_Z 0). now rewrite <- Zle_Qle. }
      lra.
  - cbn. split; [reflexivity|]. eexists. split; reflexivity.
Qed.


(** ** Validation after the request *)

Section ValidationFacts.

Import ThrottledClient.

(** An exchange answered below 400 with nothing, or with something that is
    not a valid product: the [try] statement returns it. *)
Lemma attempt_unvalidated (json_data : option string) (status : Z)
    (body : response_body) (dur : Q) (s : World * ThrottledClient.t) :
  (status < 400)%Z ->
  status = 204%Z
  \/ (exists v, body = JsonBody v /\ is_valid_producto v = false) ->
  exists res,
    fst (attempt json_data (Response status body dur) s) = Return res
    /\ validar_producto res
       = fun s' => (Raise Py.SchemaValidationError, s').
Proof.
  intros Hlt Hbody. destruct s as [w c].
  unfold attempt, try_except, try_body, session_request, handlers,
    update_metrics, suspend, bind, modify, raise, ret.
  cbn [fst snd].
  assert (E5 : (500 <=? status)%Z = false) by (apply Z.leb_gt; lia).
  assert (E4 : (400 <=? status)%Z = false) by (apply Z.leb_gt; lia).
  destruct json_data as [d|]; cbn [fst snd]; rewrite E5, E4;
    (destruct (status =? 204)%Z eqn:E2;
     [ cbn; exists None; split; reflexivity
     | destruct Hbody as [-> | (v & -> & Hv)]; [discriminate E2|];
       cbn; exists (Some v); split; [reflexivity|];
       unfold validar_producto; rewrite Hv; reflexivity ]).
Qed.

End ValidationFacts.

(** X20.  Validation comes after the accounting: when a request that gets
    past both limiters is answered below 400 with no content (204) or with
    something that is not a valid product, [crear_producto] raises the
    validation error, and the request has been counted as successful, not
    as failed. *)
Theorem invalid_product_counted_as_success (fuel : nat) (producto : string)
    (status : Z) (body : ThrottledClient.response_body) (dur : Q)
    (s : World * ThrottledClient.t) :
  executes fuel s ->
  (status < 400)%Z ->
  status = 204%Z
  \/ (exists v, body = ThrottledClient.JsonBody v
                /\ ThrottledClient.is_valid_producto v = false) ->
  let r := ThrottledClient.crear_producto fuel producto
             (ThrottledClient.Response status body dur) s in
  let m := ThrottledClient.metrics (snd s) in
  let m' := ThrottledClient.metrics (snd (snd r)) in
  fst r = Raise Py.SchemaValidationError
  /\ ThrottledClient.successful_requests m'
     = (ThrottledClient.successful_requests m + 1)%Z
  /\ ThrottledClient.failed_requests m' = ThrottledClient.failed_requests m
  /\ ThrottledClient.total_requests m'
     = (ThrottledClient.total_requests m + 1)%Z.
Proof.
  intros Hex Hlt Hbody. cbv zeta.
  set (ex := ThrottledClient.Response status body dur).
  destruct (request_metrics fuel (Some producto) ex s)
    as [(s2 & Hm & Hm' & Hr & _) | (_ & Hno & _)]; [|now elim Hno].
  destruct (attempt_unvalidated (Some producto) status body dur s2 Hlt Hbody)
    as (res & Hres & Hval).
  fold ex in Hres.
  pose proof (attempt_delta (Some producto) ex s2) as D. cbv zeta in D.
  destruct D as (D1 & D2 & _).
  rewrite Hres in Hr.
  unfold ThrottledClient.crear_producto, bind.
  destruct (ThrottledClient._request fuel (Some producto) ex s)
    as [[v|e|] s'] eqn:E; cbn [fst snd] in *; try discriminate Hr.
  injection Hr as ->. rewrite Hval. cbn [fst snd].
  split; [reflexivity|].
  destruct D2 as [(A & B & _) | (_ & _ & e & He)];
    [|rewrite Hres in He; discriminate He].
  rewrite Hm', A, B, D1, Hm. repeat split; reflexivity.
Qed.

(** A fresh client, a 200 answer that is not a product. *)
Lemma invalid_product_counted_as_success_witness :
  let w := {| now := 0; lag := fun _ => 1 # 100; tick := 0; trace := [] |} in
  let c := {| ThrottledClient.concurrency_limiter :=
                {| ConcurrencyLimiter.max_concurrent := 10;
                   ConcurrencyLimiter.semaphore := 10;
                   ConcurrencyLimiter._in_flight := 0 |};
              ThrottledClient.rate_limiter := fst (RateLimiter.__init__ 20 w);
              ThrottledClient.metrics :=
                {| ThrottledClient.total_requests := 0;
                   ThrottledClient.successful_requests := 0;
                   ThrottledClient.failed_requests := 0;
                   ThrottledClient.total_bytes_sent := 0;
                   ThrottledClient.total_bytes_received := 0 |} |} in
  let body :=
    ThrottledClient.JsonBody
      {| ThrottledClient.json_str := "[]"%string;
         ThrottledClient.is_valid_producto := false |} in
  ThrottledClient.successful_requests
    (ThrottledClient.metrics
       (snd (snd (ThrottledClient.crear_producto 2 "{}"%string
                    (ThrottledClient.Response 200 body 0)
                    (snd (RateLimiter.__init__ 20 w), c))))) = 1%Z.
Proof.
  intros w c body.
  pose proof (invalid_product_counted_as_success 2 "{}"%string 200 body 0
                (snd (RateLimiter.__init__ 20 w), c)) as H.
  cbv zeta in H. destruct H as (_ & H & _).
  - unfold executes.
    destruct (after_rate 2 (snd (RateLimiter.__init__ 20 w), c))
      as [[wait|e|] s1] eqn:E; try (vm_compute in E; discriminate).
    exists wait, s1. eexists. split; [reflexivity|].
    vm_compute in E. injection E as _ <-. reflexivity.
  - lia.
  - right. eexists. split; reflexivity.
  - exact H.
Defined.
